(** * Counterparty TxParser: a shallow embedding and its verified properties

    The development follows the TypeScript sources file by file:
    - [payload-decoders.ts]: asset and address codecs, message framing,
      the per-message decoders and their dispatch;
    - [constants.ts]: the protocol magic and the message-type registry;
    - [op-return-parser.ts]: RC4 and the OP_RETURN carrier;
    - [reveal-parser.ts]: the Taproot witness envelope carrier.

    Node [Buffer]s are lists of bytes, JavaScript numbers that hold integers
    are [Z], thrown exceptions are an explicit [result] type. *)

From Stdlib Require Import ZArith List String Ascii Bool Lia Permutation.
From Stdlib Require Import Strings.Byte.
From Stdlib Require Import DecimalString DecimalZ.
Import ListNotations.
Open Scope Z_scope.

(* ================================================================== *)
(** * Buffers *)
(* ================================================================== *)

Definition Buffer := list byte.

(** The numeric value of a byte, as [buf[i]] yields it. *)
Definition u8 (b : byte) : Z := Z.of_N (Byte.to_N b).

(** Storing a number into a [Uint8Array] slot keeps its low 8 bits. *)
Definition to_u8 (z : Z) : byte :=
  match Byte.of_N (Z.to_N (z mod 256)) with
  | Some b => b
  | None => x00
  end.

Definition blength (buf : Buffer) : Z := Z.of_nat (List.length buf).

(** [buf[i]]: [None] stands for [undefined] (index out of range). *)
Definition byte_at (buf : Buffer) (i : Z) : option Z :=
  if i <? 0 then None else option_map u8 (nth_error buf (Z.to_nat i)).

(** [buf.subarray(start, stop)] for non-negative bounds (the only ones the
    parsers produce): both ends are clamped to the buffer. *)
Definition subarray (buf : Buffer) (start stop : Z) : Buffer :=
  firstn (Z.to_nat (stop - start)) (skipn (Z.to_nat start) buf).

(** [buf.subarray(start)]. *)
Definition subarray_from (buf : Buffer) (start : Z) : Buffer :=
  skipn (Z.to_nat start) buf.

Definition byte_eqb (a b : byte) : bool := Byte.eqb a b.

(** [a.equals(b)]. *)
Fixpoint equals (a b : Buffer) : bool :=
  match a, b with
  | [], [] => true
  | x :: a', y :: b' => byte_eqb x y && equals a' b'
  | _, _ => false
  end.

(** Writing one slot of a typed array; out of range writes are ignored. *)
Fixpoint set_at (l : list byte) (n : nat) (v : byte) : list byte :=
  match l, n with
  | [], _ => []
  | _ :: t, O => v :: t
  | h :: t, S n' => h :: set_at t n' v
  end.

(** Big-endian and little-endian unsigned reads of [n] bytes at [off]
    ([readUInt8], [readUInt16BE], [readUInt32BE], [readBigUInt64BE],
    [readUInt16LE], [readUInt32LE]); [None] is the [RangeError] Node raises
    when the read leaves the buffer. *)
Definition be_value (bs : list byte) : Z :=
  fold_left (fun acc b => acc * 256 + u8 b) bs 0.

Definition readUIntBE (buf : Buffer) (off : Z) (n : nat) : option Z :=
  if (off <? 0) || (blength buf <? off + Z.of_nat n) then None
  else Some (be_value (firstn n (skipn (Z.to_nat off) buf))).

Definition readUIntLE (buf : Buffer) (off : Z) (n : nat) : option Z :=
  if (off <? 0) || (blength buf <? off + Z.of_nat n) then None
  else Some (be_value (rev (firstn n (skipn (Z.to_nat off) buf)))).

(** [n] on [width] big-endian bytes, and on [width] little-endian bytes. *)
Fixpoint be_bytes (width : nat) (n : Z) : Buffer :=
  match width with
  | O => []
  | S width' => to_u8 (n / 256 ^ Z.of_nat width') :: be_bytes width' n
  end.

Definition le_bytes (width : nat) (n : Z) : Buffer := rev (be_bytes width n).

(** [readBigInt64BE]: the same 8 bytes read as a two's complement number. *)
Definition readBigInt64BE (buf : Buffer) (off : Z) : option Z :=
  match readUIntBE buf off 8 with
  | Some v => Some (if v <? 2 ^ 63 then v else v - 2 ^ 64)
  | None => None
  end.

(* ================================================================== *)
(** * JavaScript strings *)
(* ================================================================== *)

(** A JavaScript string is represented by its UTF-8 encoding; every string
    the parsers build (literals, decoded buffers, printed numbers, CBOR
    text) is well-formed, so [Buffer.from(s, 'utf8')] is the identity on
    the representation. *)

Definition Buffer_from_utf8 (s : string) : Buffer := list_byte_of_string s.

Definition hex_digits : list ascii :=
  ["0"; "1"; "2"; "3"; "4"; "5"; "6"; "7"; "8"; "9";
   "a"; "b"; "c"; "d"; "e"; "f"]%char.

Definition hex_digit (n : Z) : ascii := nth (Z.to_nat n) hex_digits "0"%char.

Definition byte_hex (b : byte) : string :=
  String (hex_digit (u8 b / 16)) (String (hex_digit (u8 b mod 16)) EmptyString).

(** [buf.toString('hex')] *)
Fixpoint toString_hex (buf : Buffer) : string :=
  match buf with
  | [] => EmptyString
  | b :: rest => (byte_hex b ++ toString_hex rest)%string
  end.

Definition hex_value (c : ascii) : option Z :=
  let n := Z.of_nat (nat_of_ascii c) in
  if (48 <=? n) && (n <=? 57) then Some (n - 48)
  else if (97 <=? n) && (n <=? 102) then Some (n - 87)
  else if (65 <=? n) && (n <=? 70) then Some (n - 55)
  else None.

(** [Buffer.from(s, 'hex')]: pairs of hex digits are decoded until the first
    pair that is not hexadecimal; a trailing single character is dropped. *)
Fixpoint Buffer_from_hex (s : string) : Buffer :=
  match s with
  | String a (String b rest) =>
      match hex_value a, hex_value b with
      | Some x, Some y => to_u8 (16 * x + y) :: Buffer_from_hex rest
      | _, _ => []
      end
  | _ => []
  end.

(** Decimal rendering of an integer ([BigInt.prototype.toString], and
    [Number.prototype.toString] on the integers the parsers print). *)
Definition decimal (z : Z) : string := NilZero.string_of_int (Z.to_int z).

(** ** UTF-8 decoding, [buf.toString('utf8')]

    Well-formed sequences are kept; every maximal ill-formed subpart becomes
    one U+FFFD, as the WHATWG decoder Node follows prescribes. *)

Definition replacement_char : list byte := [xef; xbf; xbd].

(** State while inside a multi-byte sequence: bytes read so far, number of
    continuation bytes still needed, and the range allowed for the next. *)
Definition utf8_pending : Type := (list byte * nat * Z * Z)%type.

Definition in_range (lo v hi : Z) : bool := (lo <=? v) && (v <=? hi).

Definition utf8_lead (b : byte) : list byte * option utf8_pending :=
  let v := u8 b in
  if v <=? 0x7F then ([b], None)
  else if in_range 0xC2 v 0xDF then ([], Some ([b], 1%nat, 0x80, 0xBF))
  else if v =? 0xE0 then ([], Some ([b], 2%nat, 0xA0, 0xBF))
  else if v =? 0xED then ([], Some ([b], 2%nat, 0x80, 0x9F))
  else if in_range 0xE1 v 0xEF then ([], Some ([b], 2%nat, 0x80, 0xBF))
  else if v =? 0xF0 then ([], Some ([b], 3%nat, 0x90, 0xBF))
  else if v =? 0xF4 then ([], Some ([b], 3%nat, 0x80, 0x8F))
  else if in_range 0xF1 v 0xF3 then ([], Some ([b], 3%nat, 0x80, 0xBF))
  else (replacement_char, None).

Fixpoint utf8_run (st : option utf8_pending) (input : list byte) : list byte :=
  match input with
  | [] => match st with None => [] | Some _ => replacement_char end
  | b :: rest =>
      match st with
      | None =>
          let '(out, st') := utf8_lead b in out ++ utf8_run st' rest
      | Some (acc, n, lo, hi) =>
          if in_range lo (u8 b) hi then
            match n with
            | S (S n') => utf8_run (Some (acc ++ [b], S n', 0x80, 0xBF)) rest
            | _ => (acc ++ [b]) ++ utf8_run None rest
            end
          else
            let '(out, st') := utf8_lead b in
            replacement_char ++ out ++ utf8_run st' rest
      end
  end.

Definition toString_utf8 (buf : Buffer) : string :=
  string_of_list_byte (utf8_run None buf).

(** ** [String.prototype.trim] *)

(** The white space and line terminator code points of ECMAScript, in
    UTF-8: TAB, LF, VT, FF, CR, SP, U+00A0, U+1680, U+2000..U+200A, U+2028,
    U+2029, U+202F, U+205F, U+3000, U+FEFF. *)
Definition white_space : list (list byte) :=
  [ [x09]; [x0a]; [x0b]; [x0c]; [x0d]; [x20]; [xc2; xa0]; [xe1; x9a; x80];
    [xe2; x80; x80]; [xe2; x80; x81]; [xe2; x80; x82]; [xe2; x80; x83];
    [xe2; x80; x84]; [xe2; x80; x85]; [xe2; x80; x86]; [xe2; x80; x87];
    [xe2; x80; x88]; [xe2; x80; x89]; [xe2; x80; x8a]; [xe2; x80; xa8];
    [xe2; x80; xa9]; [xe2; x80; xaf]; [xe2; x81; x9f]; [xe3; x80; x80];
    [xef; xbb; xbf] ].

Fixpoint strip_prefix (p l : list byte) : option (list byte) :=
  match p, l with
  | [], _ => Some l
  | x :: p', y :: l' => if byte_eqb x y then strip_prefix p' l' else None
  | _ :: _, [] => None
  end.

Fixpoint strip_one (seqs : list (list byte)) (l : list byte)
  : option (list byte) :=
  match seqs with
  | [] => None
  | p :: seqs' =>
      match strip_prefix p l with
      | Some l' => Some l'
      | None => strip_one seqs' l
      end
  end.

Fixpoint strip_all (seqs : list (list byte)) (fuel : nat) (l : list byte)
  : list byte :=
  match fuel with
  | O => l
  | S fuel' =>
      match strip_one seqs l with
      | Some l' => strip_all seqs fuel' l'
      | None => l
      end
  end.

Definition trim_bytes (l : list byte) : list byte :=
  let a := strip_all white_space (List.length l) l in
  rev (strip_all (map (@rev byte) white_space) (List.length a) (rev a)).

Definition trim (s : string) : string :=
  string_of_list_byte (trim_bytes (list_byte_of_string s)).

Fixpoint startsWith (s prefix : string) : bool :=
  match prefix, s with
  | EmptyString, _ => true
  | String p prefix', String c s' => Ascii.eqb p c && startsWith s' prefix'
  | String _ _, EmptyString => false
  end.

(** [s.split(sep)] for a one-character separator. *)
Fixpoint split_on (sep : ascii) (s : string) : list string :=
  match s with
  | EmptyString => [EmptyString]
  | String c s' =>
      if Ascii.eqb c sep then EmptyString :: split_on sep s'
      else match split_on sep s' with
           | [] => [String c EmptyString]
           | h :: t => String c h :: t
           end
  end.

(** ** [BigInt(string)] *)

Definition digit_value (radix : Z) (c : ascii) : option Z :=
  match hex_value c with
  | Some v => if v <? radix then Some v else None
  | None => None
  end.

Fixpoint parse_radix_acc (radix : Z) (s : string) (acc : Z) : option Z :=
  match s with
  | EmptyString => Some acc
  | String c s' =>
      match digit_value radix c with
      | Some v => parse_radix_acc radix s' (acc * radix + v)
      | None => None
      end
  end.

Definition parse_radix (radix : Z) (s : string) : option Z :=
  match s with
  | EmptyString => None
  | _ => parse_radix_acc radix s 0
  end.

(** The rest of [s] behind [prefix], when [s] starts with it. *)
Fixpoint after (prefix s : string) : option string :=
  match prefix, s with
  | EmptyString, _ => Some s
  | String p prefix', String c s' =>
      if Ascii.eqb p c then after prefix' s' else None
  | String _ _, EmptyString => None
  end.

Definition radix_prefixes : list (string * Z) :=
  [("0x", 16); ("0X", 16); ("0o", 8); ("0O", 8); ("0b", 2); ("0B", 2)]%string.

Fixpoint radix_literal (prefixes : list (string * Z)) (t : string)
  : option (Z * string) :=
  match prefixes with
  | [] => None
  | (p, radix) :: rest =>
      match after p t with
      | Some digits => Some (radix, digits)
      | None => radix_literal rest t
      end
  end.

(** StringToBigInt: surrounding white space is dropped; the empty string is
    [0n]; then either an unsigned numeral with a [0x], [0o] or [0b] prefix
    or a signed decimal numeral. [None] is the [SyntaxError]. *)
Definition BigInt_of_string (s : string) : option Z :=
  let t := trim s in
  if String.eqb t EmptyString then Some 0
  else
    match radix_literal radix_prefixes t with
    | Some (radix, digits) => parse_radix radix digits
    | None =>
        match after "+" t with
        | Some digits => option_map Z.of_uint (NilZero.uint_of_string digits)
        | None => option_map Z.of_int (NilZero.int_of_string t)
        end
    end.

(* ================================================================== *)
(** * Exceptions *)
(* ================================================================== *)

(** Errors the engine or Node raise by themselves; their message text is
    the engine's own. *)
Inductive fault : Type :=
| BigIntSyntaxError (s : string)   (* BigInt(s) on a malformed numeral *)
| ReadOfUndefined                  (* a property read on undefined *)
| NotAFunction                     (* a call of a missing method *)
| InvalidArgType                   (* Buffer.from of a value that is no byte source *)
| OutOfRange.                      (* a Buffer read or write outside its bounds *)

Inductive thrown : Type :=
| ErrorOf (message : string)       (* [new Error(message)], or a library's Error *)
| EngineError (f : fault)          (* an Error instance raised by the engine *)
| NonError.                        (* a thrown value that is no Error instance *)

Inductive result (A : Type) : Type :=
| Ok (a : A)
| Throw (e : thrown).
Arguments Ok {A} a.
Arguments Throw {A} e.

Definition bind {A B} (r : result A) (k : A -> result B) : result B :=
  match r with
  | Ok a => k a
  | Throw e => Throw e
  end.

Notation "'let*' x ':=' r 'in' k" := (bind r (fun x => k))
  (at level 10, x pattern, r at level 100, k at level 200).

(** A read that Node bounds-checks. *)
Definition checked {A} (o : option A) : result A :=
  match o with
  | Some a => Ok a
  | None => Throw (EngineError OutOfRange)
  end.

(** [try { ... } catch { return fallback }] *)
Definition try_or {A} (r : result A) (fallback : A) : A :=
  match r with
  | Ok a => a
  | Throw _ => fallback
  end.

(* ================================================================== *)
(** * payload-decoders.ts: the asset codec *)
(* ================================================================== *)

Definition NUMERIC_THRESHOLD : Z := 26 ^ 12 + 1.
Definition ALPHABETIC_THRESHOLD : Z := 26 ^ 3.

(** The [while (remaining > 0)] loop. BigInt [%] and [/] truncate towards
    zero. The loop at least halves [remaining], so [fuel] beyond the binary
    length of [remaining] is never used. *)
Fixpoint alphabetic_loop (fuel : nat) (remaining : Z) (name : string) : string :=
  match fuel with
  | O => name
  | S fuel' =>
      if remaining >? 0 then
        let remaining := remaining - 1 in
        let digit := Z.rem remaining 26 in
        let name := String (ascii_of_nat (Z.to_nat (65 + digit))) name in
        alphabetic_loop fuel' (Z.quot remaining 26) name
      else name
  end.

Definition alphabetic_fuel (id : Z) : nat := S (Z.to_nat (Z.log2 id)).

(** The body of [assetIdToName] once [id] is a bigint. *)
Definition assetIdToName_bigint (id : Z) : string :=
  if id =? 0 then "BTC"
  else if id =? 1 then "XCP"
  else if id >=? NUMERIC_THRESHOLD then String "A" (decimal id)
  else if id >=? ALPHABETIC_THRESHOLD then
    alphabetic_loop (alphabetic_fuel id) id EmptyString
  else String "A" (decimal id).

(** What callers hand to [assetIdToName]: a string, a bigint, or (from
    [decoded[0]?.toString()] on a null element) [undefined]. *)
Inductive AssetIdArg : Type :=
| IdString (s : string)
| IdBigInt (z : Z)
| IdUndefined.

(** [typeof assetId === 'string' ? BigInt(assetId) : assetId], then the
    body. On [undefined] every comparison is false and the final
    [id.toString()] raises. *)
Definition assetIdToName (assetId : AssetIdArg) : result string :=
  match assetId with
  | IdString s =>
      match BigInt_of_string s with
      | Some id => Ok (assetIdToName_bigint id)
      | None => Throw (EngineError (BigIntSyntaxError s))
      end
  | IdBigInt id => Ok (assetIdToName_bigint id)
  | IdUndefined => Throw (EngineError ReadOfUndefined)
  end.

(* ================================================================== *)
(** * op-return-parser.ts: RC4 *)
(* ================================================================== *)

Module RC4.

(** Reading [S[i]] from the 256-entry state. *)
Definition rd (Sb : list byte) (i : Z) : Z := u8 (nth (Z.to_nat i) Sb x00).

(** [const temp = S[i]; S[i] = S[j]; S[j] = temp;] *)
Definition swap (Sb : list byte) (i j : Z) : list byte :=
  let temp := rd Sb i in
  let S1 := set_at Sb (Z.to_nat i) (to_u8 (rd Sb j)) in
  set_at S1 (Z.to_nat j) (to_u8 temp).

(** [for (let i = 0; i < 256; i++) S[i] = i;] *)
Definition init_state : list byte :=
  map (fun i => to_u8 (Z.of_nat i)) (seq 0 256).

(** [key[i % key.length]]; with an empty key the index is [NaN] and the
    read yields [undefined]. *)
Definition key_byte (key : Buffer) (i : Z) : option Z :=
  if blength key =? 0 then None else byte_at key (i mod blength key).

(** One round of the key-scheduling loop. With an [undefined] key byte the
    sum is [NaN], and [NaN & 0xFF] is [0]. *)
Definition ksa_round (key : Buffer) (st : list byte * Z) (i : Z)
  : list byte * Z :=
  let '(Sb, j) := st in
  let j' := match key_byte key i with
            | Some k => Z.land (j + rd Sb i + k) 255
            | None => 0
            end in
  (swap Sb i j', j').

Definition ksa (key : Buffer) : list byte :=
  fst (fold_left (ksa_round key) (map Z.of_nat (seq 0 256)) (init_state, 0)).

(** The generation loop, one output byte per input byte. *)
Fixpoint prga (Sb : list byte) (i j : Z) (data : Buffer) : Buffer :=
  match data with
  | [] => []
  | d :: rest =>
      let i' := Z.land (i + 1) 255 in
      let j' := Z.land (j + rd Sb i') 255 in
      let S' := swap Sb i' j' in
      let ks := rd S' (Z.land (rd S' i' + rd S' j') 255) in
      to_u8 (Z.lxor (u8 d) ks) :: prga S' i' j' rest
  end.

Definition rc4Decrypt (key data : Buffer) : Buffer :=
  prga (ksa key) 0 0 data.

End RC4.

(* ================================================================== *)
(** * constants.ts *)
(* ================================================================== *)

(** [Buffer.from('CNTRPRTY', 'utf8')] *)
Definition PREFIX_BYTES : Buffer := Buffer_from_utf8 "CNTRPRTY".

Definition MESSAGE_TYPES : list (Z * string) :=
  [ (2, "enhanced_send"); (3, "mpma_send"); (4, "sweep"); (10, "order");
    (11, "btc_pay"); (12, "dispenser"); (13, "dispense"); (20, "issuance");
    (21, "issuance_subasset"); (22, "issuance"); (23, "issuance_subasset");
    (30, "broadcast"); (50, "dividend"); (70, "cancel"); (90, "fairminter");
    (91, "fairmint"); (101, "attach"); (102, "detach"); (110, "destroy") ]%string.

Fixpoint lookup (table : list (Z * string)) (key : Z) : option string :=
  match table with
  | [] => None
  | (k, v) :: rest => if k =? key then Some v else lookup rest key
  end.

(** [MESSAGE_TYPES[messageId] || 'unknown'] *)
Definition message_name_of (messageId : Z) : string :=
  match lookup MESSAGE_TYPES messageId with
  | Some name => name
  | None => "unknown"
  end.

(* ================================================================== *)
(** * Values and collaborators from outside the repository *)
(* ================================================================== *)

(** The part of a bitcoinjs [Network] the address encoders read. *)
Record Network : Type := {
  pubKeyHash : Z;
  scriptHash : Z;
  bech32 : string
}.

(** A parsed transaction, as far as the parser looks into it. *)
Record TxInput : Type := { witness : list Buffer }.
Record Transaction : Type := { ins : list TxInput }.

(** [tx.hasWitnesses()] *)
Definition hasWitnesses (tx : Transaction) : bool :=
  existsb (fun input => negb (Nat.eqb (List.length (witness input)) 0)) (ins tx).

(** Values the CBOR decoder hands back. [JNum z] is a Number holding the
    safe integer [z]; [JBytes true b] is a [Buffer], [JBytes false b] a
    plain [Uint8Array]; [JOther] stands for every other value (non-integer
    numbers, maps, tagged items), whose coercions are the engine's own. *)
#[warnings="-register-all"]
Inductive jsval (Other : Type) : Type :=
| JUndefined
| JNull
| JBool (b : bool)
| JNum (z : Z)
| JBigInt (z : Z)
| JString (s : string)
| JBytes (is_buffer : bool) (b : Buffer)
| JArray (l : list (jsval Other))
| JOther (o : Other).
Arguments JUndefined {Other}.
Arguments JNull {Other}.
Arguments JBool {Other} b.
Arguments JNum {Other} z.
Arguments JBigInt {Other} z.
Arguments JString {Other} s.
Arguments JBytes {Other} is_buffer b.
Arguments JArray {Other} l.
Arguments JOther {Other} o.

(** The collaborators: the CBOR codec ([cbor-x]), the transaction parser and
    the address encoders ([bitcoinjs-lib]), and the engine's own behaviour
    where the sources rely on it. An address encoder returns the payment's
    [address] property, [None] when it is [undefined]. *)
Record Externals (Other : Type) : Type := {
  cborDecode : Buffer -> result (jsval Other);
  cborEncode : jsval Other -> result Buffer;
  Transaction_fromBuffer : Buffer -> result Transaction;
  p2pkh : Buffer -> Network -> result (option string);
  p2sh : Buffer -> Network -> result (option string);
  p2wpkh : Buffer -> Network -> result (option string);
  p2wsh : Buffer -> Network -> result (option string);
  p2tr : Buffer -> Network -> result (option string);
  (** [String.prototype.toLowerCase] *)
  toLowerCase : string -> string;
  (** the message text of an engine-raised error *)
  engine_message : fault -> string;
  (** [v.toString()] on arrays, typed arrays and [JOther] values *)
  toString_exotic : jsval Other -> result string;
  (** [Buffer.from(v)] on arrays with non-number elements and [JOther] values *)
  Buffer_from_exotic : jsval Other -> result Buffer;
  (** truthiness of a [JOther] value *)
  truthy_other : Other -> bool;
  (** the type-id prefix [extractOrdXcpEnvelope] builds when the first CBOR
      element is not a Number holding an integer *)
  id_prefix_exotic : jsval Other -> result Buffer
}.
Arguments cborDecode {Other} _ _.
Arguments cborEncode {Other} _ _.
Arguments Transaction_fromBuffer {Other} _ _.
Arguments p2pkh {Other} _ _ _.
Arguments p2sh {Other} _ _ _.
Arguments p2wpkh {Other} _ _ _.
Arguments p2wsh {Other} _ _ _.
Arguments p2tr {Other} _ _ _.
Arguments toLowerCase {Other} _ _.
Arguments engine_message {Other} _ _.
Arguments toString_exotic {Other} _ _.
Arguments Buffer_from_exotic {Other} _ _.
Arguments truthy_other {Other} _ _.
Arguments id_prefix_exotic {Other} _ _.

(* ================================================================== *)
(** * payload-decoders.ts *)
(* ================================================================== *)

(** The payload shapes of [types.ts]. A [quantity]-like field is
    [x?.toString()], so it can be [undefined] ([None]); fields copied from
    the CBOR array keep their decoded value. *)
#[warnings="-register-all"]
Inductive TransactionPayload (Other : Type) : Type :=
| EnhancedSendPayload (asset : string) (quantity : option string)
    (address memo : string)
| SweepPayload (address : string) (flags : jsval Other) (memo : string)
| IssuancePayload (asset : string) (quantity : option string)
    (divisible lock reset mime_type : jsval Other)
    (description : option string)
| IssuanceSubassetPayload (asset : string) (quantity : option string)
    (divisible lock reset compacted_subasset_length : jsval Other)
    (compacted_subasset_longname : string) (mime_type : jsval Other)
    (description : option string)
| BroadcastPayload (timestamp value fee_fraction_int mime_type : jsval Other)
    (text : string)
| FairminterPayload (asset asset_parent : string)
    (price quantity_by_price max_mint_per_tx max_mint_per_address
       hard_cap premint_quantity : option string)
    (start_block end_block : jsval Other) (soft_cap : option string)
    (soft_cap_deadline_block minted_asset_commission_int burn_payment
       lock_description lock_quantity divisible mime_type : jsval Other)
    (description : string)
| FairmintPayload (asset : string) (quantity : option string)
| AttachPayload (asset quantity destination_vout : string)
| DetachPayload (destination : string)
| OrderPayload (give_asset give_quantity get_asset get_quantity : string)
    (expiration : Z) (fee_required : string)
| BtcPayPayload (tx0_hash tx1_hash : string)
| DispenserPayload (asset give_quantity escrow_quantity satoshirate : string)
    (status : Z) (action_address oracle_address : option string)
| DispensePayload (data : string)
| DividendPayload (quantity_per_unit asset dividend_asset : string)
| CancelPayload (offer_hash : string)
| DestroyPayload (asset quantity : string) (tag : option string)
| TaprootCommitPayload (data : string)
| UnknownPayload (raw : string) (error : option string).
Arguments EnhancedSendPayload {Other}.
Arguments SweepPayload {Other}.
Arguments IssuancePayload {Other}.
Arguments IssuanceSubassetPayload {Other}.
Arguments BroadcastPayload {Other}.
Arguments FairminterPayload {Other}.
Arguments FairmintPayload {Other}.
Arguments AttachPayload {Other}.
Arguments DetachPayload {Other}.
Arguments OrderPayload {Other}.
Arguments BtcPayPayload {Other}.
Arguments DispenserPayload {Other}.
Arguments DispensePayload {Other}.
Arguments DividendPayload {Other}.
Arguments CancelPayload {Other}.
Arguments DestroyPayload {Other}.
Arguments TaprootCommitPayload {Other}.
Arguments UnknownPayload {Other}.

Record ParsedTransaction (Other : Type) : Type := {
  message_name : string;
  message_id : Z;
  params : TransactionPayload Other
}.
Arguments message_name {Other} _.
Arguments message_id {Other} _.
Arguments params {Other} _.

(** Comparisons of a possibly [undefined] byte with a number; with
    [undefined] on the left every one of them is false. *)
Definition is_byte (o : option Z) (v : Z) : bool :=
  match o with Some x => x =? v | None => false end.

Definition byte_between (lo : Z) (o : option Z) (hi : Z) : bool :=
  match o with Some x => (lo <=? x) && (x <=? hi) | None => false end.

Section Decoders.

Context {Other : Type}.
Variable E : Externals Other.

Local Abbreviation value := (jsval Other).
Local Abbreviation Payload := (TransactionPayload Other).

(** ** Coercions of decoded values *)

(** [v ? a : b] *)
Definition truthy (v : value) : bool :=
  match v with
  | JUndefined | JNull => false
  | JBool b => b
  | JNum z | JBigInt z => negb (z =? 0)
  | JString s => negb (String.eqb s EmptyString)
  | JBytes _ _ | JArray _ => true
  | JOther o => truthy_other E o
  end.

(** [v || ''] *)
Definition or_empty (v : value) : value :=
  if truthy v then v else JString EmptyString.

(** [v?.toString()] *)
Definition optional_toString (v : value) : result (option string) :=
  match v with
  | JUndefined | JNull => Ok None
  | JBool b => Ok (Some (if b then "true" else "false")%string)
  | JNum z | JBigInt z => Ok (Some (decimal z))
  | JString s => Ok (Some s)
  | JBytes true b => Ok (Some (toString_utf8 b))
  | JBytes false _ | JArray _ | JOther _ =>
      let* s := toString_exotic E v in Ok (Some s)
  end.

Fixpoint all_numbers (l : list value) : option (list Z) :=
  match l with
  | [] => Some []
  | JNum z :: rest => option_map (cons z) (all_numbers rest)
  | _ :: _ => None
  end.

(** [Buffer.isBuffer(v) ? v : Buffer.from(v)] *)
Definition to_buffer (v : value) : result Buffer :=
  match v with
  | JBytes _ b => Ok b
  | JString s => Ok (Buffer_from_utf8 s)
  | JUndefined | JNull | JBool _ | JNum _ | JBigInt _ =>
      Throw (EngineError InvalidArgType)
  | JArray l =>
      match all_numbers l with
      | Some zs => Ok (map to_u8 zs)
      | None => Buffer_from_exotic E v
      end
  | JOther _ => Buffer_from_exotic E v
  end.

(** [Buffer.isBuffer(v) ? v.toString('hex') : Buffer.from(v).toString('hex')] *)
Definition to_hex (v : value) : result string :=
  let* b := to_buffer v in Ok (toString_hex b).

(** [decoded[i]] on an array *)
Definition element (decoded : list value) (i : nat) : value :=
  nth i decoded JUndefined.

(** The argument [assetIdToName] receives from [decoded[0]?.toString()]. *)
Definition asset_arg (assetId : option string) : AssetIdArg :=
  match assetId with
  | Some s => IdString s
  | None => IdUndefined
  end.


(** ** The address codec *)

(** [payment.address || fallback] *)
Definition address_or (address : option string) (fallback : string) : string :=
  match address with
  | Some a => if String.eqb a EmptyString then fallback else a
  | None => fallback
  end.

(** The part of [shortAddressBytesToAddress] inside its [try]. *)
Definition shortAddress_try (shortAddressHex : string) (network : Network)
  : result string :=
  let fallback := ("0x" ++ shortAddressHex)%string in
  let buffer := Buffer_from_hex shortAddressHex in
  if blength buffer <? 2 then
    Throw (ErrorOf ("Invalid short address length: " ++ decimal (blength buffer)))
  else
    let firstByte := byte_at buffer 0 in
    let data := subarray_from buffer 1 in
    if is_byte firstByte 0x01 then
      let* address := p2pkh E data network in Ok (address_or address fallback)
    else if is_byte firstByte 0x02 then
      let* address := p2sh E data network in Ok (address_or address fallback)
    else if is_byte firstByte 0x03 then
      if blength data >=? 2 then
        let witnessVersion := byte_at data 0 in
        let witnessProgram := subarray_from data 1 in
        if is_byte witnessVersion 0 && (blength witnessProgram =? 20) then
          let* address := p2wpkh E witnessProgram network in
          Ok (address_or address fallback)
        else if is_byte witnessVersion 0 && (blength witnessProgram =? 32) then
          let* address := p2wsh E witnessProgram network in
          Ok (address_or address fallback)
        else if is_byte witnessVersion 1 && (blength witnessProgram =? 32) then
          let* address := p2tr E witnessProgram network in
          Ok (address_or address fallback)
        else Ok fallback
      else Ok fallback
    else
      let legacy :=
        if is_byte firstByte (pubKeyHash network) then
          let* address := p2pkh E data network in Ok (address_or address fallback)
        else if is_byte firstByte (scriptHash network) then
          let* address := p2sh E data network in Ok (address_or address fallback)
        else Ok fallback in
      if byte_between 0x80 firstByte 0x8f then
        let witnessVersion := option_map (fun b => b - 0x80) firstByte in
        if is_byte witnessVersion 0 && (blength data =? 20) then
          let* address := p2wpkh E data network in
          Ok (address_or address fallback)
        else if is_byte witnessVersion 0 && (blength data =? 32) then
          let* address := p2wsh E data network in
          Ok (address_or address fallback)
        else if is_byte witnessVersion 1 && (blength data =? 32) then
          let* address := p2tr E data network in
          Ok (address_or address fallback)
        else legacy
      else legacy.

(** [try { ... } catch (error) { return `0x${shortAddressHex}` }] *)
Definition shortAddressBytesToAddress (shortAddressHex : string)
  (network : Network) : string :=
  try_or (shortAddress_try shortAddressHex network)
         ("0x" ++ shortAddressHex)%string.

(** ** Text or hex *)

Definition decodeTextOrHex (buffer : Buffer) (mimeType : value)
  : result string :=
  let* mimeTypeLower :=
    match or_empty mimeType with
    | JString s => Ok (trim (toLowerCase E s))
    | _ => Throw (EngineError NotAFunction)
    end in
  let isTextType :=
    String.eqb mimeTypeLower EmptyString || startsWith mimeTypeLower "text" in
  if isTextType then
    let decoded := toString_utf8 buffer in
    if equals (Buffer_from_utf8 decoded) buffer then Ok decoded
    else Ok (toString_hex buffer)
  else Ok (toString_hex buffer).

(** ** Message framing *)

Definition readMessageTypeId (message : Buffer) : result (Z * Buffer) :=
  if blength message =? 0 then Throw (ErrorOf "Empty message")
  else
    let long_id :=
      if blength message <? 5 then
        Throw (ErrorOf "Message too short for long ID")
      else
        let* id := checked (readUIntBE message 1 4) in
        Ok (id, subarray_from message 5) in
    match byte_at message 0 with
    | Some firstByte =>
        if firstByte >? 0 then Ok (firstByte, subarray_from message 1)
        else long_id
    | None => long_id
    end.


(** ** The CBOR decoders *)

(** [if (!Array.isArray(decoded) || decoded.length < n) throw new Error(msg)] *)
Definition expect_array (decoded : value) (n : nat) (msg : string)
  : result (list value) :=
  match decoded with
  | JArray l => if (List.length l <? n)%nat then Throw (ErrorOf msg) else Ok l
  | _ => Throw (ErrorOf msg)
  end.

(** [v ? hex(v) : ''] *)
Definition optional_hex (v : value) : result string :=
  if truthy v then to_hex v else Ok EmptyString.

Definition decodeEnhancedSend (payload : Buffer) (network : Network)
  : result Payload :=
  let* decoded := cborDecode E payload in
  let* decoded := expect_array decoded 3 "Invalid enhanced send payload" in
  let* assetId := optional_toString (element decoded 0) in
  let* shortAddressBytes := to_hex (element decoded 2) in
  let* asset := assetIdToName (asset_arg assetId) in
  let* quantity := optional_toString (element decoded 1) in
  let address := shortAddressBytesToAddress shortAddressBytes network in
  let* memo := optional_hex (element decoded 3) in
  Ok (EnhancedSendPayload asset quantity address memo).

Definition decodeSweep (payload : Buffer) (network : Network)
  : result Payload :=
  let* decoded := cborDecode E payload in
  let* decoded := expect_array decoded 2 "Invalid sweep payload" in
  let* shortAddressBytes := to_hex (element decoded 0) in
  let address := shortAddressBytesToAddress shortAddressBytes network in
  let* memo := optional_hex (element decoded 2) in
  Ok (SweepPayload address (element decoded 1) memo).

(** [if (v) { description = decodeTextOrHex(buffer of v, mimeType) }] *)
Definition optional_text (v mimeType : value) : result (option string) :=
  if truthy v then
    let* descBuffer := to_buffer v in
    let* text := decodeTextOrHex descBuffer mimeType in
    Ok (Some text)
  else Ok None.

Definition decodeIssuance (payload : Buffer) : result Payload :=
  let* decoded := cborDecode E payload in
  let* decoded := expect_array decoded 5 "Invalid issuance payload" in
  let* assetId := optional_toString (element decoded 0) in
  let mimeType := or_empty (element decoded 5) in
  let* description := optional_text (element decoded 6) mimeType in
  let* asset := assetIdToName (asset_arg assetId) in
  let* quantity := optional_toString (element decoded 1) in
  Ok (IssuancePayload asset quantity (element decoded 2) (element decoded 3)
        (element decoded 4) mimeType description).

Definition decodeIssuanceSubasset (payload : Buffer) : result Payload :=
  let* decoded := cborDecode E payload in
  let* decoded := expect_array decoded 7 "Invalid issuance subasset payload" in
  let* assetId := optional_toString (element decoded 0) in
  let mimeType := or_empty (element decoded 7) in
  let* description := optional_text (element decoded 8) mimeType in
  let* asset := assetIdToName (asset_arg assetId) in
  let* quantity := optional_toString (element decoded 1) in
  let* longname := to_hex (element decoded 6) in
  Ok (IssuanceSubassetPayload asset quantity (element decoded 2)
        (element decoded 3) (element decoded 4) (element decoded 5)
        longname mimeType description).

Definition decodeBroadcast (payload : Buffer) : result Payload :=
  let* decoded := cborDecode E payload in
  let* decoded := expect_array decoded 4 "Invalid broadcast payload" in
  let mimeType := or_empty (element decoded 3) in
  let* text := optional_text (element decoded 4) mimeType in
  Ok (BroadcastPayload (element decoded 0) (element decoded 1)
        (element decoded 2) mimeType
        (match text with Some t => t | None => EmptyString end)).

Definition decodeFairminter (payload : Buffer) : result Payload :=
  let* decoded := cborDecode E payload in
  let* decoded := expect_array decoded 17 "Invalid fairminter payload" in
  let* assetId := optional_toString (element decoded 0) in
  let* assetParentId := optional_toString (element decoded 1) in
  let mimeType := or_empty (element decoded 17) in
  let* description := optional_text (element decoded 18) mimeType in
  let* asset := assetIdToName (asset_arg assetId) in
  let* asset_parent := assetIdToName (asset_arg assetParentId) in
  let* price := optional_toString (element decoded 2) in
  let* quantity_by_price := optional_toString (element decoded 3) in
  let* max_mint_per_tx := optional_toString (element decoded 4) in
  let* max_mint_per_address := optional_toString (element decoded 5) in
  let* hard_cap := optional_toString (element decoded 6) in
  let* premint_quantity := optional_toString (element decoded 7) in
  let* soft_cap := optional_toString (element decoded 10) in
  Ok (FairminterPayload asset asset_parent price quantity_by_price
        max_mint_per_tx max_mint_per_address hard_cap premint_quantity
        (element decoded 8) (element decoded 9) soft_cap
        (element decoded 11) (element decoded 12) (element decoded 13)
        (element decoded 14) (element decoded 15) (element decoded 16)
        mimeType
        (match description with Some t => t | None => EmptyString end)).

Definition decodeFairmint (payload : Buffer) : result Payload :=
  let* decoded := cborDecode E payload in
  let* decoded := expect_array decoded 2 "Invalid fairmint payload" in
  let* assetId := optional_toString (element decoded 0) in
  let* asset := assetIdToName (asset_arg assetId) in
  let* quantity := optional_toString (element decoded 1) in
  Ok (FairmintPayload asset quantity).

(** ** The text decoders *)

(** [parts[i] || ''] *)
Definition part_or_empty (parts : list string) (i : nat) : string :=
  nth i parts EmptyString.

Definition decodeAttach (payload : Buffer) : result Payload :=
  let raw := toString_utf8 payload in
  let parts := split_on "|" raw in
  if (List.length parts <? 2)%nat then Throw (ErrorOf "Invalid attach payload")
  else Ok (AttachPayload (part_or_empty parts 0) (part_or_empty parts 1)
             (part_or_empty parts 2)).

Definition decodeDetach (payload : Buffer) : result Payload :=
  if (blength payload =? 1) && is_byte (byte_at payload 0) 0x30 then
    Ok (DetachPayload "self")
  else Ok (DetachPayload (toString_utf8 payload)).


(** ** The fixed-layout decoders *)

(** [payload.readBigUInt64BE(off).toString()] and
    [payload.readBigInt64BE(off).toString()] *)
Definition u64_string (payload : Buffer) (off : Z) : result string :=
  let* v := checked (readUIntBE payload off 8) in Ok (decimal v).

Definition i64_string (payload : Buffer) (off : Z) : result string :=
  let* v := checked (readBigInt64BE payload off) in Ok (decimal v).

Definition decodeOrder (payload : Buffer) : result Payload :=
  if blength payload <? 34 then Throw (ErrorOf "Invalid order payload")
  else
    let* giveId := u64_string payload 0 in
    let* getId := u64_string payload 16 in
    let* give_asset := assetIdToName (IdString giveId) in
    let* give_quantity := i64_string payload 8 in
    let* get_asset := assetIdToName (IdString getId) in
    let* get_quantity := i64_string payload 24 in
    let* expiration := checked (readUIntBE payload 32 2) in
    let* fee_required :=
      if blength payload >=? 42 then i64_string payload 34 else Ok "0"%string in
    Ok (OrderPayload give_asset give_quantity get_asset get_quantity
          expiration fee_required).

Definition decodeBtcPay (payload : Buffer) : result Payload :=
  if blength payload <? 64 then Throw (ErrorOf "Invalid btc_pay payload")
  else Ok (BtcPayPayload (toString_hex (subarray payload 0 32))
             (toString_hex (subarray payload 32 64))).

Definition decodeDispenser (payload : Buffer) (network : Network)
  : result Payload :=
  if blength payload <? 33 then Throw (ErrorOf "Invalid dispenser payload")
  else
    let* assetId := u64_string payload 0 in
    let* asset := assetIdToName (IdString assetId) in
    let* give_quantity := i64_string payload 8 in
    let* escrow_quantity := i64_string payload 16 in
    let* satoshirate := i64_string payload 24 in
    let* status := checked (readUIntBE payload 32 1) in
    let action_address :=
      if blength payload >=? 54 then
        Some (shortAddressBytesToAddress
                (toString_hex (subarray payload 33 54)) network)
      else None in
    let oracle_address :=
      if blength payload >=? 75 then
        Some (shortAddressBytesToAddress
                (toString_hex (subarray payload 54 75)) network)
      else None in
    Ok (DispenserPayload asset give_quantity escrow_quantity satoshirate
          status action_address oracle_address).

Definition decodeDispense (payload : Buffer) : result Payload :=
  if negb (blength payload =? 1) || negb (is_byte (byte_at payload 0) 0x00) then
    Throw (ErrorOf "Invalid dispense payload: expected 0x00")
  else Ok (DispensePayload "0x00").

Definition decodeDividend (payload : Buffer) : result Payload :=
  if blength payload <? 16 then Throw (ErrorOf "Invalid dividend payload")
  else
    let* assetId := u64_string payload 8 in
    let* quantity_per_unit := i64_string payload 0 in
    let* asset := assetIdToName (IdString assetId) in
    let* dividend_asset :=
      if blength payload >=? 24 then
        let* dividendAssetId := u64_string payload 16 in
        assetIdToName (IdString dividendAssetId)
      else Ok "XCP"%string in
    Ok (DividendPayload quantity_per_unit asset dividend_asset).

Definition decodeCancel (payload : Buffer) : result Payload :=
  if blength payload <? 32 then Throw (ErrorOf "Invalid cancel payload")
  else Ok (CancelPayload (toString_hex (subarray payload 0 32))).

Definition decodeDestroy (payload : Buffer) : result Payload :=
  if blength payload <? 16 then Throw (ErrorOf "Invalid destroy payload")
  else
    let* assetId := u64_string payload 0 in
    let* asset := assetIdToName (IdString assetId) in
    let* quantity := i64_string payload 8 in
    let tag :=
      if blength payload >? 16 then
        let tagBytes := subarray payload 16 (Z.min (blength payload) 50) in
        Some (toString_hex tagBytes)
      else None in
    Ok (DestroyPayload asset quantity tag).

(** ** Dispatch *)

(** The [switch] of [decodePayload], inside its [try]. *)
Definition decodePayload_try (messageId : Z) (payload : Buffer)
  (network : Network) : result Payload :=
  match messageId with
  | 2 => decodeEnhancedSend payload network
  | 4 => decodeSweep payload network
  | 10 => decodeOrder payload
  | 11 => decodeBtcPay payload
  | 12 => decodeDispenser payload network
  | 13 => decodeDispense payload
  | 20 | 22 => decodeIssuance payload
  | 21 | 23 => decodeIssuanceSubasset payload
  | 30 => decodeBroadcast payload
  | 50 => decodeDividend payload
  | 70 => decodeCancel payload
  | 90 => decodeFairminter payload
  | 91 => decodeFairmint payload
  | 101 => decodeAttach payload
  | 102 => decodeDetach payload
  | 110 => decodeDestroy payload
  | _ => Ok (UnknownPayload (toString_hex payload) None)
  end.

(** [error instanceof Error ? error.message : 'Unknown error'] *)
Definition error_text (e : thrown) : string :=
  match e with
  | ErrorOf message => message
  | EngineError f => engine_message E f
  | NonError => "Unknown error"
  end.

Definition decodePayload (messageId : Z) (payload : Buffer)
  (network : Network) : Payload :=
  match decodePayload_try messageId payload network with
  | Ok p => p
  | Throw e => UnknownPayload (toString_hex payload) (Some (error_text e))
  end.


(* ------------------------------------------------------------------ *)
(** * op-return-parser.ts: the OP_RETURN carrier *)
(* ------------------------------------------------------------------ *)

Definition taproot_commit : ParsedTransaction Other :=
  {| message_name := "taproot_commit";
     message_id := 0;
     params := TaprootCommitPayload "CNTRPRTY" |}.

(** Where the data starts, from the push opcode after OP_RETURN. *)
Definition dataStart_of (scriptBuffer : Buffer) : Z :=
  if blength scriptBuffer >? 1 then
    match byte_at scriptBuffer 1 with
    | Some pushOpcode =>
        if pushOpcode <? 76 then 2
        else if pushOpcode =? 0x4c then 3
        else if pushOpcode =? 0x4d then 4
        else if pushOpcode =? 0x4e then 6
        else 1
    | None => 1
    end
  else 1.

(** Framing and decoding of an extracted message, shared by both parsers. *)
Definition parse_message (message : Buffer) (network : Network)
  : result (option (ParsedTransaction Other)) :=
  let* (messageId, payload) := readMessageTypeId message in
  let messageName := message_name_of messageId in
  let params := decodePayload messageId payload network in
  Ok (Some {| message_name := messageName;
              message_id := messageId;
              params := params |}).

(** The body of [parse_op_return] inside its [try]. *)
Definition parse_op_return_try (scriptBuffer : Buffer)
  (firstInputTxid : string) (network : Network)
  : result (option (ParsedTransaction Other)) :=
  if (blength scriptBuffer =? 0) || negb (is_byte (byte_at scriptBuffer 0) 0x6a)
  then Ok None
  else
    let dataStart := dataStart_of scriptBuffer in
    let opReturnData := subarray_from scriptBuffer dataStart in
    let key := Buffer_from_hex firstInputTxid in
    if equals opReturnData PREFIX_BYTES then Ok (Some taproot_commit)
    else
      let decrypted := RC4.rc4Decrypt key opReturnData in
      if negb (equals (subarray decrypted 0 8) PREFIX_BYTES) then Ok None
      else
        let message := subarray_from decrypted 8 in
        if blength message =? 0 then Ok None
        else parse_message message network.

(** [None] is the [null] result. *)
Definition parse_op_return (scriptBuffer : Buffer) (firstInputTxid : string)
  (network : Network) : option (ParsedTransaction Other) :=
  try_or (parse_op_return_try scriptBuffer firstInputTxid network) None.

(* ------------------------------------------------------------------ *)
(** * reveal-parser.ts: the Taproot envelope carrier *)
(* ------------------------------------------------------------------ *)

(** The loop over [tx.ins]. *)
Fixpoint find_envelope_script (inputs : list TxInput) : option Buffer :=
  match inputs with
  | [] => None
  | input :: rest =>
      let n := List.length (witness input) in
      if (n <? 2)%nat then find_envelope_script rest
      else
        let script := nth (n - 2) (witness input) [] in
        if (blength script >? 2) && is_byte (byte_at script 0) 0x00
           && is_byte (byte_at script 1) 0x63
        then Some script
        else find_envelope_script rest
  end.

Definition extractWitnessScript (txBuffer : Buffer) : option Buffer :=
  try_or
    (let* tx := Transaction_fromBuffer E txBuffer in
     if negb (hasWitnesses tx) then Ok None
     else Ok (find_envelope_script (ins tx)))
    None.

(** The [while (offset < script.length)] loop of [extractGenericEnvelope].
    Every round moves [offset] forward, so [fuel = script.length] rounds are
    never exhausted. A PUSHDATA1 opcode in the last position reads an
    [undefined] length: the chunk is empty, [offset] becomes [NaN] and the
    loop ends. *)
Fixpoint generic_loop (fuel : nat) (script : Buffer) (offset : Z)
  (chunks : list Buffer) : result (list Buffer) :=
  match fuel with
  | O => Ok chunks
  | S fuel' =>
      if offset <? blength script then
        let byte := byte_at script offset in
        if is_byte byte 0x68 then Ok chunks
        else if byte_between 1 byte 75 then
          let chunkLen := match byte with Some b => b | None => 0 end in
          let offset := offset + 1 in
          let chunk := subarray script offset (offset + chunkLen) in
          generic_loop fuel' script (offset + chunkLen) (chunks ++ [chunk])
        else if is_byte byte 0x4c then
          match byte_at script (offset + 1) with
          | Some chunkLen =>
              let offset := offset + 2 in
              let chunk := subarray script offset (offset + chunkLen) in
              generic_loop fuel' script (offset + chunkLen) (chunks ++ [chunk])
          | None => Ok (chunks ++ [[]])
          end
        else if is_byte byte 0x4d then
          let* chunkLen := checked (readUIntLE script (offset + 1) 2) in
          let offset := offset + 3 in
          let chunk := subarray script offset (offset + chunkLen) in
          generic_loop fuel' script (offset + chunkLen) (chunks ++ [chunk])
        else if is_byte byte 0x4e then
          let* chunkLen := checked (readUIntLE script (offset + 1) 4) in
          let offset := offset + 5 in
          let chunk := subarray script offset (offset + chunkLen) in
          generic_loop fuel' script (offset + chunkLen) (chunks ++ [chunk])
        else generic_loop fuel' script (offset + 1) chunks
      else Ok chunks
  end.

Definition extractGenericEnvelope (script : Buffer) (startOffset : Z)
  : option Buffer :=
  match generic_loop (List.length script) script startOffset [] with
  | Ok chunks => Some (List.concat chunks)
  | Throw _ => None
  end.


(** The loop of [extractOrdXcpEnvelope]: it also stops at a bare OP_0, and
    knows the direct push and PUSHDATA1 only. *)
Fixpoint ordxcp_loop (fuel : nat) (script : Buffer) (offset : Z)
  (cborChunks : list Buffer) : list Buffer :=
  match fuel with
  | O => cborChunks
  | S fuel' =>
      if offset <? blength script then
        let byte := byte_at script offset in
        if is_byte byte 0x68 then cborChunks
        else if is_byte byte 0x00 then cborChunks
        else if byte_between 1 byte 75 then
          let chunkLen := match byte with Some b => b | None => 0 end in
          let offset := offset + 1 in
          let chunk := subarray script offset (offset + chunkLen) in
          ordxcp_loop fuel' script (offset + chunkLen) (cborChunks ++ [chunk])
        else if is_byte byte 0x4c then
          match byte_at script (offset + 1) with
          | Some chunkLen =>
              let offset := offset + 2 in
              let chunk := subarray script offset (offset + chunkLen) in
              ordxcp_loop fuel' script (offset + chunkLen) (cborChunks ++ [chunk])
          | None => cborChunks ++ [[]]
          end
        else ordxcp_loop fuel' script (offset + 1) cborChunks
      else cborChunks
  end.

(** [longIdBuffer.writeUInt32BE(v, 1)] on the four bytes it fills. *)
Definition uint32be (v : Z) : Buffer :=
  [to_u8 (v / 2 ^ 24); to_u8 (v / 2 ^ 16); to_u8 (v / 2 ^ 8); to_u8 v].

(** The type-id prefix: one byte when [0 < id < 256], otherwise a zero byte
    and the id on four big-endian bytes, which [writeUInt32BE] refuses
    outside the unsigned 32-bit range. *)
Definition messageTypeIdByte_of (messageTypeId : value) : result Buffer :=
  match messageTypeId with
  | JNum id =>
      if (id >? 0) && (id <? 256) then Ok [to_u8 id]
      else if (id <? 0) || (id >? 0xFFFFFFFF) then
        Throw (EngineError OutOfRange)
      else Ok (x00 :: uint32be id)
  | _ => id_prefix_exotic E messageTypeId
  end.

(** From the concatenated CBOR chunks to the re-framed message. *)
Definition reframe (cborData mimeType : Buffer) : result (option Buffer) :=
  let* decoded := cborDecode E cborData in
  match decoded with
  | JArray (messageTypeId :: rest) =>
      let modifiedArray := rest ++ [JString (toString_utf8 mimeType)] in
      let* reencoded := cborEncode E (JArray modifiedArray) in
      let* messageTypeIdByte := messageTypeIdByte_of messageTypeId in
      Ok (Some (messageTypeIdByte ++ reencoded))
  | _ => Ok None
  end.

(** When the script ends before the MIME length byte, that length is
    [undefined]: the MIME type is empty, [offset] becomes [NaN] and no chunk
    is collected. *)
Definition extractOrdXcpEnvelope (script : Buffer) (startOffset : Z)
  : option Buffer :=
  try_or
    (let offset := startOffset in
     let offset :=
       if is_byte (byte_at script offset) 0x01 then offset + 1 else offset in
     match byte_at script offset with
     | Some mimeTypeLen =>
         let offset := offset + 1 in
         let mimeType := subarray script offset (offset + mimeTypeLen) in
         let offset := offset + mimeTypeLen in
         let offset :=
           if is_byte (byte_at script offset) 0x05 then offset + 1 else offset in
         let cborChunks := ordxcp_loop (List.length script) script offset [] in
         reframe (List.concat cborChunks) mimeType
     | None => reframe [] []
     end)
    None.

Definition extractFromEnvelope (script : Buffer) : option Buffer :=
  if (blength script <? 4) || negb (is_byte (byte_at script 0) 0x00)
     || negb (is_byte (byte_at script 1) 0x63)
  then None
  else
    let generic := extractGenericEnvelope script 2 in
    let offset := 2 in
    if offset + 3 <=? blength script then
      let possibleOrd := subarray script offset (offset + 3) in
      if String.eqb (toString_utf8 possibleOrd) "ord" then
        let offset := offset + 3 in
        let offset :=
          if is_byte (byte_at script offset) 0x07 then offset + 1 else offset in
        if offset + 3 <=? blength script then
          let possibleXcp := subarray script offset (offset + 3) in
          if String.eqb (toString_utf8 possibleXcp) "xcp" then
            extractOrdXcpEnvelope script (offset + 3)
          else generic
        else generic
      else generic
    else generic.

Definition parse_reveal_tx (revealTxHex : string) (network : Network)
  : option (ParsedTransaction Other) :=
  try_or
    (let txBuffer := Buffer_from_hex revealTxHex in
     match extractWitnessScript txBuffer with
     | None => Ok None
     | Some witnessScript =>
         match extractFromEnvelope witnessScript with
         | None => Ok None
         | Some message =>
             if blength message =? 0 then Ok None
             else parse_message message network
         end
     end)
    None.

End Decoders.


(* ================================================================== *)
(** * A reference environment *)
(* ================================================================== *)

(** Executable stand-ins for the collaborators, used to run the parsers on
    concrete transactions: a CBOR codec for the definite-length items the
    protocol uses (RFC 8949 integers, byte and text strings, arrays, false,
    true, null, undefined), with the conventions of [cbor-x] (an integer on
    eight bytes is a bigint, byte strings are Buffers); the BIP 144
    transaction layout as [Transaction.fromBuffer] reads it; Base58Check
    and Bech32 address encoders.  There are no [JOther] values here.  The
    message texts of the codec's failures are this module's own. *)
Module Reference.

Definition value : Type := jsval Empty_set.

(** ** Reading bytes *)

Definition reader (A : Type) : Type := Buffer -> option (A * Buffer).

Definition readSlice (n : Z) : reader Buffer :=
  fun src =>
    if (n <? 0) || (blength src <? n) then None
    else Some (firstn (Z.to_nat n) src, skipn (Z.to_nat n) src).

Definition readBE (n : Z) : reader Z :=
  fun src =>
    match readSlice n src with
    | Some (bs, rest) => Some (be_value bs, rest)
    | None => None
    end.

Definition readLE (n : Z) : reader Z :=
  fun src =>
    match readSlice n src with
    | Some (bs, rest) => Some (be_value (rev bs), rest)
    | None => None
    end.

(** [count] items, each taking at least one byte. *)
Fixpoint readMany {A} (item : reader A) (count : nat) : reader (list A) :=
  fun src =>
    match count with
    | O => Some ([], src)
    | S count' =>
        match item src with
        | Some (a, rest) =>
            match readMany item count' rest with
            | Some (l, rest') => Some (a :: l, rest')
            | None => None
            end
        | None => None
        end
    end.

Definition readCounted {A} (item : reader A) (count : Z) : reader (list A) :=
  fun src =>
    if blength src <? count then None else readMany item (Z.to_nat count) src.

(** ** CBOR *)

(** The argument of an item head, and whether it took eight bytes. *)
Definition read_argument (info : Z) : reader (Z * bool) :=
  fun src =>
    if info <? 24 then Some ((info, false), src)
    else
      let width := if info =? 24 then 1 else if info =? 25 then 2
                   else if info =? 26 then 4 else if info =? 27 then 8
                   else -1 in
      match readBE width src with
      | Some (v, rest) => Some ((v, info =? 27), rest)
      | None => None
      end.

Definition integer (wide : bool) (z : Z) : value :=
  if wide then JBigInt z else JNum z.

Fixpoint read_item (fuel : nat) : reader value :=
  fun src =>
    match fuel, src with
    | S fuel', head :: rest =>
        let major := u8 head / 32 in
        let info := u8 head mod 32 in
        if major =? 7 then
          if info =? 20 then Some (JBool false, rest)
          else if info =? 21 then Some (JBool true, rest)
          else if info =? 22 then Some (JNull, rest)
          else if info =? 23 then Some (JUndefined, rest)
          else None
        else
          match read_argument info rest with
          | Some ((n, wide), rest) =>
              if major =? 0 then Some (integer wide n, rest)
              else if major =? 1 then Some (integer wide (-1 - n), rest)
              else if major =? 2 then
                match readSlice n rest with
                | Some (bs, rest') => Some (JBytes true bs, rest')
                | None => None
                end
              else if major =? 3 then
                match readSlice n rest with
                | Some (bs, rest') => Some (JString (toString_utf8 bs), rest')
                | None => None
                end
              else if major =? 4 then
                match readCounted (read_item fuel') n rest with
                | Some (items, rest') => Some (JArray items, rest')
                | None => None
                end
              else None
          | None => None
          end
    | _, _ => None
    end.

Definition cborDecode (src : Buffer) : result value :=
  match read_item (S (List.length src)) src with
  | Some (v, []) => Ok v
  | Some (_, _ :: _) => Throw (ErrorOf "Data read, but end of buffer not reached")
  | None => Throw (ErrorOf "Unexpected end of CBOR data")
  end.

Definition head (major n : Z) : Buffer :=
  if n <? 24 then [to_u8 (major * 32 + n)]
  else if n <? 2 ^ 8 then to_u8 (major * 32 + 24) :: be_bytes 1 n
  else if n <? 2 ^ 16 then to_u8 (major * 32 + 25) :: be_bytes 2 n
  else if n <? 2 ^ 32 then to_u8 (major * 32 + 26) :: be_bytes 4 n
  else to_u8 (major * 32 + 27) :: be_bytes 8 n.

Fixpoint encode_item (v : value) : option Buffer :=
  match v with
  | JUndefined => Some [xf7]
  | JNull => Some [xf6]
  | JBool b => Some [if b then xf5 else xf4]
  | JNum z =>
      if (0 <=? z) && (z <? 2 ^ 32) then Some (head 0 z)
      else if (- 2 ^ 32 <=? z) && (z <? 0) then Some (head 1 (-1 - z))
      else None
  | JBigInt z =>
      if (0 <=? z) && (z <? 2 ^ 64) then Some (x1b :: be_bytes 8 z)
      else if (- 2 ^ 64 <? z) && (z <? 0) then Some (x3b :: be_bytes 8 (-1 - z))
      else None
  | JString s =>
      let bs := Buffer_from_utf8 s in Some (head 3 (blength bs) ++ bs)
  | JBytes _ bs => Some (head 2 (blength bs) ++ bs)
  | JArray items =>
      let fix encode_items (l : list value) : option Buffer :=
        match l with
        | [] => Some []
        | x :: l' =>
            match encode_item x, encode_items l' with
            | Some a, Some b => Some (a ++ b)
            | _, _ => None
            end
        end in
      match encode_items items with
      | Some body => Some (head 4 (Z.of_nat (List.length items)) ++ body)
      | None => None
      end
  | JOther o => match o with end
  end.

Definition cborEncode (v : value) : result Buffer :=
  match encode_item v with
  | Some bs => Ok bs
  | None => Throw (ErrorOf "Value outside the reference codec")
  end.

(** ** Transactions *)

Definition readVarInt : reader Z :=
  fun src =>
    match readLE 1 src with
    | Some (first, rest) =>
        if first <? 0xfd then Some (first, rest)
        else if first =? 0xfd then readLE 2 rest
        else if first =? 0xfe then readLE 4 rest
        else readLE 8 rest
    | None => None
    end.

Definition readVarSlice : reader Buffer :=
  fun src =>
    match readVarInt src with
    | Some (n, rest) => readSlice n rest
    | None => None
    end.

(** hash, index, script, sequence: only the length matters here. *)
Definition readInput : reader unit :=
  fun src =>
    match readSlice 36 src with
    | Some (_, rest) =>
        match readVarSlice rest with
        | Some (_, rest) =>
            match readSlice 4 rest with
            | Some (_, rest) => Some (tt, rest)
            | None => None
            end
        | None => None
        end
    | None => None
    end.

Definition readOutput : reader unit :=
  fun src =>
    match readSlice 8 src with
    | Some (_, rest) =>
        match readVarSlice rest with
        | Some (_, rest) => Some (tt, rest)
        | None => None
        end
    | None => None
    end.

Definition readVector : reader (list Buffer) :=
  fun src =>
    match readVarInt src with
    | Some (n, rest) => readCounted readVarSlice n rest
    | None => None
    end.

(** The transaction and whether it carried the witness marker. *)
Definition readTransaction : reader (Transaction * bool) :=
  fun src =>
    match readSlice 4 src with
    | Some (_, rest) =>
        let '(flagged, rest) :=
          match rest with
          | marker :: flag :: rest' =>
              if (u8 marker =? 0) && (u8 flag =? 1) then (true, rest')
              else (false, rest)
          | _ => (false, rest)
          end in
        match readVarInt rest with
        | Some (vinLen, rest) =>
            match readCounted readInput vinLen rest with
            | Some (inputs, rest) =>
                match readVarInt rest with
                | Some (voutLen, rest) =>
                    match readCounted readOutput voutLen rest with
                    | Some (_, rest) =>
                        let witnesses :=
                          if flagged then
                            readMany readVector (List.length inputs) rest
                          else Some (map (fun _ => []) inputs, rest) in
                        match witnesses with
                        | Some (stacks, rest) =>
                            match readSlice 4 rest with
                            | Some (_, rest) =>
                                Some (({| ins := map (fun w => {| witness := w |})
                                                     stacks |}, flagged), rest)
                            | None => None
                            end
                        | None => None
                        end
                    | None => None
                    end
                | None => None
                end
            | None => None
            end
        | None => None
        end
    | None => None
    end.

Definition Transaction_fromBuffer (src : Buffer) : result Transaction :=
  match readTransaction src with
  | Some ((tx, flagged), []) =>
      if flagged && negb (hasWitnesses tx) then
        Throw (ErrorOf "Transaction has superfluous witness data")
      else Ok tx
  | Some (_, _ :: _) => Throw (ErrorOf "Transaction has unexpected data")
  | None => Throw (EngineError OutOfRange)
  end.

Definition varint (n : Z) : Buffer :=
  if n <? 0xfd then [to_u8 n]
  else if n <? 2 ^ 16 then xfd :: le_bytes 2 n
  else if n <? 2 ^ 32 then xfe :: le_bytes 4 n
  else xff :: le_bytes 8 n.

Definition varslice (bs : Buffer) : Buffer := varint (blength bs) ++ bs.

(** The raw reveal transaction around a witness script: one input with the
    witness stack [signature; script; control block], one output. *)
Definition reveal_tx (witnessScript : Buffer) : Buffer :=
  le_bytes 4 1 ++ [x00; x01]
  ++ varint 1 ++ repeat x00 32 ++ le_bytes 4 0 ++ varslice [] ++ le_bytes 4 0xffffffff
  ++ varint 1 ++ le_bytes 8 1000 ++ varslice ([x00; x14] ++ repeat x00 20)
  ++ varint 3 ++ varslice (repeat x00 64) ++ varslice witnessScript
     ++ varslice (repeat x00 33)
  ++ le_bytes 4 0.

(** ** SHA-256 (FIPS 180-4), for the Base58Check checksum *)

Definition w32 (z : Z) : Z := z mod 2 ^ 32.

Definition rotr (n x : Z) : Z :=
  Z.lor (Z.shiftr x n) (w32 (Z.shiftl x (32 - n))).

Definition is_prime (n : nat) : bool :=
  forallb (fun d => negb (Nat.eqb (n mod d) 0)) (seq 2 (n - 2)).

Definition primes64 : list Z :=
  map Z.of_nat (firstn 64 (filter is_prime (seq 2 320))).

(** The largest [r] below [2 ^ bits] with [r ^ 3 <= n], bit by bit. *)
Fixpoint cube_root (bits : nat) (n r : Z) : Z :=
  match bits with
  | O => r
  | S bits' =>
      let r' := r + 2 ^ Z.of_nat bits' in
      cube_root bits' n (if r' * r' * r' <=? n then r' else r)
  end.

(** The fractional bits of the square and cube roots of the primes. *)
Definition initial_hash : list Z :=
  Eval vm_compute in
    map (fun p => w32 (Z.sqrt (p * 2 ^ 64))) (firstn 8 primes64).

Definition round_constants : list Z :=
  Eval vm_compute in
    map (fun p => w32 (cube_root 40 (p * 2 ^ 96) 0)) primes64.

Definition pad (msg : Buffer) : Buffer :=
  let len := blength msg in
  let zeros := Z.to_nat ((55 - len) mod 64) in
  msg ++ [x80] ++ repeat x00 zeros ++ be_bytes 8 (8 * len).

Fixpoint words (bs : Buffer) : list Z :=
  match bs with
  | a :: b :: c :: d :: rest => be_value [a; b; c; d] :: words rest
  | _ => []
  end.

Fixpoint blocks (fuel : nat) (ws : list Z) : list (list Z) :=
  match fuel, ws with
  | S fuel', _ :: _ => firstn 16 ws :: blocks fuel' (skipn 16 ws)
  | _, _ => []
  end.

Definition word_at (ws : list Z) (i : nat) : Z := nth i ws 0.

(** The message schedule, latest word first. *)
Fixpoint schedule (count : nat) (rev_w : list Z) : list Z :=
  match count with
  | O => rev_w
  | S count' =>
      let w2 := word_at rev_w 1 in
      let w7 := word_at rev_w 6 in
      let w15 := word_at rev_w 14 in
      let w16 := word_at rev_w 15 in
      let s0 := Z.lxor (Z.lxor (rotr 7 w15) (rotr 18 w15)) (Z.shiftr w15 3) in
      let s1 := Z.lxor (Z.lxor (rotr 17 w2) (rotr 19 w2)) (Z.shiftr w2 10) in
      schedule count' (w32 (s1 + w7 + s0 + w16) :: rev_w)
  end.

Definition sha_round (st : list Z) (kw : Z * Z) : list Z :=
  match st with
  | [a; b; c; d; e; f; g; h] =>
      let S1 := Z.lxor (Z.lxor (rotr 6 e) (rotr 11 e)) (rotr 25 e) in
      let ch := Z.lxor (Z.land e f) (Z.land (w32 (Z.lnot e)) g) in
      let t1 := h + S1 + ch + fst kw + snd kw in
      let S0 := Z.lxor (Z.lxor (rotr 2 a) (rotr 13 a)) (rotr 22 a) in
      let maj := Z.lxor (Z.lxor (Z.land a b) (Z.land a c)) (Z.land b c) in
      [w32 (t1 + S0 + maj); a; b; c; w32 (d + t1); e; f; g]
  | _ => st
  end.

Definition compress (st : list Z) (block : list Z) : list Z :=
  let w := rev (schedule 48 (rev block)) in
  let st' := fold_left sha_round (combine round_constants w) st in
  map (fun p => w32 (fst p + snd p)) (combine st st').

Definition sha256 (msg : Buffer) : Buffer :=
  let ws := words (pad msg) in
  let st := fold_left compress (blocks (List.length ws) ws) initial_hash in
  flat_map (be_bytes 4) st.

(** ** Base58Check *)

Definition base58_alphabet : string :=
  "123456789ABCDEFGHJKLMNPQRSTUVWXYZabcdefghijkmnopqrstuvwxyz".

Definition char_of (alphabet : string) (i : Z) : ascii :=
  match String.get (Z.to_nat i) alphabet with
  | Some c => c
  | None => "?"%char
  end.

Fixpoint base58_digits (fuel : nat) (n : Z) (acc : string) : string :=
  match fuel with
  | O => acc
  | S fuel' =>
      if n =? 0 then acc
      else base58_digits fuel' (n / 58)
             (String (char_of base58_alphabet (n mod 58)) acc)
  end.

Fixpoint leading_ones (bs : Buffer) : string :=
  match bs with
  | b :: rest =>
      if u8 b =? 0 then String "1" (leading_ones rest) else EmptyString
  | [] => EmptyString
  end.

Definition base58 (bs : Buffer) : string :=
  (leading_ones bs
   ++ base58_digits (2 * List.length bs) (be_value bs) EmptyString)%string.

Definition base58check (payload : Buffer) : string :=
  base58 (payload ++ firstn 4 (sha256 (sha256 payload))).

(** ** Bech32 (BIP 173) *)

Definition bech32_charset : string := "qpzry9x8gf2tvdw0s3jn54khce6mua7l".

Definition bech32_generators : list Z :=
  [0x3b6a57b2; 0x26508e6d; 0x1ea119fa; 0x3d4233dd; 0x2a1462b3].

Definition polymod_step (chk v : Z) : Z :=
  let top := Z.shiftr chk 25 in
  let chk := Z.lxor (Z.shiftl (Z.land chk 0x1ffffff) 5) v in
  fold_left
    (fun c ig => if Z.testbit top (fst ig) then Z.lxor c (snd ig) else c)
    (combine [0; 1; 2; 3; 4] bech32_generators) chk.

Definition polymod (values : list Z) : Z := fold_left polymod_step values 1.

Definition hrp_expand (hrp : string) : list Z :=
  let cs := map u8 (list_byte_of_string hrp) in
  map (fun c => Z.shiftr c 5) cs ++ [0] ++ map (fun c => Z.land c 31) cs.

(** Regrouping eight-bit bytes into five-bit words, with padding. *)
Fixpoint to_words (bs : Buffer) (acc bits : Z) : list Z :=
  match bs with
  | [] => if bits >? 0 then [Z.land (Z.shiftl acc (5 - bits)) 31] else []
  | b :: rest =>
      let acc := Z.lor (Z.shiftl acc 8) (u8 b) in
      let bits := bits + 8 in
      if bits >=? 10 then
        Z.land (Z.shiftr acc (bits - 5)) 31
        :: Z.land (Z.shiftr acc (bits - 10)) 31
        :: to_words rest (Z.land acc (2 ^ (bits - 10) - 1)) (bits - 10)
      else
        Z.land (Z.shiftr acc (bits - 5)) 31
        :: to_words rest (Z.land acc (2 ^ (bits - 5) - 1)) (bits - 5)
  end.

Definition bech32_encode (hrp : string) (data : list Z) : string :=
  let values := hrp_expand hrp ++ data ++ [0; 0; 0; 0; 0; 0] in
  let check := Z.lxor (polymod values) 1 in
  let checksum :=
    map (fun i => Z.land (Z.shiftr check (5 * (5 - i))) 31) [0; 1; 2; 3; 4; 5] in
  (hrp ++ "1"
   ++ string_of_list_ascii (map (char_of bech32_charset) (data ++ checksum)))%string.

(** ** The address encoders of bitcoinjs-lib *)

(** An encoder checks the length of its hash (a [TypeError] of the type
    checker) and writes the version into one byte. *)
Definition versioned (version : Z) (hash : Buffer) (len : Z)
  : result (option string) :=
  if negb (blength hash =? len) then Throw (EngineError InvalidArgType)
  else if negb (in_range 0 version 255) then Throw (EngineError OutOfRange)
  else Ok (Some (base58check (to_u8 version :: hash))).

Definition p2pkh (hash : Buffer) (network : Network) : result (option string) :=
  versioned (pubKeyHash network) hash 20.

Definition p2sh (hash : Buffer) (network : Network) : result (option string) :=
  versioned (scriptHash network) hash 20.

Definition segwit_v0 (hash : Buffer) (network : Network) (len : Z)
  : result (option string) :=
  if negb (blength hash =? len) then Throw (EngineError InvalidArgType)
  else Ok (Some (bech32_encode (bech32 network) (0 :: to_words hash 0 0))).

Definition p2wpkh (hash : Buffer) (network : Network) : result (option string) :=
  segwit_v0 hash network 20.

Definition p2wsh (hash : Buffer) (network : Network) : result (option string) :=
  segwit_v0 hash network 32.

(** Taproot addresses need the elliptic-curve library, which the parser
    never installs. *)
Definition p2tr (pubkey : Buffer) (network : Network) : result (option string) :=
  Throw (ErrorOf "No ECC Library provided. You must call initEccLib() with a valid TinySecp256k1Interface instance").

(** ** The engine *)

Definition lower (c : ascii) : ascii :=
  let n := nat_of_ascii c in
  if (Nat.leb 65 n && Nat.leb n 90)%bool then ascii_of_nat (n + 32) else c.

(** [toLowerCase] on ASCII letters; other code points are left alone. *)
Fixpoint toLowerCase (s : string) : string :=
  match s with
  | EmptyString => EmptyString
  | String c rest => String (lower c) (toLowerCase rest)
  end.

(** The wording of V8 and Node, without value-specific suffixes. *)
Definition engine_message (f : fault) : string :=
  match f with
  | BigIntSyntaxError s => ("Cannot convert " ++ s ++ " to a BigInt")%string
  | ReadOfUndefined => "Cannot read properties of undefined (reading 'toString')"
  | NotAFunction => "(intermediate value).toLowerCase is not a function"
  | InvalidArgType => "The first argument must be of type string or an instance of Buffer, ArrayBuffer, or Array or an Array-like Object."
  | OutOfRange => "Attempt to access memory outside buffer bounds"
  end.

(** Coercions the reference environment does not carry out. *)
Definition unsupported {A} : result A :=
  Throw (ErrorOf "Coercion outside the reference environment").

Definition env : Externals Empty_set :=
  Build_Externals Empty_set
    cborDecode cborEncode Transaction_fromBuffer
    p2pkh p2sh p2wpkh p2wsh p2tr
    toLowerCase engine_message
    (fun _ => unsupported) (fun _ => unsupported)
    (fun o => match o with end) (fun _ => unsupported).

(** Bitcoin mainnet and testnet, as [btc.networks] has them. *)
Definition bitcoin : Network :=
  {| pubKeyHash := 0x00; scriptHash := 0x05; bech32 := "bc" |}.

Definition testnet : Network :=
  {| pubKeyHash := 0x6f; scriptHash := 0xc4; bech32 := "tb" |}.

(** ** A sample message

    The CBOR array [2, 1n, 100, address] of an enhanced send carried in an
    ord/xcp envelope: the type id, then the fields. *)
Definition sample_fields : list value :=
  [JBigInt 1; JNum 100; JBytes true (x01 :: repeat xaa 20)].

Definition sample_metadata : Buffer :=
  Buffer_from_hex
    "84021b000000000000000118645501aaaaaaaaaaaaaaaaaaaaaaaaaaaaaaaaaaaaaaaa".

Definition sample_mime : Buffer := Buffer_from_utf8 "application/cbor".

(** The fields with the MIME type appended, encoded again. *)
Definition sample_reencoded : Buffer :=
  Buffer_from_hex
    "841b000000000000000118645501aaaaaaaaaaaaaaaaaaaaaaaaaaaaaaaaaaaaaaaa706170706c69636174696f6e2f63626f72".

(** ** Fixtures of the repository's test suite *)

(** [createOpReturn] of op-return-parser.test.ts: the prefix, a one-byte id
    and the payload, enciphered under the txid and pushed after OP_RETURN. *)
Definition createOpReturn (messageId : Z) (payload : Buffer) (txid : string)
  : Buffer :=
  let encrypted :=
    RC4.rc4Decrypt (Buffer_from_hex txid)
                   (PREFIX_BYTES ++ to_u8 messageId :: payload) in
  x6a :: to_u8 (blength encrypted) :: encrypted.

Definition test_txid : string :=
  "aaaaaaaaaaaaaaaaaaaaaaaaaaaaaaaaaaaaaaaaaaaaaaaaaaaaaaaaaaaaaaaa".

Definition test_hash : Buffer :=
  Buffer_from_hex "89abcdefabbaabbaabbaabbaabbaabbaabbaabba".

End Reference.

(* ================================================================== *)
(** * Vocabulary of the specification *)
(* ================================================================== *)

(** The value of a name read as a bijective base-26 numeral, A = 1 up to
    Z = 26, most significant letter first. *)
Fixpoint b26_value (name : string) : Z :=
  match name with
  | EmptyString => 0
  | String c rest =>
      (Z.of_nat (nat_of_ascii c) - 64) * 26 ^ Z.of_nat (String.length rest)
      + b26_value rest
  end.

Definition is_upper (c : ascii) : bool :=
  in_range 65 (Z.of_nat (nat_of_ascii c)) 90.

Fixpoint all_upper (name : string) : bool :=
  match name with
  | EmptyString => true
  | String c rest => is_upper c && all_upper rest
  end.

(** The characters of a printed integer: a digit or the minus sign. *)
Definition plain (b : byte) : bool :=
  in_range 48 (u8 b) 57 || (u8 b =? 45).

(** An unsigned 64-bit pattern read as two's complement. *)
Definition signed64 (v : Z) : Z := if v <? 2 ^ 63 then v else v - 2 ^ 64.

(** The decoder table of the specification: which decoder an id selects. *)
Definition decoder (Other : Type) : Type :=
  Buffer -> Network -> result (TransactionPayload Other).

Definition decoder_table {Other : Type} (E : Externals Other)
  : list (Z * decoder Other) :=
  [ (2, decodeEnhancedSend E);
    (4, decodeSweep E);
    (10, fun payload _ => decodeOrder payload);
    (11, fun payload _ => decodeBtcPay payload);
    (12, decodeDispenser E);
    (13, fun payload _ => decodeDispense payload);
    (20, fun payload _ => decodeIssuance E payload);
    (21, fun payload _ => decodeIssuanceSubasset E payload);
    (22, fun payload _ => decodeIssuance E payload);
    (23, fun payload _ => decodeIssuanceSubasset E payload);
    (30, fun payload _ => decodeBroadcast E payload);
    (50, fun payload _ => decodeDividend payload);
    (70, fun payload _ => decodeCancel payload);
    (90, fun payload _ => decodeFairminter E payload);
    (91, fun payload _ => decodeFairmint E payload);
    (101, fun payload _ => decodeAttach payload);
    (102, fun payload _ => decodeDetach payload);
    (110, fun payload _ => decodeDestroy payload) ].

Fixpoint find_decoder {Other : Type} (table : list (Z * decoder Other))
  (messageId : Z) : option (decoder Other) :=
  match table with
  | [] => None
  | (k, d) :: rest => if k =? messageId then Some d else find_decoder rest messageId
  end.

(** The candidate bytes of an OP_RETURN script: what follows the opcode and
    the push header. *)
Definition op_return_candidate (scriptBuffer : Buffer) : Buffer :=
  subarray_from scriptBuffer (dataStart_of scriptBuffer).

(** The (witness version, program length) pairs that name an address kind:
    (0,20), (0,32) and (1,32). *)
Definition witness_pair_ok (version len : Z) : bool :=
  (version =? 0) && (len =? 20) || (version =? 0) && (len =? 32)
  || (version =? 1) && (len =? 32).

Definition unrecognized_tag (network : Network) (tag : Z) : Prop :=
  tag <> 0x01 /\ tag <> 0x02 /\ tag <> 0x03 /\ ~ (0x80 <= tag <= 0x8f)
  /\ tag <> pubKeyHash network /\ tag <> scriptHash network.

(** The witness version and program of a buffer whose tag is 0x03 (version
    byte, then program) or a segwit marker (version in the tag). *)
Definition has_bad_program (buffer : Buffer) : Prop :=
  (exists version program,
     buffer = x03 :: version :: program
     /\ witness_pair_ok (u8 version) (blength program) = false)
  \/ (exists tag data,
        buffer = tag :: data /\ 0x80 <= u8 tag <= 0x8f
        /\ witness_pair_ok (u8 tag - 0x80) (blength data) = false).

(** The inputs for which the specification promises the hex fallback. *)
Inductive claimed_fallback_input (network : Network) : Buffer -> Prop :=
| claimed_too_short (buffer : Buffer) :
    blength buffer < 2 -> claimed_fallback_input network buffer
| claimed_unknown_tag (tag : byte) (data : Buffer) :
    unrecognized_tag network (u8 tag) ->
    claimed_fallback_input network (tag :: data)
| claimed_bad_program (buffer : Buffer) :
    has_bad_program buffer -> claimed_fallback_input network buffer.

(** The inputs for which the code returns the hex fallback whatever the
    address encoders do: a segwit marker must not be one of the network's
    two version bytes. *)
Inductive fallback_input (network : Network) : Buffer -> Prop :=
| too_short (buffer : Buffer) :
    blength buffer < 2 -> fallback_input network buffer
| unknown_tag (tag : byte) (data : Buffer) :
    unrecognized_tag network (u8 tag) ->
    fallback_input network (tag :: data)
| bad_tagged_program (version : byte) (program : Buffer) :
    witness_pair_ok (u8 version) (blength program) = false ->
    fallback_input network (x03 :: version :: program)
| bad_marker_program (tag : byte) (data : Buffer) :
    0x80 <= u8 tag <= 0x8f ->
    witness_pair_ok (u8 tag - 0x80) (blength data) = false ->
    u8 tag <> pubKeyHash network ->
    u8 tag <> scriptHash network ->
    fallback_input network (tag :: data).

(** The four ways to push a chunk in a script. *)
Inductive push_width : Type := Direct | PushData1 | PushData2 | PushData4.

Definition push (w : push_width) (chunk : Buffer) : Buffer :=
  match w with
  | Direct => to_u8 (blength chunk) :: chunk
  | PushData1 => x4c :: to_u8 (blength chunk) :: chunk
  | PushData2 => x4d :: le_bytes 2 (blength chunk) ++ chunk
  | PushData4 => x4e :: le_bytes 4 (blength chunk) ++ chunk
  end.

(** The chunk lengths a width can carry; the direct push opcodes are 0x01
    to 0x4b. *)
Definition fits (w : push_width) (chunk : Buffer) : Prop :=
  match w with
  | Direct => 1 <= blength chunk <= 75
  | PushData1 => blength chunk < 2 ^ 8
  | PushData2 => blength chunk < 2 ^ 16
  | PushData4 => blength chunk < 2 ^ 32
  end.

Definition pushes_fit (pushes : list (push_width * Buffer)) : Prop :=
  Forall (fun p => fits (fst p) (snd p)) pushes.

(** The widths the ord/xcp scanner knows. *)
Definition narrow (w : push_width) : Prop := w = Direct \/ w = PushData1.

Definition pushes_narrow (pushes : list (push_width * Buffer)) : Prop :=
  Forall (fun p => narrow (fst p)) pushes.

Definition script_of (pushes : list (push_width * Buffer)) : Buffer :=
  flat_map (fun p => push (fst p) (snd p)) pushes.

(** OP_FALSE OP_IF, the pushes, OP_ENDIF. *)
Definition generic_envelope (pushes : list (push_width * Buffer)) : Buffer :=
  [x00; x63] ++ script_of pushes ++ [x68].

(** OP_FALSE OP_IF "ord" 07 "xcp" 01, the MIME type behind its length byte,
    05, the pushes of the CBOR metadata, OP_ENDIF. *)
Definition ordxcp_envelope (mimeType : Buffer)
  (pushes : list (push_width * Buffer)) : Buffer :=
  [x00; x63] ++ Buffer_from_utf8 "ord" ++ [x07] ++ Buffer_from_utf8 "xcp"
  ++ [x01] ++ [to_u8 (blength mimeType)] ++ mimeType ++ [x05]
  ++ script_of pushes ++ [x68].

(** The logical message: the pushed chunks, concatenated. *)
Definition chunks_of (pushes : list (push_width * Buffer)) : Buffer :=
  List.concat (map snd pushes).

(** A message that starts with its type id in the 5-byte long form. *)
Definition long_form_prefixed (id : Z) (message : Buffer) : Prop :=
  exists body, message = x00 :: uint32be id ++ body.

(** 1 + 26 + ... + 26^(n-1): the least value of a name of [n] letters. *)
Fixpoint repunit (n : nat) : Z :=
  match n with
  | O => 0
  | S n' => 26 * repunit n' + 1
  end.

(* ================================================================== *)
(** * Vocabulary for layouts, scripts and text *)
(* ================================================================== *)

(** Byte-wise exclusive or of a buffer with a keystream of the same length. *)
Fixpoint xor_with (data keystream : Buffer) : Buffer :=
  match data, keystream with
  | d :: data', k :: keystream' =>
      to_u8 (Z.lxor (u8 d) (u8 k)) :: xor_with data' keystream'
  | _, _ => []
  end.

(** The keystream of a key: what RC4 makes of zero bytes. *)
Definition keystream (key : Buffer) (n : nat) : Buffer :=
  RC4.rc4Decrypt key (repeat x00 n).

(** The push headers [parse_op_return] steps over behind OP_RETURN: one
    opcode below 76, or PUSHDATA1, PUSHDATA2, PUSHDATA4 with their 1, 2 and 4
    length bytes, whatever length they announce. *)
Inductive skipped_header : Buffer -> Prop :=
| header_direct (opcode : byte) : u8 opcode < 76 -> skipped_header [opcode]
| header_pushdata1 (l : byte) : skipped_header [x4c; l]
| header_pushdata2 (l1 l2 : byte) : skipped_header [x4d; l1; l2]
| header_pushdata4 (l1 l2 l3 l4 : byte) : skipped_header [x4e; l1; l2; l3; l4].

(** A result built from a framed message: a 32-bit id, its registry name,
    and the dispatch's payload for some bytes. *)
Definition framed_result {Other : Type} (E : Externals Other)
  (network : Network) (p : ParsedTransaction Other) : Prop :=
  0 <= message_id p < 2 ^ 32
  /\ message_name p = message_name_of (message_id p)
  /\ exists payload, params p = decodePayload E (message_id p) payload network.

(** A buffer of 7-bit bytes. *)
Definition ascii_only (buf : Buffer) : Prop := Forall (fun b => u8 b <= 0x7F) buf.

(** A byte no well-formed UTF-8 sequence contains. *)
Definition never_in_utf8 (b : byte) : Prop :=
  u8 b = 0xC0 \/ u8 b = 0xC1 \/ 0xF5 <= u8 b.

(** What [decodeTextOrHex] takes for a text type. *)
Definition text_type (mimeTypeLower : string) : Prop :=
  mimeTypeLower = EmptyString \/ startsWith mimeTypeLower "text" = true.

(** One field of an attach payload: 7-bit text without the separator. *)
Definition attach_field (s : string) : Prop :=
  ascii_only (Buffer_from_utf8 s) /\ ~ In x7c (Buffer_from_utf8 s).

(** The decoder's state between two bytes never holds the byte [a], and
    expects continuation bytes only. *)
Definition pending_without (a : byte) (st : option utf8_pending) : Prop :=
  match st with
  | None => True
  | Some (acc, _, lo, hi) => ~ In a acc /\ 0x80 <= lo /\ hi <= 0xBF
  end.

(** A byte that is 7-bit, or that UTF-8 never contains, is neither part of
    the replacement character nor of a multi-byte sequence. *)
Definition outside_sequences (a : byte) : Prop :=
  u8 a <= 0x7F \/ never_in_utf8 a.

(** The fixed-layout decoders: message id, least payload length, and the
    message of the error raised below it. *)
Definition fixed_layouts : list (Z * Z * string) :=
  [ (10, 34, "Invalid order payload");
    (11, 64, "Invalid btc_pay payload");
    (12, 33, "Invalid dispenser payload");
    (50, 16, "Invalid dividend payload");
    (70, 32, "Invalid cancel payload");
    (110, 16, "Invalid destroy payload") ]%string.

(** The field at bytes [off] to [off + n - 1], read big-endian. *)
Definition field_at (payload : Buffer) (off n : nat) : Z :=
  be_value (firstn n (skipn off payload)).

(** The optional packed address at bytes [off] to [off + 20]. *)
Definition packed_address {Other : Type} (E : Externals Other)
  (payload : Buffer) (off : nat) (network : Network) : option string :=
  if blength payload <? Z.of_nat off + 21 then None
  else Some (shortAddressBytesToAddress E
               (toString_hex (firstn 21 (skipn off payload))) network).

(** The witness element [extractWitnessScript] looks at in an input: the
    second-to-last, when there are two at least. *)
Definition script_slot (input : TxInput) : option Buffer :=
  let n := List.length (witness input) in
  if (n <? 2)%nat then None else Some (nth (n - 2) (witness input) []).

(** A script that opens like an envelope: OP_FALSE, OP_IF, and one more
    byte at least. *)
Definition opens_envelope (script : Buffer) : Prop :=
  exists b rest, script = x00 :: x63 :: b :: rest.

Definition carries_envelope (input : TxInput) : Prop :=
  exists script, script_slot input = Some script /\ opens_envelope script.

(** What stands between OP_IF and OP_ENDIF: pushes, and single opcodes. *)
Inductive script_item : Type :=
| Pushed (w : push_width) (chunk : Buffer)
| Stepped (opcode : byte).

(** The opcodes the generic scanner steps over: OP_0, and everything above
    PUSHDATA4 but OP_ENDIF. *)
Definition stepped_over (opcode : byte) : Prop :=
  u8 opcode = 0 \/ (79 <= u8 opcode /\ u8 opcode <> 0x68).

Definition item_ok (i : script_item) : Prop :=
  match i with
  | Pushed w chunk => fits w chunk
  | Stepped opcode => stepped_over opcode
  end.

Definition item_bytes (i : script_item) : Buffer :=
  match i with
  | Pushed w chunk => push w chunk
  | Stepped opcode => [opcode]
  end.

Definition items_script (items : list script_item) : Buffer :=
  flat_map item_bytes items.

Definition items_chunks (items : list script_item) : list Buffer :=
  flat_map (fun i => match i with
                     | Pushed _ chunk => [chunk]
                     | Stepped _ => []
                     end) items.

(** An ord/xcp envelope up to its metadata pushes, and what follows them. *)
Definition ordxcp_script (mimeType : Buffer)
  (pushes : list (push_width * Buffer)) (tail : Buffer) : Buffer :=
  [x00; x63] ++ Buffer_from_utf8 "ord" ++ [x07] ++ Buffer_from_utf8 "xcp"
  ++ [x01] ++ [to_u8 (blength mimeType)] ++ mimeType ++ [x05]
  ++ script_of pushes ++ tail.

(** Where the ord/xcp scanner stops collecting: the end of the script,
    OP_ENDIF, or the OP_0 that separates the content. *)
Definition ends_metadata (tail : Buffer) : Prop :=
  tail = [] \/ (exists rest, tail = x68 :: rest)
  \/ (exists content, tail = x00 :: content).

(** The CBOR decoders: message id, least number of array elements, and the
    message of the error raised on any other decoded value. *)
Definition cbor_layouts : list (Z * nat * string) :=
  [ (2, 3%nat, "Invalid enhanced send payload");
    (4, 2%nat, "Invalid sweep payload");
    (20, 5%nat, "Invalid issuance payload");
    (21, 7%nat, "Invalid issuance subasset payload");
    (22, 5%nat, "Invalid issuance payload");
    (23, 7%nat, "Invalid issuance subasset payload");
    (30, 4%nat, "Invalid broadcast payload");
    (90, 17%nat, "Invalid fairminter payload");
    (91, 2%nat, "Invalid fairmint payload") ]%string.

Definition array_of_at_least {Other : Type} (n : nat) (v : jsval Other) : Prop :=
  exists l, v = JArray l /\ (n <= List.length l)%nat.

(** A decoded integer: a Number, or a bigint. *)
Definition integer_value {Other : Type} (v : jsval Other) (z : Z) : Prop :=
  v = JNum z \/ v = JBigInt z.

(** The encoder that serves a (witness version, program length) pair. *)
Definition segwit_encoder {Other : Type} (E : Externals Other)
  (version len : Z) : option (Buffer -> Network -> result (option string)) :=
  if (version =? 0) && (len =? 20) then Some (p2wpkh E)
  else if (version =? 0) && (len =? 32) then Some (p2wsh E)
  else if (version =? 1) && (len =? 32) then Some (p2tr E)
  else None.

(* ================================================================== *)
(** * Properties *)
(* ================================================================== *)

Lemma u8_range (b : byte) : 0 <= u8 b < 256.
Proof.
  unfold u8. pose proof (Byte.to_N_bounded b). lia.
Qed.

Lemma to_u8_u8 (b : byte) : to_u8 (u8 b) = b.
Proof.
  unfold to_u8. rewrite Z.mod_small by apply u8_range.
  unfold u8. rewrite N2Z.id. now rewrite Byte.of_to_N.
Qed.

Lemma u8_to_u8 (z : Z) : u8 (to_u8 z) = z mod 256.
Proof.
  unfold to_u8, u8.
  assert (Hr : 0 <= z mod 256 < 256) by (apply Z.mod_pos_bound; lia).
  destruct (Byte.of_N (Z.to_N (z mod 256))) as [b|] eqn:E.
  - apply Byte.to_of_N in E. rewrite E. lia.
  - apply Byte.of_N_None_iff in E. lia.
Qed.

Lemma lxor_byte_range (a b : Z) :
  0 <= a < 256 -> 0 <= b < 256 -> 0 <= Z.lxor a b < 256.
Proof.
  intros Ha Hb. split.
  - apply Z.lxor_nonneg. lia.
  - destruct (Z.eq_dec (Z.lxor a b) 0) as [->|Hnz]; [lia|].
    assert (Hp : 0 < Z.lxor a b) by (pose proof (proj2 (Z.lxor_nonneg a b)); lia).
    apply Z.log2_lt_cancel. change (Z.log2 256) with 8.
    pose proof (Z.log2_lxor a b ltac:(lia) ltac:(lia)) as Hl.
    assert (Z.log2 a < 8).
    { destruct (Z.eq_dec a 0) as [->|]; [cbn; lia|].
      apply Z.log2_lt_pow2; cbn; lia. }
    assert (Z.log2 b < 8).
    { destruct (Z.eq_dec b 0) as [->|]; [cbn; lia|].
      apply Z.log2_lt_pow2; cbn; lia. }
    lia.
Qed.

Lemma rd_range (Sb : list byte) (i : Z) : 0 <= RC4.rd Sb i < 256.
Proof. apply u8_range. Qed.

Lemma xor_twice (d : byte) (k : Z) :
  0 <= k < 256 ->
  to_u8 (Z.lxor (u8 (to_u8 (Z.lxor (u8 d) k))) k) = d.
Proof.
  intros Hk. rewrite u8_to_u8.
  rewrite Z.mod_small by (apply lxor_byte_range; [apply u8_range|exact Hk]).
  rewrite Z.lxor_assoc, Z.lxor_nilpotent, Z.lxor_0_r.
  apply to_u8_u8.
Qed.

Lemma prga_involutive (data : Buffer) :
  forall Sb i j, RC4.prga Sb i j (RC4.prga Sb i j data) = data.
Proof.
  induction data as [|d rest IH]; intros Sb i j; cbn [RC4.prga].
  - reflexivity.
  - rewrite xor_twice by apply rd_range. now rewrite IH.
Qed.

Lemma prga_length (data : Buffer) :
  forall Sb i j, List.length (RC4.prga Sb i j data) = List.length data.
Proof.
  induction data as [|d rest IH]; intros Sb i j; cbn [RC4.prga List.length].
  - reflexivity.
  - now rewrite IH.
Qed.

(** C2: with a non-empty key, applying rc4Decrypt twice under the same key
    gives the data back, and each application keeps the length of its
    input. *)
Theorem rc4Decrypt_self_inverse (key data : Buffer) :
  key <> [] ->
  RC4.rc4Decrypt key (RC4.rc4Decrypt key data) = data
  /\ List.length (RC4.rc4Decrypt key data) = List.length data
  /\ List.length (RC4.rc4Decrypt key (RC4.rc4Decrypt key data)) = List.length data.
Proof.
  intros _. unfold RC4.rc4Decrypt. repeat split.
  - apply prga_involutive.
  - apply prga_length.
  - now rewrite !prga_length.
Qed.

Lemma rc4Decrypt_self_inverse_witness :
  Buffer_from_utf8 "Key" <> []
  /\ RC4.rc4Decrypt (Buffer_from_utf8 "Key")
       (RC4.rc4Decrypt (Buffer_from_utf8 "Key") (Buffer_from_utf8 "Plaintext"))
     = Buffer_from_utf8 "Plaintext".
Proof.
  assert (H : Buffer_from_utf8 "Key" <> []) by discriminate.
  split; [exact H|].
  exact (proj1 (rc4Decrypt_self_inverse (Buffer_from_utf8 "Key")
                  (Buffer_from_utf8 "Plaintext") H)).
Defined.

(* ------------------------------------------------------------------ *)
(** ** The asset codec *)
(* ------------------------------------------------------------------ *)

Lemma alphabetic_loop_value (fuel : nat) :
  forall remaining name,
    0 <= remaining < 2 ^ Z.of_nat fuel ->
    all_upper name = true ->
    all_upper (alphabetic_loop fuel remaining name) = true
    /\ b26_value (alphabetic_loop fuel remaining name)
       = remaining * 26 ^ Z.of_nat (String.length name) + b26_value name.
Proof.
  induction fuel as [|fuel IH]; intros remaining name Hr Hn.
  - cbn in Hr. assert (remaining = 0) by lia. subst. cbn. split; [exact Hn|lia].
  - cbn [alphabetic_loop].
    destruct (remaining >? 0) eqn:Hpos.
    + apply Z.gtb_lt in Hpos.
      set (r1 := remaining - 1).
      assert (Hr1 : 0 <= r1) by (unfold r1; lia).
      pose proof (Z.rem_bound_pos r1 26 Hr1 ltac:(lia)) as Hd.
      pose proof (Z.quot_rem' r1 26) as Hqr.
      assert (Hq : 0 <= Z.quot r1 26) by (apply Z.quot_pos; lia).
      set (c := ascii_of_nat (Z.to_nat (65 + Z.rem r1 26))).
      assert (Hc : Z.of_nat (nat_of_ascii c) = 65 + Z.rem r1 26).
      { unfold c. rewrite nat_ascii_embedding by lia. lia. }
      destruct (IH (Z.quot r1 26) (String c name)) as [Hu Hv].
      * split; [lia|].
        rewrite Nat2Z.inj_succ, Z.pow_succ_r in Hr by lia. lia.
      * cbn [all_upper]. rewrite Hn, andb_true_r.
        unfold is_upper, in_range. rewrite Hc. lia.
      * split; [exact Hu|].
        rewrite Hv. cbn [b26_value String.length].
        rewrite Hc, Nat2Z.inj_succ, Z.pow_succ_r by lia.
        unfold r1 in *. nia.
    + rewrite Z.gtb_ltb in Hpos. apply Z.ltb_ge in Hpos.
      assert (remaining = 0) by lia. subst. split; [exact Hn|lia].
Qed.

Lemma alphabetic_fuel_enough (id : Z) :
  0 < id -> 0 <= id < 2 ^ Z.of_nat (alphabetic_fuel id).
Proof.
  intros Hid. unfold alphabetic_fuel.
  pose proof (Z.log2_nonneg id).
  rewrite Nat2Z.inj_succ, Z2Nat.id by assumption.
  pose proof (Z.log2_spec id Hid). lia.
Qed.

(** More fuel than [alphabetic_fuel] changes nothing: the loop has ended. *)
Lemma alphabetic_loop_stable (fuel : nat) :
  forall remaining name extra,
    0 <= remaining < 2 ^ Z.of_nat fuel ->
    alphabetic_loop (fuel + extra) remaining name
    = alphabetic_loop fuel remaining name.
Proof.
  induction fuel as [|fuel IH]; intros remaining name extra Hr.
  - cbn in Hr. assert (remaining = 0) by lia. subst.
    destruct extra; reflexivity.
  - cbn [alphabetic_loop Nat.add].
    destruct (remaining >? 0) eqn:Hpos; [|reflexivity].
    apply Z.gtb_lt in Hpos. apply IH.
    assert (Hr1 : 0 <= remaining - 1) by lia.
    pose proof (Z.rem_bound_pos (remaining - 1) 26 Hr1 ltac:(lia)).
    pose proof (Z.quot_rem' (remaining - 1) 26).
    assert (0 <= Z.quot (remaining - 1) 26) by (apply Z.quot_pos; lia).
    rewrite Nat2Z.inj_succ, Z.pow_succ_r in Hr by lia. lia.
Qed.

(* ------------------------------------------------------------------ *)
(** ** Bijective base-26 numerals *)
(* ------------------------------------------------------------------ *)

Lemma repunit_pow (n : nat) : 25 * repunit n = 26 ^ Z.of_nat n - 1.
Proof.
  induction n as [|n IH]; [reflexivity|].
  cbn [repunit]. rewrite Nat2Z.inj_succ, Z.pow_succ_r by lia. lia.
Qed.

Lemma repunit_mono (n m : nat) : (n <= m)%nat -> repunit n <= repunit m.
Proof.
  induction 1 as [|m _ IH]; [lia|]. cbn [repunit].
  assert (0 <= repunit m).
  { clear. induction m; cbn [repunit]; lia. }
  lia.
Qed.

Lemma is_upper_range (c : ascii) :
  is_upper c = true -> 1 <= Z.of_nat (nat_of_ascii c) - 64 <= 26.
Proof.
  unfold is_upper, in_range. intros H. apply andb_prop in H.
  destruct H as [H1 H2]. apply Z.leb_le in H1, H2. lia.
Qed.

Lemma b26_bounds (name : string) :
  all_upper name = true ->
  repunit (String.length name) <= b26_value name
  <= 26 * repunit (String.length name).
Proof.
  induction name as [|c name IH]; intros H; [cbn; lia|].
  cbn [all_upper] in H. apply andb_prop in H. destruct H as [Hc Hn].
  specialize (IH Hn). apply is_upper_range in Hc.
  cbn [b26_value String.length repunit].
  pose proof (repunit_pow (String.length name)). nia.
Qed.

Lemma b26_same_length (s t : string) :
  all_upper s = true -> all_upper t = true ->
  b26_value s = b26_value t -> String.length s = String.length t.
Proof.
  intros Hs Ht Hv.
  pose proof (b26_bounds s Hs) as Bs. pose proof (b26_bounds t Ht) as Bt.
  destruct (Nat.lt_trichotomy (String.length s) (String.length t))
    as [Hlt|[Heq|Hgt]]; [|exact Heq|]; exfalso.
  - pose proof (repunit_mono (S (String.length s)) (String.length t) Hlt) as Hm.
    cbn [repunit] in Hm. lia.
  - pose proof (repunit_mono (S (String.length t)) (String.length s) Hgt) as Hm.
    cbn [repunit] in Hm. lia.
Qed.

(** A value has one name over A-Z at most. *)
Lemma b26_injective (s : string) :
  forall t,
    all_upper s = true -> all_upper t = true ->
    b26_value s = b26_value t -> s = t.
Proof.
  induction s as [|c s IH]; intros t Hs Ht Hv.
  - pose proof (b26_same_length _ _ Hs Ht Hv) as Hl.
    destruct t; [reflexivity|discriminate Hl].
  - pose proof (b26_same_length _ _ Hs Ht Hv) as Hl.
    destruct t as [|d t]; [discriminate Hl|].
    cbn [String.length] in Hl. injection Hl as Hl.
    cbn [all_upper] in Hs, Ht.
    apply andb_prop in Hs. destruct Hs as [Hc Hs].
    apply andb_prop in Ht. destruct Ht as [Hd Ht].
    pose proof (b26_bounds s Hs) as Bs. pose proof (b26_bounds t Ht) as Bt.
    pose proof (repunit_pow (String.length s)) as Hp.
    apply is_upper_range in Hc, Hd.
    cbn [b26_value] in Hv. rewrite <- Hl in Hv, Bt.
    assert (Hcd : Z.of_nat (nat_of_ascii c) = Z.of_nat (nat_of_ascii d)) by nia.
    assert (c = d).
    { rewrite <- (ascii_nat_embedding c), <- (ascii_nat_embedding d).
      f_equal. lia. }
    subst d. f_equal. apply IH; [exact Hs|exact Ht|nia].
Qed.

Lemma assetIdToName_alphabetic (id : Z) :
  26 ^ 3 <= id < 26 ^ 12 + 1 ->
  all_upper (assetIdToName_bigint id) = true
  /\ b26_value (assetIdToName_bigint id) = id.
Proof.
  intros Hid. unfold assetIdToName_bigint.
  change NUMERIC_THRESHOLD with (26 ^ 12 + 1).
  change ALPHABETIC_THRESHOLD with (26 ^ 3).
  assert (H3 : 26 ^ 3 = 17576) by reflexivity.
  destruct (id =? 0) eqn:E0; [apply Z.eqb_eq in E0; lia|].
  destruct (id =? 1) eqn:E1; [apply Z.eqb_eq in E1; lia|].
  destruct (id >=? 26 ^ 12 + 1) eqn:E2; [apply Z.geb_le in E2; lia|].
  destruct (id >=? 26 ^ 3) eqn:E3.
  - destruct (alphabetic_loop_value (alphabetic_fuel id) id EmptyString)
      as [Hu Hv].
    + apply alphabetic_fuel_enough. lia.
    + reflexivity.
    + split; [exact Hu|]. rewrite Hv. cbn. lia.
  - rewrite Z.geb_leb in E3. apply Z.leb_gt in E3. lia.
Qed.

Lemma assetIdToName_numeric (id : Z) :
  2 <= id < 26 ^ 3 \/ 26 ^ 12 + 1 <= id ->
  assetIdToName_bigint id = String "A" (decimal id).
Proof.
  intros Hid. unfold assetIdToName_bigint.
  change NUMERIC_THRESHOLD with (26 ^ 12 + 1).
  change ALPHABETIC_THRESHOLD with (26 ^ 3).
  assert (H3 : 26 ^ 3 = 17576) by reflexivity.
  assert (H12 : 26 ^ 12 = 95428956661682176) by reflexivity.
  destruct (id =? 0) eqn:E0; [apply Z.eqb_eq in E0; lia|].
  destruct (id =? 1) eqn:E1; [apply Z.eqb_eq in E1; lia|].
  destruct (id >=? 26 ^ 12 + 1) eqn:E2; [reflexivity|].
  destruct (id >=? 26 ^ 3) eqn:E3; [|reflexivity].
  rewrite Z.geb_leb in E2, E3. apply Z.leb_gt in E2. apply Z.leb_le in E3. lia.
Qed.

(** C3: assetIdToName maps 0 to BTC and 1 to XCP; an id in [2, 26^3) or at
    least 26^12+1 to "A" followed by its decimal digits; an id in
    [26^3, 26^12+1) to the one name over A-Z whose bijective base-26 value is
    the id, with 26^3 giving YYZ and 26^3+1 giving YZA. It returns on every
    integer. *)
Theorem assetIdToName_regions (id : Z) :
  (exists name, assetIdToName (IdBigInt id) = Ok name)
  /\ assetIdToName (IdBigInt 0) = Ok "BTC"%string
  /\ assetIdToName (IdBigInt 1) = Ok "XCP"%string
  /\ (2 <= id < 26 ^ 3 ->
      assetIdToName (IdBigInt id) = Ok (String "A" (decimal id)))
  /\ (26 ^ 3 <= id < 26 ^ 12 + 1 ->
      exists name, assetIdToName (IdBigInt id) = Ok name
                   /\ all_upper name = true /\ b26_value name = id
                   /\ forall other, all_upper other = true ->
                                     b26_value other = id -> other = name)
  /\ (26 ^ 12 + 1 <= id ->
      assetIdToName (IdBigInt id) = Ok (String "A" (decimal id)))
  /\ assetIdToName (IdBigInt (26 ^ 3)) = Ok "YYZ"%string
  /\ assetIdToName (IdBigInt (26 ^ 3 + 1)) = Ok "YZA"%string.
Proof.
  cbn [assetIdToName]. repeat split.
  - eexists. reflexivity.
  - intros H. now rewrite assetIdToName_numeric by (left; exact H).
  - intros H. destruct (assetIdToName_alphabetic id H) as [Hu Hv].
    eexists. split; [reflexivity|]. split; [exact Hu|]. split; [exact Hv|].
    intros other Ho Hval. apply b26_injective; [exact Ho|exact Hu|congruence].
  - intros H. now rewrite assetIdToName_numeric by (right; exact H).
Qed.

Lemma assetIdToName_regions_witness :
  (2 <= 100 < 26 ^ 3
   /\ assetIdToName (IdBigInt 100) = Ok (String "A" (decimal 100)))
  /\ (26 ^ 3 <= 20000 < 26 ^ 12 + 1
      /\ exists name, assetIdToName (IdBigInt 20000) = Ok name
                      /\ all_upper name = true /\ b26_value name = 20000
                      /\ forall other, all_upper other = true ->
                                        b26_value other = 20000 -> other = name)
  /\ (26 ^ 12 + 1 <= 26 ^ 12 + 1001
      /\ assetIdToName (IdBigInt (26 ^ 12 + 1001))
         = Ok (String "A" (decimal (26 ^ 12 + 1001)))).
Proof.
  assert (H1 : 2 <= 100 < 26 ^ 3) by (cbn; lia).
  assert (H2 : 26 ^ 3 <= 20000 < 26 ^ 12 + 1) by (cbn; lia).
  assert (H3 : 26 ^ 12 + 1 <= 26 ^ 12 + 1001) by lia.
  split; [|split].
  - split; [exact H1|].
    exact (proj1 (proj2 (proj2 (proj2 (assetIdToName_regions 100)))) H1).
  - split; [exact H2|].
    exact (proj1 (proj2 (proj2 (proj2 (proj2 (assetIdToName_regions 20000))))) H2).
  - split; [exact H3|].
    exact (proj1 (proj2 (proj2 (proj2 (proj2 (proj2
             (assetIdToName_regions (26 ^ 12 + 1001))))))) H3).
Defined.

(* ------------------------------------------------------------------ *)
(** ** Printing an integer and reading it back *)
(* ------------------------------------------------------------------ *)

Lemma bytes_of_String (c : ascii) (s : string) :
  list_byte_of_string (String c s) = byte_of_ascii c :: list_byte_of_string s.
Proof. reflexivity. Qed.

Lemma strip_one_plain (b : byte) (l : list byte) :
  plain b = true -> strip_one white_space (b :: l) = None.
Proof.
  intros H. destruct b; vm_compute in H; try discriminate H;
    vm_compute; reflexivity.
Qed.

Lemma strip_one_rev_plain (b : byte) (l : list byte) :
  plain b = true -> strip_one (map (@rev byte) white_space) (b :: l) = None.
Proof.
  intros H. destruct b; vm_compute in H; try discriminate H;
    vm_compute; reflexivity.
Qed.

Lemma strip_all_fixed (seqs : list (list byte)) (fuel : nat) (l : list byte) :
  strip_one seqs l = None -> strip_all seqs fuel l = l.
Proof. intros H. destruct fuel; cbn [strip_all]; [|rewrite H]; reflexivity. Qed.

Lemma trim_bytes_plain (l : list byte) :
  forallb plain l = true -> trim_bytes l = l.
Proof.
  intros H. unfold trim_bytes.
  assert (H1 : strip_one white_space l = None).
  { destruct l as [|b l]; [reflexivity|].
    cbn [forallb] in H. apply andb_prop in H.
    exact (strip_one_plain b l (proj1 H)). }
  rewrite (strip_all_fixed _ _ _ H1).
  assert (H2 : strip_one (map (@rev byte) white_space) (rev l) = None).
  { destruct (rev l) as [|b r] eqn:Er; [reflexivity|].
    apply (strip_one_rev_plain b r).
    rewrite forallb_forall in H. apply H. apply in_rev. rewrite Er. now left. }
  rewrite (strip_all_fixed _ _ _ H2). apply rev_involutive.
Qed.

Lemma trim_plain (s : string) :
  forallb plain (list_byte_of_string s) = true -> trim s = s.
Proof.
  intros H. unfold trim. rewrite trim_bytes_plain by exact H.
  apply string_of_list_byte_of_string.
Qed.

Lemma uint_plain (d : Decimal.uint) :
  forallb plain (list_byte_of_string (NilEmpty.string_of_uint d)) = true.
Proof.
  induction d; cbn [NilEmpty.string_of_uint]; [reflexivity|..];
    rewrite bytes_of_String; cbn [forallb]; now rewrite IHd.
Qed.

Lemma uint_nonempty (d : Decimal.uint) :
  NilZero.string_of_uint d <> EmptyString.
Proof. destruct d; discriminate. Qed.

Lemma decimal_plain (z : Z) :
  forallb plain (list_byte_of_string (decimal z)) = true.
Proof.
  assert (Hu : forall d,
    forallb plain (list_byte_of_string (NilZero.string_of_uint d)) = true).
  { intros d. destruct d; try reflexivity; apply (uint_plain _). }
  unfold decimal. destruct z; cbn [Z.to_int NilZero.string_of_int].
  - reflexivity.
  - apply Hu.
  - rewrite bytes_of_String. cbn [forallb]. now rewrite Hu.
Qed.

Lemma decimal_nonempty (z : Z) : decimal z <> EmptyString.
Proof.
  unfold decimal. destruct z; cbn [Z.to_int NilZero.string_of_int];
    try discriminate. apply uint_nonempty.
Qed.

Lemma after_plain (p : string) :
  forall t r,
    forallb plain (list_byte_of_string t) = true ->
    after p t = Some r ->
    forallb plain (list_byte_of_string p) = true.
Proof.
  induction p as [|c p IH]; intros t r Ht Ha; [reflexivity|].
  destruct t as [|c' t]; [discriminate|]. cbn [after] in Ha.
  destruct (Ascii.eqb_spec c c') as [->|]; [|discriminate].
  rewrite bytes_of_String in *. cbn [forallb] in *.
  apply andb_prop in Ht. destruct Ht as [Hc Ht].
  rewrite Hc. cbn [andb]. exact (IH _ _ Ht Ha).
Qed.

Lemma after_not_plain (p t : string) :
  forallb plain (list_byte_of_string p) = false ->
  forallb plain (list_byte_of_string t) = true ->
  after p t = None.
Proof.
  intros Hp Ht. destruct (after p t) eqn:Ha; [|reflexivity].
  rewrite (after_plain _ _ _ Ht Ha) in Hp. discriminate.
Qed.

Lemma to_int_proper (z : Z) :
  Z.to_int z <> Decimal.Pos Decimal.Nil /\ Z.to_int z <> Decimal.Neg Decimal.Nil.
Proof.
  destruct z; cbn [Z.to_int]; split; try discriminate;
    intros [= H]; exact (DecimalPos.Unsigned.to_uint_nonnil _ H).
Qed.

(** [BigInt(z.toString())] is [z]. *)
Lemma BigInt_of_decimal (z : Z) : BigInt_of_string (decimal z) = Some z.
Proof.
  pose proof (decimal_plain z) as Hp.
  unfold BigInt_of_string. rewrite (trim_plain _ Hp).
  destruct (String.eqb_spec (decimal z) EmptyString) as [He|_];
    [now apply decimal_nonempty in He|].
  assert (Hr : radix_literal radix_prefixes (decimal z) = None).
  { unfold radix_prefixes. cbn [radix_literal].
    now rewrite !after_not_plain by (exact Hp || reflexivity). }
  rewrite Hr, (after_not_plain "+" _ eq_refl Hp).
  unfold decimal.
  destruct (to_int_proper z) as [H1 H2].
  rewrite (NilZero.isi _ H1 H2). cbn [option_map].
  now rewrite DecimalZ.of_to.
Qed.

Lemma assetIdToName_of_decimal (z : Z) :
  assetIdToName (IdString (decimal z)) = Ok (assetIdToName_bigint z).
Proof. cbn [assetIdToName]. now rewrite BigInt_of_decimal. Qed.

(* ------------------------------------------------------------------ *)
(** ** decodeDestroy *)
(* ------------------------------------------------------------------ *)

Lemma readUIntBE_in_range (buf : Buffer) (off : Z) (n : nat) :
  0 <= off -> off + Z.of_nat n <= blength buf ->
  readUIntBE buf off n = Some (be_value (firstn n (skipn (Z.to_nat off) buf))).
Proof.
  intros H0 H1. unfold readUIntBE.
  destruct (off <? 0) eqn:E0; [apply Z.ltb_lt in E0; lia|].
  destruct (blength buf <? off + Z.of_nat n) eqn:E1;
    [apply Z.ltb_lt in E1; lia|]. reflexivity.
Qed.

Lemma blength_app (a b : Buffer) : blength (a ++ b) = blength a + blength b.
Proof. unfold blength. rewrite length_app. lia. Qed.

Lemma decodeDestroy_value {Other : Type} (payload : Buffer) :
  16 <= blength payload ->
  @decodeDestroy Other payload
  = Ok (DestroyPayload
          (assetIdToName_bigint (be_value (firstn 8 payload)))
          (decimal (signed64 (be_value (firstn 8 (skipn 8 payload)))))
          (if blength payload =? 16 then None
           else Some (toString_hex
                        (firstn (Z.to_nat (Z.min (blength payload) 50 - 16))
                                (skipn 16 payload))))).
Proof.
  intros Hlen. unfold decodeDestroy.
  destruct (blength payload <? 16) eqn:E; [apply Z.ltb_lt in E; lia|].
  unfold u64_string, i64_string, readBigInt64BE.
  rewrite !readUIntBE_in_range by (cbn; lia).
  cbn [checked bind]. rewrite assetIdToName_of_decimal. cbn [bind].
  change (Z.to_nat 0) with 0%nat. change (Z.to_nat 8) with 8%nat.
  cbn [skipn]. unfold subarray, signed64.
  change (Z.to_nat 16) with 16%nat.
  destruct (blength payload >? 16) eqn:Eg, (blength payload =? 16) eqn:Ee;
    try reflexivity.
  - apply Z.eqb_eq in Ee. rewrite Z.gtb_ltb in Eg. apply Z.ltb_lt in Eg. lia.
  - apply Z.eqb_neq in Ee. rewrite Z.gtb_ltb in Eg. apply Z.ltb_ge in Eg. lia.
Qed.

Lemma firstn_app_left {A} (n : nat) (a b : list A) :
  (n <= List.length a)%nat -> firstn n (a ++ b) = firstn n a.
Proof.
  intros H. rewrite firstn_app.
  replace (n - List.length a)%nat with 0%nat by lia.
  cbn [firstn]. apply app_nil_r.
Qed.

(** C9: decodeDestroy accepts every payload of at least 16 bytes; with
    exactly 16 bytes there is no tag, with more the tag is the hex of bytes
    16 up to min(length, 50); bytes from offset 50 on are dropped without an
    error, so a longer payload decodes as its first 50 bytes do. *)
Theorem decodeDestroy_truncates {Other : Type} (payload : Buffer) :
  16 <= blength payload ->
  (exists asset quantity,
     @decodeDestroy Other payload
     = Ok (DestroyPayload asset quantity
             (if blength payload =? 16 then None
              else Some (toString_hex
                           (firstn (Z.to_nat (Z.min (blength payload) 50 - 16))
                                   (skipn 16 payload))))))
  /\ (50 <= blength payload ->
      forall extra,
        @decodeDestroy Other (payload ++ extra)
        = @decodeDestroy Other (firstn 50 payload)).
Proof.
  intros Hlen. split.
  - eexists _, _. apply decodeDestroy_value, Hlen.
  - intros H50 extra.
    assert (Hn : (50 <= List.length payload)%nat) by (unfold blength in H50; lia).
    assert (Hf : blength (firstn 50 payload) = 50).
    { unfold blength. rewrite length_firstn. lia. }
    rewrite !decodeDestroy_value
      by (rewrite ?blength_app, ?Hf; unfold blength in *; lia).
    rewrite blength_app, Hf.
    assert (He : (blength payload + blength extra =? 16) = false).
    { apply Z.eqb_neq. unfold blength in *. lia. }
    rewrite He. change (50 =? 16) with false.
    rewrite Z.min_r by (unfold blength in *; lia). rewrite Z.min_id.
    change (Z.to_nat (50 - 16)) with 34%nat.
    rewrite !firstn_app_left by lia.
    rewrite firstn_firstn. change (Nat.min 8 50) with 8%nat.
    rewrite !skipn_app.
    rewrite !firstn_app_left by (rewrite length_skipn; lia).
    assert (Hs : forall k, (k <= 50)%nat ->
              forall m, (m <= 50 - k)%nat ->
              firstn m (skipn k (firstn 50 payload)) = firstn m (skipn k payload)).
    { intros k Hk m Hm. rewrite skipn_firstn_comm, firstn_firstn.
      now rewrite Nat.min_l by lia. }
    now rewrite !Hs by lia.
Qed.

Lemma decodeDestroy_truncates_witness :
  16 <= blength (repeat x01 60)
  /\ 50 <= blength (repeat x01 60)
  /\ @decodeDestroy Empty_set (repeat x01 60 ++ [xff; xfe])
     = @decodeDestroy Empty_set (firstn 50 (repeat x01 60)).
Proof.
  assert (H16 : 16 <= blength (repeat x01 60)) by (vm_compute; discriminate).
  assert (H50 : 50 <= blength (repeat x01 60)) by (vm_compute; discriminate).
  split; [exact H16|]. split; [exact H50|].
  exact (proj2 (decodeDestroy_truncates (repeat x01 60) H16) H50 [xff; xfe]).
Defined.

(* ------------------------------------------------------------------ *)
(** ** Message framing *)
(* ------------------------------------------------------------------ *)

Lemma blength_cons (b : byte) (l : Buffer) : blength (b :: l) = 1 + blength l.
Proof. unfold blength. cbn [List.length]. lia. Qed.

Lemma blength_nonneg (l : Buffer) : 0 <= blength l.
Proof. unfold blength. lia. Qed.

Lemma readMessageTypeId_short (first : byte) (rest : Buffer) :
  u8 first <> 0 -> readMessageTypeId (first :: rest) = Ok (u8 first, rest).
Proof.
  intros Hnz. unfold readMessageTypeId.
  pose proof (blength_nonneg rest). pose proof (u8_range first).
  rewrite blength_cons.
  destruct (1 + blength rest =? 0) eqn:E0; [apply Z.eqb_eq in E0; lia|].
  change (byte_at (first :: rest) 0) with (Some (u8 first)). cbv beta iota.
  destruct (u8 first >? 0) eqn:Eg; [reflexivity|].
  rewrite Z.gtb_ltb in Eg. apply Z.ltb_ge in Eg. lia.
Qed.

Lemma readMessageTypeId_long (b1 b2 b3 b4 : byte) (rest : Buffer) :
  readMessageTypeId (x00 :: b1 :: b2 :: b3 :: b4 :: rest)
  = Ok (u8 b1 * 2 ^ 24 + u8 b2 * 2 ^ 16 + u8 b3 * 2 ^ 8 + u8 b4, rest).
Proof.
  unfold readMessageTypeId. pose proof (blength_nonneg rest).
  rewrite !blength_cons.
  destruct (_ =? 0) eqn:E0; [apply Z.eqb_eq in E0; lia|].
  change (byte_at (x00 :: b1 :: b2 :: b3 :: b4 :: rest) 0) with (Some 0).
  cbv beta iota. change (0 >? 0) with false. cbv iota.
  destruct (_ <? 5) eqn:E5; [apply Z.ltb_lt in E5; lia|].
  rewrite readUIntBE_in_range
    by (rewrite ?blength_cons; change (Z.of_nat 4) with 4; lia).
  cbn [checked bind]. change (Z.to_nat 1) with 1%nat.
  change (Z.to_nat 5) with 5%nat.
  cbn [skipn firstn be_value fold_left subarray_from]. f_equal. f_equal.
  change (2 ^ 24) with 16777216. change (2 ^ 16) with 65536.
  change (2 ^ 8) with 256. lia.
Qed.

Lemma readMessageTypeId_too_short (rest : Buffer) :
  blength (x00 :: rest) < 5 ->
  readMessageTypeId (x00 :: rest) = Throw (ErrorOf "Message too short for long ID").
Proof.
  intros Hlen. unfold readMessageTypeId. pose proof (blength_nonneg rest).
  rewrite blength_cons in *.
  destruct (_ =? 0) eqn:E0; [apply Z.eqb_eq in E0; lia|].
  change (byte_at (x00 :: rest) 0) with (Some 0).
  cbv beta iota. change (0 >? 0) with false. cbv iota.
  destruct (_ <? 5) eqn:E5; [reflexivity|]. apply Z.ltb_ge in E5. lia.
Qed.

Lemma uint32be_value (id : Z) :
  0 <= id < 2 ^ 32 ->
  u8 (to_u8 (id / 2 ^ 24)) * 2 ^ 24 + u8 (to_u8 (id / 2 ^ 16)) * 2 ^ 16
  + u8 (to_u8 (id / 2 ^ 8)) * 2 ^ 8 + u8 (to_u8 id) = id.
Proof.
  intros Hr. rewrite !u8_to_u8.
  change (2 ^ 24) with (256 * 256 * 256). change (2 ^ 16) with (256 * 256).
  change (2 ^ 8) with 256. change (2 ^ 32) with (256 * 256 * 256 * 256) in Hr.
  rewrite <- !Z.div_div by lia.
  pose proof (Z.div_mod id 256 ltac:(lia)) as H0.
  pose proof (Z.div_mod (id / 256) 256 ltac:(lia)) as H1.
  pose proof (Z.div_mod (id / 256 / 256) 256 ltac:(lia)) as H2.
  assert (H3 : id / 256 / 256 / 256 < 256).
  { repeat (apply Z.div_lt_upper_bound; [lia|]). lia. }
  assert (0 <= id / 256 / 256 / 256) by (repeat apply Z.div_pos; lia).
  rewrite (Z.mod_small (id / 256 / 256 / 256)) by lia.
  lia.
Qed.

(** C5: readMessageTypeId fails on the empty buffer; a non-zero first byte
    is the id (1 to 255) and the rest is everything behind it; with a zero
    first byte it fails below 5 bytes and otherwise returns the big-endian
    unsigned 32-bit number in bytes 1 to 4, any 32-bit value, with the rest
    behind the fifth byte; [00 00 00 04 D2 AA] gives id 1234 and rest [AA]. *)
Theorem readMessageTypeId_framing :
  readMessageTypeId [] = Throw (ErrorOf "Empty message")
  /\ (forall first rest,
        u8 first <> 0 ->
        readMessageTypeId (first :: rest) = Ok (u8 first, rest)
        /\ 1 <= u8 first <= 255)
  /\ (forall rest,
        blength (x00 :: rest) < 5 ->
        readMessageTypeId (x00 :: rest)
        = Throw (ErrorOf "Message too short for long ID"))
  /\ (forall b1 b2 b3 b4 rest,
        readMessageTypeId (x00 :: b1 :: b2 :: b3 :: b4 :: rest)
        = Ok (u8 b1 * 2 ^ 24 + u8 b2 * 2 ^ 16 + u8 b3 * 2 ^ 8 + u8 b4, rest))
  /\ (forall id rest,
        0 <= id < 2 ^ 32 ->
        exists b1 b2 b3 b4,
          readMessageTypeId (x00 :: b1 :: b2 :: b3 :: b4 :: rest) = Ok (id, rest))
  /\ readMessageTypeId [x00; x00; x00; x04; xd2; xaa] = Ok (1234, [xaa]).
Proof.
  split; [reflexivity|]. split; [|split; [|split; [|split]]].
  - intros first rest Hnz. split; [now apply readMessageTypeId_short|].
    pose proof (u8_range first). lia.
  - apply readMessageTypeId_too_short.
  - apply readMessageTypeId_long.
  - intros id rest Hid.
    exists (to_u8 (id / 2 ^ 24)), (to_u8 (id / 2 ^ 16)), (to_u8 (id / 2 ^ 8)),
           (to_u8 id).
    rewrite readMessageTypeId_long. now rewrite uint32be_value.
  - reflexivity.
Qed.

Lemma readMessageTypeId_framing_witness :
  (u8 x02 <> 0
   /\ readMessageTypeId [x02; xaa; xbb] = Ok (2, [xaa; xbb]))
  /\ (blength [x00; x01; x02] < 5
      /\ readMessageTypeId [x00; x01; x02]
         = Throw (ErrorOf "Message too short for long ID"))
  /\ (0 <= 7 < 2 ^ 32
      /\ exists b1 b2 b3 b4,
           readMessageTypeId [x00; b1; b2; b3; b4; xaa] = Ok (7, [xaa])).
Proof.
  assert (H1 : u8 x02 <> 0) by (vm_compute; discriminate).
  assert (H2 : blength [x00; x01; x02] < 5) by (vm_compute; reflexivity).
  assert (H3 : 0 <= 7 < 2 ^ 32) by (vm_compute; split; [discriminate|reflexivity]).
  split; [|split].
  - split; [exact H1|].
    exact (proj1 (proj1 (proj2 readMessageTypeId_framing) x02 [xaa; xbb] H1)).
  - split; [exact H2|].
    exact (proj1 (proj2 (proj2 readMessageTypeId_framing)) [x01; x02] H2).
  - split; [exact H3|].
    exact (proj1 (proj2 (proj2 (proj2 (proj2 readMessageTypeId_framing))))
             7 [xaa] H3).
Defined.

(* ------------------------------------------------------------------ *)
(** ** Dispatch *)
(* ------------------------------------------------------------------ *)

Section Dispatch.

Context {Other : Type}.
Variable E : Externals Other.

Lemma decodePayload_try_default (messageId : Z) (payload : Buffer)
  (network : Network) :
  forallb (fun k => negb (k =? messageId)) (map fst (decoder_table E)) = true ->
  decodePayload_try E messageId payload network
  = Ok (UnknownPayload (toString_hex payload) None).
Proof.
  intros H. destruct messageId as [|p|p]; [reflexivity| |reflexivity].
  do 8 (try (destruct p as [p|p|]; try reflexivity;
             try (vm_compute in H; discriminate H))).
Qed.

Lemma find_decoder_none (table : list (Z * decoder Other)) (messageId : Z) :
  find_decoder table messageId = None ->
  forallb (fun k => negb (k =? messageId)) (map fst table) = true.
Proof.
  induction table as [|[k d] table IH]; intros H; [reflexivity|].
  cbn [find_decoder] in H. cbn [map fst forallb].
  destruct (k =? messageId); [discriminate|]. cbn [negb andb]. now apply IH.
Qed.

Lemma decoder_table_ids :
  map fst (decoder_table E)
  = [2; 4; 10; 11; 12; 13; 20; 21; 22; 23; 30; 50; 70; 90; 91; 101; 102; 110].
Proof. reflexivity. Qed.

Lemma find_decoder_some (messageId : Z) (decode : decoder Other)
  (payload : Buffer) (network : Network) :
  find_decoder (decoder_table E) messageId = Some decode ->
  decodePayload_try E messageId payload network = decode payload network.
Proof.
  unfold decoder_table. cbn [find_decoder].
  repeat match goal with
         | |- context [?k =? messageId] =>
             destruct (Z.eqb_spec k messageId) as [<-|_];
             [intros [= <-]; reflexivity|]
         end.
  discriminate.
Qed.

(** C1: decodePayload returns a payload for every id and buffer. When the
    id is in the decoder table and its decoder raises, the result is the
    Unknown payload with the hex of the buffer and the text of the failure:
    the message of a thrown Error as it was given, the engine's own message
    for an error the engine raised, and the marker "Unknown error" for a
    thrown value that is no Error. When the decoder returns, that is the
    result; when the id is not in the table, the result is the Unknown
    payload with the hex and no error. So the dispense decoder's message on
    the byte 01 arrives word for word. *)
Theorem decodePayload_total (messageId : Z) (payload : Buffer)
  (network : Network) :
  (In messageId
      [2; 4; 10; 11; 12; 13; 20; 21; 22; 23; 30; 50; 70; 90; 91; 101; 102; 110]
   <-> find_decoder (decoder_table E) messageId <> None)
  /\ match find_decoder (decoder_table E) messageId with
     | Some decode =>
         match decode payload network with
         | Ok decoded => decodePayload E messageId payload network = decoded
         | Throw (ErrorOf message) =>
             decodePayload E messageId payload network
             = UnknownPayload (toString_hex payload) (Some message)
         | Throw (EngineError f) =>
             decodePayload E messageId payload network
             = UnknownPayload (toString_hex payload) (Some (engine_message E f))
         | Throw NonError =>
             decodePayload E messageId payload network
             = UnknownPayload (toString_hex payload)
                 (Some "Unknown error"%string)
         end
     | None =>
         decodePayload E messageId payload network
         = UnknownPayload (toString_hex payload) None
     end
  /\ decodePayload E 13 [x01] network
     = UnknownPayload "01"
         (Some "Invalid dispense payload: expected 0x00"%string).
Proof.
  split; [|split].
  - rewrite <- decoder_table_ids. generalize (decoder_table E) as table.
    induction table as [|[k d] table IH]; cbn [map fst In find_decoder].
    + split; [intros []|intros H; now apply H].
    + destruct (Z.eqb_spec k messageId) as [->|Hne].
      * split; [discriminate|now left].
      * rewrite <- IH. split; [intros [H|H]; [contradiction|exact H]|now right].
  - unfold decodePayload.
    destruct (find_decoder (decoder_table E) messageId) as [decode|] eqn:Hf.
    + rewrite (find_decoder_some _ _ payload network Hf).
      destruct (decode payload network) as [decoded|[message|f|]]; reflexivity.
    + now rewrite decodePayload_try_default by now apply find_decoder_none.
  - reflexivity.
Qed.

End Dispatch.

(* ------------------------------------------------------------------ *)
(** ** The OP_RETURN carrier *)
(* ------------------------------------------------------------------ *)

Lemma equals_spec (a : Buffer) : forall b, equals a b = true <-> a = b.
Proof.
  induction a as [|x a IH]; intros [|y b]; cbn [equals]; split;
    try discriminate; try reflexivity.
  - intros H. apply andb_prop in H. destruct H as [Hx Ha].
    apply Byte.byte_dec_bl in Hx. apply IH in Ha. now subst.
  - intros [= -> ->]. unfold byte_eqb. rewrite Byte.byte_dec_lb by reflexivity.
    now apply IH.
Qed.

Lemma equals_false (a b : Buffer) : a <> b -> equals a b = false.
Proof.
  intros H. destruct (equals a b) eqn:E; [|reflexivity].
  apply equals_spec in E. contradiction.
Qed.

Lemma is_byte_spec (o : option Z) (v : Z) : is_byte o v = true <-> o = Some v.
Proof.
  destruct o as [x|]; cbn [is_byte]; split; try discriminate.
  - intros H. apply Z.eqb_eq in H. now subst.
  - intros [= ->]. apply Z.eqb_refl.
Qed.

Section OpReturn.

Context {Other : Type}.
Variable E : Externals Other.

(** C6: parse_op_return gives the no-match result when the script is empty
    or does not start with 0x6a. On an OP_RETURN script, a candidate equal to
    the 8-byte magic gives the fixed taproot_commit message (id 0, data
    CNTRPRTY); any other candidate whose RC4 decryption under the txid bytes
    does not start with the magic, or is the magic alone, gives the no-match
    result. *)
Theorem parse_op_return_no_match (scriptBuffer : Buffer)
  (firstInputTxid : string) (network : Network) :
  let candidate := op_return_candidate scriptBuffer in
  let decrypted :=
    RC4.rc4Decrypt (Buffer_from_hex firstInputTxid) candidate in
  (scriptBuffer = [] \/ byte_at scriptBuffer 0 <> Some 0x6a ->
   parse_op_return E scriptBuffer firstInputTxid network = None)
  /\ (byte_at scriptBuffer 0 = Some 0x6a ->
      candidate = PREFIX_BYTES ->
      parse_op_return E scriptBuffer firstInputTxid network
      = Some {| message_name := "taproot_commit";
                message_id := 0;
                params := TaprootCommitPayload "CNTRPRTY" |})
  /\ (byte_at scriptBuffer 0 = Some 0x6a ->
      candidate <> PREFIX_BYTES ->
      firstn 8 decrypted <> PREFIX_BYTES \/ decrypted = PREFIX_BYTES ->
      parse_op_return E scriptBuffer firstInputTxid network = None).
Proof.
  intros candidate decrypted.
  unfold parse_op_return, parse_op_return_try.
  fold (op_return_candidate scriptBuffer). fold candidate. fold decrypted.
  split; [|split].
  - intros [->|Hb]; [reflexivity|].
    destruct (is_byte (byte_at scriptBuffer 0) 106) eqn:Ei.
    + apply is_byte_spec in Ei. contradiction.
    + now rewrite orb_true_r.
  - intros Hb Hc.
    assert (Hn : (blength scriptBuffer =? 0) = false).
    { destruct scriptBuffer; [discriminate Hb|]. rewrite blength_cons.
      apply Z.eqb_neq. pose proof (blength_nonneg scriptBuffer). lia. }
    rewrite Hn, (proj2 (is_byte_spec _ _) Hb). cbn [negb orb].
    rewrite (proj2 (equals_spec _ _) Hc). reflexivity.
  - intros Hb Hc Hd.
    assert (Hn : (blength scriptBuffer =? 0) = false).
    { destruct scriptBuffer; [discriminate Hb|]. rewrite blength_cons.
      apply Z.eqb_neq. pose proof (blength_nonneg scriptBuffer). lia. }
    rewrite Hn, (proj2 (is_byte_spec _ _) Hb). cbn [negb orb].
    rewrite (equals_false _ _ Hc).
    change (subarray decrypted 0 8) with (firstn 8 decrypted).
    destruct Hd as [Hd|Hd].
    + now rewrite (equals_false _ _ Hd).
    + rewrite Hd. reflexivity.
Qed.

End OpReturn.

Lemma parse_op_return_no_match_witness :
  (byte_at [x51; x01; x00] 0 <> Some 0x6a
   /\ parse_op_return Reference.env [x51; x01; x00] "00ff" Reference.bitcoin
      = None)
  /\ (op_return_candidate (x6a :: x08 :: PREFIX_BYTES) = PREFIX_BYTES
      /\ parse_op_return Reference.env (x6a :: x08 :: PREFIX_BYTES) "00ff"
           Reference.bitcoin
         = Some {| message_name := "taproot_commit";
                   message_id := 0;
                   params := TaprootCommitPayload "CNTRPRTY" |})
  /\ (RC4.rc4Decrypt (Buffer_from_hex "00ff")
        (op_return_candidate
           (x6a :: x08 :: RC4.rc4Decrypt (Buffer_from_hex "00ff") PREFIX_BYTES))
      = PREFIX_BYTES
      /\ parse_op_return Reference.env
           (x6a :: x08 :: RC4.rc4Decrypt (Buffer_from_hex "00ff") PREFIX_BYTES)
           "00ff" Reference.bitcoin
         = None).
Proof.
  assert (H1 : byte_at [x51; x01; x00] 0 <> Some 0x6a)
    by (vm_compute; discriminate).
  assert (H2 : byte_at (x6a :: x08 :: PREFIX_BYTES) 0 = Some 0x6a)
    by reflexivity.
  assert (H3 : op_return_candidate (x6a :: x08 :: PREFIX_BYTES) = PREFIX_BYTES)
    by reflexivity.
  pose (script := x6a :: x08 :: RC4.rc4Decrypt (Buffer_from_hex "00ff") PREFIX_BYTES).
  assert (H4 : byte_at script 0 = Some 0x6a) by reflexivity.
  assert (H5 : op_return_candidate script <> PREFIX_BYTES)
    by (vm_compute; discriminate).
  assert (H6 : RC4.rc4Decrypt (Buffer_from_hex "00ff")
                 (op_return_candidate script) = PREFIX_BYTES)
    by (vm_compute; reflexivity).
  split; [|split].
  - split; [exact H1|].
    exact (proj1 (parse_op_return_no_match Reference.env [x51; x01; x00]
                    "00ff" Reference.bitcoin) (or_intror H1)).
  - split; [exact H3|].
    exact (proj1 (proj2 (parse_op_return_no_match Reference.env
                           (x6a :: x08 :: PREFIX_BYTES) "00ff"
                           Reference.bitcoin)) H2 H3).
  - split; [exact H6|].
    exact (proj2 (proj2 (parse_op_return_no_match Reference.env script
                           "00ff" Reference.bitcoin)) H4 H5 (or_intror H6)).
Defined.

(* ------------------------------------------------------------------ *)
(** ** Message type 3 *)
(* ------------------------------------------------------------------ *)

Section TypeThree.

Context {Other : Type}.
Variable E : Externals Other.

Lemma framed_nonempty (message payload : Buffer) (id : Z) :
  readMessageTypeId message = Ok (id, payload) -> (blength message =? 0) = false.
Proof.
  destruct message; [discriminate|]. intros _. rewrite blength_cons.
  apply Z.eqb_neq. pose proof (blength_nonneg message). lia.
Qed.

Lemma parse_message_mpma (message payload : Buffer) (network : Network) :
  readMessageTypeId message = Ok (3, payload) ->
  parse_message E message network
  = Ok (Some {| message_name := "mpma_send";
                message_id := 3;
                params := UnknownPayload (toString_hex payload) None |}).
Proof. intros H. unfold parse_message. rewrite H. reflexivity. Qed.

(** C10: a message that was extracted and framed with type id 3 is
    returned by both parsers under the name mpma_send, with the Unknown
    payload holding the hex of the payload and no error: the registry knows
    id 3, the decoder table does not. *)
Theorem mpma_send_is_named_but_raw (message payload : Buffer)
  (network : Network) :
  readMessageTypeId message = Ok (3, payload) ->
  let parsed :=
    Some {| message_name := "mpma_send";
            message_id := 3;
            params := UnknownPayload (Other := Other)
                        (toString_hex payload) None |} in
  find_decoder (decoder_table E) 3 = None
  /\ (forall scriptBuffer firstInputTxid,
        byte_at scriptBuffer 0 = Some 0x6a ->
        op_return_candidate scriptBuffer <> PREFIX_BYTES ->
        RC4.rc4Decrypt (Buffer_from_hex firstInputTxid)
          (op_return_candidate scriptBuffer) = PREFIX_BYTES ++ message ->
        parse_op_return E scriptBuffer firstInputTxid network = parsed)
  /\ (forall revealTxHex witnessScript,
        extractWitnessScript E (Buffer_from_hex revealTxHex)
        = Some witnessScript ->
        extractFromEnvelope E witnessScript = Some message ->
        parse_reveal_tx E revealTxHex network = parsed).
Proof.
  intros Hread parsed. pose proof (framed_nonempty _ _ _ Hread) as Hne.
  split; [reflexivity|]. split.
  - intros scriptBuffer firstInputTxid Hb Hc Hd.
    unfold parse_op_return, parse_op_return_try.
    fold (op_return_candidate scriptBuffer).
    assert (Hn : (blength scriptBuffer =? 0) = false).
    { destruct scriptBuffer; [discriminate Hb|]. rewrite blength_cons.
      apply Z.eqb_neq. pose proof (blength_nonneg scriptBuffer). lia. }
    rewrite Hn, (proj2 (is_byte_spec _ _) Hb). cbn [negb orb].
    rewrite (equals_false _ _ Hc), Hd.
    change (subarray (PREFIX_BYTES ++ message) 0 8) with PREFIX_BYTES.
    change (subarray_from (PREFIX_BYTES ++ message) 8) with message.
    change (equals PREFIX_BYTES PREFIX_BYTES) with true. cbn [negb].
    rewrite Hne, (parse_message_mpma _ _ _ Hread). reflexivity.
  - intros revealTxHex witnessScript Hw He.
    unfold parse_reveal_tx. rewrite Hw, He, Hne.
    rewrite (parse_message_mpma _ _ _ Hread). reflexivity.
Qed.

End TypeThree.

Lemma mpma_send_is_named_but_raw_witness :
  let key := "54686973206973206120313620627974"%string in
  let script :=
    x6a :: x0b
    :: RC4.rc4Decrypt (Buffer_from_hex key) (PREFIX_BYTES ++ [x03; xaa; xbb]) in
  let tx :=
    toString_hex (Reference.reveal_tx [x00; x63; x03; x03; xaa; xbb; x68]) in
  let parsed :=
    Some {| message_name := "mpma_send";
            message_id := 3;
            params := UnknownPayload (Other := Empty_set) "aabb" None |} in
  readMessageTypeId [x03; xaa; xbb] = Ok (3, [xaa; xbb])
  /\ parse_op_return Reference.env script key Reference.bitcoin = parsed
  /\ parse_reveal_tx Reference.env tx Reference.bitcoin = parsed.
Proof.
  intros key script tx parsed.
  assert (Hread : readMessageTypeId [x03; xaa; xbb] = Ok (3, [xaa; xbb]))
    by reflexivity.
  assert (Hb : byte_at script 0 = Some 0x6a) by reflexivity.
  assert (Hc : op_return_candidate script <> PREFIX_BYTES)
    by (vm_compute; discriminate).
  assert (Hd : RC4.rc4Decrypt (Buffer_from_hex key) (op_return_candidate script)
               = PREFIX_BYTES ++ [x03; xaa; xbb])
    by (vm_compute; reflexivity).
  assert (Hw : extractWitnessScript Reference.env (Buffer_from_hex tx)
               = Some [x00; x63; x03; x03; xaa; xbb; x68])
    by (vm_compute; reflexivity).
  assert (He : extractFromEnvelope Reference.env
                 [x00; x63; x03; x03; xaa; xbb; x68] = Some [x03; xaa; xbb])
    by (vm_compute; reflexivity).
  pose proof (mpma_send_is_named_but_raw Reference.env [x03; xaa; xbb]
                [xaa; xbb] Reference.bitcoin Hread) as [_ [Hop Hrev]].
  split; [exact Hread|]. split.
  - exact (Hop script key Hb Hc Hd).
  - exact (Hrev tx _ Hw He).
Defined.

(* ------------------------------------------------------------------ *)
(** ** The address codec *)
(* ------------------------------------------------------------------ *)

Lemma hex_byte_roundtrip (b : byte) (s : string) :
  Buffer_from_hex (byte_hex b ++ s) = b :: Buffer_from_hex s.
Proof.
  assert (H : exists c1 c2 x y,
             byte_hex b = String c1 (String c2 EmptyString)
             /\ hex_value c1 = Some x /\ hex_value c2 = Some y
             /\ to_u8 (16 * x + y) = b).
  { destruct b; do 4 eexists; repeat split; vm_compute; reflexivity. }
  destruct H as (c1 & c2 & x & y & -> & H1 & H2 & H3).
  cbn [append Buffer_from_hex]. now rewrite H1, H2, H3.
Qed.

(** [Buffer.from(buf.toString('hex'), 'hex')] is [buf]. *)
Lemma hex_roundtrip (buf : Buffer) : Buffer_from_hex (toString_hex buf) = buf.
Proof.
  induction buf as [|b buf IH]; [reflexivity|].
  cbn [toString_hex]. now rewrite hex_byte_roundtrip, IH.
Qed.

Lemma is_byte_neq (x v : Z) : x <> v -> is_byte (Some x) v = false.
Proof. intros H. cbn [is_byte]. now apply Z.eqb_neq. Qed.

Section AddressCodec.

Context {Other : Type}.
Variable E : Externals Other.

Lemma shortAddress_too_short (network : Network) (buffer : Buffer) :
  blength buffer < 2 ->
  shortAddressBytesToAddress E (toString_hex buffer) network
  = ("0x" ++ toString_hex buffer)%string.
Proof.
  intros H. unfold shortAddressBytesToAddress, shortAddress_try.
  rewrite hex_roundtrip.
  destruct (blength buffer <? 2) eqn:El; [reflexivity|].
  apply Z.ltb_ge in El. lia.
Qed.

Lemma shortAddress_tagged (network : Network) (tag : byte) (data : Buffer) :
  blength (tag :: data) >= 2 ->
  shortAddressBytesToAddress E (toString_hex (tag :: data)) network
  = try_or
      (let fallback := ("0x" ++ toString_hex (tag :: data))%string in
       let firstByte := Some (u8 tag) in
       if is_byte firstByte 0x01 then
         let* address := p2pkh E data network in Ok (address_or address fallback)
       else if is_byte firstByte 0x02 then
         let* address := p2sh E data network in Ok (address_or address fallback)
       else if is_byte firstByte 0x03 then
         if blength data >=? 2 then
           let witnessVersion := byte_at data 0 in
           let witnessProgram := subarray_from data 1 in
           if is_byte witnessVersion 0 && (blength witnessProgram =? 20) then
             let* address := p2wpkh E witnessProgram network in
             Ok (address_or address fallback)
           else if is_byte witnessVersion 0 && (blength witnessProgram =? 32) then
             let* address := p2wsh E witnessProgram network in
             Ok (address_or address fallback)
           else if is_byte witnessVersion 1 && (blength witnessProgram =? 32) then
             let* address := p2tr E witnessProgram network in
             Ok (address_or address fallback)
           else Ok fallback
         else Ok fallback
       else
         let legacy :=
           if is_byte firstByte (pubKeyHash network) then
             let* address := p2pkh E data network in
             Ok (address_or address fallback)
           else if is_byte firstByte (scriptHash network) then
             let* address := p2sh E data network in
             Ok (address_or address fallback)
           else Ok fallback in
         if byte_between 0x80 firstByte 0x8f then
           let witnessVersion := Some (u8 tag - 0x80) in
           if is_byte witnessVersion 0 && (blength data =? 20) then
             let* address := p2wpkh E data network in
             Ok (address_or address fallback)
           else if is_byte witnessVersion 0 && (blength data =? 32) then
             let* address := p2wsh E data network in
             Ok (address_or address fallback)
           else if is_byte witnessVersion 1 && (blength data =? 32) then
             let* address := p2tr E data network in
             Ok (address_or address fallback)
           else legacy
         else legacy)
      ("0x" ++ toString_hex (tag :: data))%string.
Proof.
  intros H. unfold shortAddressBytesToAddress, shortAddress_try.
  rewrite hex_roundtrip.
  destruct (blength (tag :: data) <? 2) eqn:El;
    [apply Z.ltb_lt in El; lia|].
  reflexivity.
Qed.

Lemma witness_pair_false (version len : Z) :
  witness_pair_ok version len = false ->
  is_byte (Some version) 0 && (len =? 20) = false
  /\ is_byte (Some version) 0 && (len =? 32) = false
  /\ is_byte (Some version) 1 && (len =? 32) = false.
Proof.
  unfold witness_pair_ok. cbn [is_byte]. intros H.
  apply orb_false_elim in H. destruct H as [H H3].
  apply orb_false_elim in H. destruct H as [H1 H2]. auto.
Qed.

(** C4 (amended): shortAddressBytesToAddress returns "0x" followed by the
    hex of the input when the input has fewer than 2 bytes; when its tag is
    none of 0x01, 0x02, 0x03, 0x80-0x8F, the network's pubkey-hash byte and
    script-hash byte; when the tag is 0x03 and the (witness version, program
    length) pair is none of (0,20), (0,32), (1,32); and when the tag is a
    segwit marker with such a pair that is neither the network's pubkey-hash
    byte nor its script-hash byte. *)
Theorem shortAddress_fallback (network : Network) (buffer : Buffer) :
  fallback_input network buffer ->
  shortAddressBytesToAddress E (toString_hex buffer) network
  = ("0x" ++ toString_hex buffer)%string.
Proof.
  intros [buf Hs | tag data Ht | version program Hp | tag data Hr Hp Hk Hh].
  - now apply shortAddress_too_short.
  - destruct (Z_lt_ge_dec (blength (tag :: data)) 2) as [Hl|Hl];
      [now apply shortAddress_too_short|].
    rewrite shortAddress_tagged by exact Hl.
    destruct Ht as (H1 & H2 & H3 & Hm & Hk & Hh).
    cbv zeta.
    assert (Hb : byte_between 128 (Some (u8 tag)) 143 = false).
    { cbn [byte_between]. apply andb_false_iff.
      destruct (Z_le_gt_dec 128 (u8 tag)); [right|left];
        [apply Z.leb_gt|apply Z.leb_gt]; lia. }
    now rewrite (is_byte_neq _ _ H1), (is_byte_neq _ _ H2),
      (is_byte_neq _ _ H3), (is_byte_neq _ _ Hk), (is_byte_neq _ _ Hh), Hb.
  - destruct (Z_lt_ge_dec (blength (x03 :: version :: program)) 2) as [Hl|Hl];
      [now apply shortAddress_too_short|].
    rewrite shortAddress_tagged by exact Hl. cbv zeta.
    change (is_byte (Some (u8 x03)) 1) with false.
    change (is_byte (Some (u8 x03)) 2) with false.
    change (is_byte (Some (u8 x03)) 3) with true. cbv iota.
    change (byte_at (version :: program) 0) with (Some (u8 version)).
    change (subarray_from (version :: program) 1) with program.
    destruct (witness_pair_false _ _ Hp) as (-> & -> & ->).
    now destruct (blength (version :: program) >=? 2).
  - destruct (Z_lt_ge_dec (blength (tag :: data)) 2) as [Hl|Hl];
      [now apply shortAddress_too_short|].
    rewrite shortAddress_tagged by exact Hl. cbv zeta.
    rewrite (is_byte_neq (u8 tag) 1), (is_byte_neq (u8 tag) 2),
      (is_byte_neq (u8 tag) 3), (is_byte_neq _ _ Hk), (is_byte_neq _ _ Hh)
      by lia.
    destruct (witness_pair_false _ _ Hp) as (-> & -> & ->).
    now destruct (byte_between 128 (Some (u8 tag)) 143).
Qed.

End AddressCodec.

Lemma shortAddress_fallback_witness :
  fallback_input Reference.bitcoin [x03; x00; xab]
  /\ shortAddressBytesToAddress Reference.env (toString_hex [x03; x00; xab])
       Reference.bitcoin
     = "0x0300ab"%string.
Proof.
  assert (H : fallback_input Reference.bitcoin [x03; x00; xab])
    by (apply bad_tagged_program; reflexivity).
  split; [exact H|].
  exact (shortAddress_fallback Reference.env Reference.bitcoin _ H).
Defined.

(** The claim as stated fails when a segwit marker is also the network's
    pubkey-hash byte: with version byte 0x8c, the 21 bytes [8c 00 ... 00]
    carry witness version 12 and a 20-byte program, an invalid pair, and are
    encoded as a Base58Check address. *)
Lemma shortAddress_marker_legacy_counterexample :
  let network := {| pubKeyHash := 0x8c; scriptHash := 0x13; bech32 := "tb" |} in
  let buffer := x8c :: repeat x00 20 in
  claimed_fallback_input network buffer
  /\ shortAddressBytesToAddress Reference.env (toString_hex buffer) network
     <> ("0x" ++ toString_hex buffer)%string.
Proof.
  split.
  - apply claimed_bad_program. right. exists x8c, (repeat x00 20).
    split; [reflexivity|]. split; [|reflexivity].
    vm_compute. split; discriminate.
  - vm_compute. discriminate.
Qed.

(* ------------------------------------------------------------------ *)
(** ** Scanning an envelope *)
(* ------------------------------------------------------------------ *)

Lemma byte_at_app (pre l : Buffer) (k : Z) :
  0 <= k -> byte_at (pre ++ l) (blength pre + k) = byte_at l k.
Proof.
  intros Hk. unfold byte_at, blength.
  destruct (Z.of_nat (List.length pre) + k <? 0) eqn:E1;
    [apply Z.ltb_lt in E1; lia|].
  destruct (k <? 0) eqn:E2; [apply Z.ltb_lt in E2; lia|].
  rewrite Z2Nat.inj_add, Nat2Z.id by lia.
  rewrite nth_error_app2 by lia. f_equal. f_equal. lia.
Qed.

Lemma byte_at_here (pre : Buffer) (b : byte) (l : Buffer) :
  byte_at (pre ++ b :: l) (blength pre) = Some (u8 b).
Proof.
  rewrite <- (Z.add_0_r (blength pre)), byte_at_app by lia. reflexivity.
Qed.

Lemma skipn_past (pre l : Buffer) (k : Z) :
  0 <= k -> skipn (Z.to_nat (blength pre + k)) (pre ++ l) = skipn (Z.to_nat k) l.
Proof.
  intros Hk. unfold blength. rewrite Z2Nat.inj_add, Nat2Z.id by lia.
  rewrite skipn_app, skipn_all2 by lia. cbn [app]. f_equal. lia.
Qed.

Lemma subarray_chunk (pre hdr chunk rest : Buffer) :
  subarray (pre ++ hdr ++ chunk ++ rest) (blength pre + blength hdr)
    (blength pre + blength hdr + blength chunk) = chunk.
Proof.
  unfold subarray.
  rewrite skipn_past by apply blength_nonneg.
  replace (blength pre + blength hdr + blength chunk
           - (blength pre + blength hdr)) with (blength chunk) by lia.
  unfold blength. rewrite !Nat2Z.id, skipn_app, skipn_all, Nat.sub_diag.
  cbn [app skipn]. rewrite firstn_app, firstn_all, Nat.sub_diag.
  cbn [firstn]. apply app_nil_r.
Qed.

Lemma fold_be (bs : list byte) :
  forall acc,
    fold_left (fun acc b => acc * 256 + u8 b) bs acc
    = acc * 256 ^ Z.of_nat (List.length bs) + be_value bs.
Proof.
  unfold be_value. induction bs as [|b bs IH]; intros acc.
  - cbn. lia.
  - cbn [fold_left List.length]. rewrite IH, (IH (0 * 256 + u8 b)).
    rewrite Nat2Z.inj_succ, Z.pow_succ_r by lia. lia.
Qed.

Lemma length_be_bytes (n : nat) (v : Z) : List.length (be_bytes n v) = n.
Proof. induction n; cbn [be_bytes List.length]; congruence. Qed.

Lemma be_value_be_bytes (n : nat) (v : Z) :
  be_value (be_bytes n v) = v mod 256 ^ Z.of_nat n.
Proof.
  induction n as [|n IH].
  - cbn. now rewrite Z.mod_1_r.
  - cbn [be_bytes]. unfold be_value. cbn [fold_left].
    rewrite fold_be, IH, length_be_bytes, u8_to_u8.
    rewrite Nat2Z.inj_succ, Z.pow_succ_r by lia.
    rewrite (Z.mul_comm 256), Z.rem_mul_r by lia. lia.
Qed.

Lemma readUIntLE_here (pre rest : Buffer) (n : nat) (v : Z) :
  0 <= v < 256 ^ Z.of_nat n ->
  readUIntLE (pre ++ le_bytes n v ++ rest) (blength pre) n = Some v.
Proof.
  intros Hv. unfold readUIntLE.
  assert (Hl : List.length (le_bytes n v) = n).
  { unfold le_bytes. now rewrite length_rev, length_be_bytes. }
  destruct (blength pre <? 0) eqn:E0;
    [apply Z.ltb_lt in E0; pose proof (blength_nonneg pre); lia|].
  destruct (blength (pre ++ le_bytes n v ++ rest) <? blength pre + Z.of_nat n)
    eqn:E1.
  { apply Z.ltb_lt in E1. rewrite !blength_app in E1. unfold blength in E1.
    rewrite Hl in E1. lia. }
  cbn [orb]. f_equal.
  rewrite <- (Z.add_0_r (blength pre)), skipn_past by lia.
  change (Z.to_nat 0) with 0%nat. cbn [skipn].
  rewrite <- Hl at 1. rewrite firstn_app, firstn_all.
  replace (List.length (le_bytes n v) - List.length (le_bytes n v))%nat
    with 0%nat by lia.
  cbn [firstn]. rewrite app_nil_r. unfold le_bytes.
  rewrite rev_involutive, be_value_be_bytes. now apply Z.mod_small.
Qed.

Lemma u8_of_length (l : Buffer) : blength l < 256 -> u8 (to_u8 (blength l)) = blength l.
Proof.
  intros H. rewrite u8_to_u8. apply Z.mod_small.
  pose proof (blength_nonneg l). lia.
Qed.

Lemma blength_le_bytes (n : nat) (v : Z) : blength (le_bytes n v) = Z.of_nat n.
Proof. unfold blength, le_bytes. now rewrite length_rev, length_be_bytes. Qed.

Ltac blen :=
  repeat (rewrite blength_app || rewrite blength_cons);
  change (blength (@nil byte)) with 0; lia.

Lemma offset_inside (pre : Buffer) (b : byte) (l : Buffer) :
  (blength pre <? blength (pre ++ b :: l)) = true.
Proof.
  apply Z.ltb_lt. rewrite blength_app, blength_cons.
  pose proof (blength_nonneg l). lia.
Qed.

Lemma is_byte_here (x v : Z) : x = v -> is_byte (Some x) v = true.
Proof. intros ->. apply Z.eqb_refl. Qed.

Lemma byte_between_in (lo x hi : Z) :
  lo <= x <= hi -> byte_between lo (Some x) hi = true.
Proof. intros H. cbn [byte_between]. apply andb_true_intro. split; apply Z.leb_le; lia. Qed.

Lemma byte_between_out (lo x hi : Z) :
  x < lo \/ hi < x -> byte_between lo (Some x) hi = false.
Proof.
  intros H. cbn [byte_between]. apply andb_false_iff.
  destruct H; [left|right]; apply Z.leb_gt; lia.
Qed.

(** One round of the generic scanner on a well-formed push. *)
Lemma generic_loop_push (fuel : nat) (pre rest : Buffer) (w : push_width)
  (chunk : Buffer) (acc : list Buffer) :
  fits w chunk ->
  generic_loop (S fuel) (pre ++ push w chunk ++ rest) (blength pre) acc
  = generic_loop fuel ((pre ++ push w chunk) ++ rest)
      (blength (pre ++ push w chunk)) (acc ++ [chunk]).
Proof.
  intros Hfit. pose proof (blength_nonneg chunk) as Hc.
  rewrite <- (app_assoc pre). rewrite (blength_app pre).
  destruct w; cbn [fits] in Hfit; cbn [push app generic_loop];
    rewrite offset_inside, byte_at_here.
  - rewrite u8_of_length by lia.
    rewrite is_byte_neq, byte_between_in by lia.
    rewrite blength_cons.
    change (to_u8 (blength chunk) :: chunk ++ rest)
      with ([to_u8 (blength chunk)] ++ chunk ++ rest).
    replace (blength pre + 1 + blength chunk)
      with (blength pre + blength [to_u8 (blength chunk)] + blength chunk)
      by reflexivity.
    change (blength pre + 1)
      with (blength pre + blength [to_u8 (blength chunk)]) at 1.
    rewrite subarray_chunk. f_equal. blen.
  - change (u8 x4c) with 76.
    rewrite is_byte_neq, byte_between_out, is_byte_here by lia.
    change (x4c :: to_u8 (blength chunk) :: chunk ++ rest)
      with ([x4c] ++ to_u8 (blength chunk) :: chunk ++ rest).
    rewrite app_assoc. change 1 with (blength [x4c]) at 1.
    rewrite <- blength_app, byte_at_here, u8_of_length by exact Hfit.
    rewrite <- app_assoc.
    change ([x4c] ++ to_u8 (blength chunk) :: chunk ++ rest)
      with ([x4c; to_u8 (blength chunk)] ++ chunk ++ rest).
    change (blength pre + 2)
      with (blength pre + blength [x4c; to_u8 (blength chunk)]).
    rewrite subarray_chunk. f_equal. blen.
  - change (u8 x4d) with 77.
    rewrite !is_byte_neq, byte_between_out, is_byte_here by lia.
    set (le := le_bytes 2 (blength chunk)).
    assert (Hle : blength le = 2) by apply blength_le_bytes.
    replace (pre ++ x4d :: (le ++ chunk) ++ rest)
      with ((pre ++ [x4d]) ++ le ++ chunk ++ rest)
      by (rewrite <- !app_assoc; reflexivity).
    replace (blength pre + 1) with (blength (pre ++ [x4d])) by blen.
    unfold le at 1. rewrite readUIntLE_here by (cbn; lia).
    cbn [checked bind]. fold le.
    replace ((pre ++ [x4d]) ++ le ++ chunk ++ rest)
      with (pre ++ ([x4d] ++ le) ++ chunk ++ rest)
      by (rewrite <- !app_assoc; reflexivity).
    replace (blength pre + 3) with (blength pre + blength ([x4d] ++ le)) by blen.
    rewrite subarray_chunk. f_equal. blen.
  - change (u8 x4e) with 78.
    rewrite !is_byte_neq, byte_between_out, is_byte_here by lia.
    set (le := le_bytes 4 (blength chunk)).
    assert (Hle : blength le = 4) by apply blength_le_bytes.
    replace (pre ++ x4e :: (le ++ chunk) ++ rest)
      with ((pre ++ [x4e]) ++ le ++ chunk ++ rest)
      by (rewrite <- !app_assoc; reflexivity).
    replace (blength pre + 1) with (blength (pre ++ [x4e])) by blen.
    unfold le at 1. rewrite readUIntLE_here by (cbn; lia).
    cbn [checked bind]. fold le.
    replace ((pre ++ [x4e]) ++ le ++ chunk ++ rest)
      with (pre ++ ([x4e] ++ le) ++ chunk ++ rest)
      by (rewrite <- !app_assoc; reflexivity).
    replace (blength pre + 5) with (blength pre + blength ([x4e] ++ le)) by blen.
    rewrite subarray_chunk. f_equal. blen.
Qed.

Lemma generic_loop_pushes (pushes : list (push_width * Buffer)) :
  forall pre post acc fuel,
    pushes_fit pushes -> (List.length pushes < fuel)%nat ->
    generic_loop fuel (pre ++ script_of pushes ++ x68 :: post) (blength pre) acc
    = Ok (acc ++ map snd pushes).
Proof.
  induction pushes as [|[w c] pushes IH]; intros pre post acc fuel Hfit Hfuel.
  - destruct fuel; [lia|]. cbn [script_of flat_map app generic_loop map].
    rewrite offset_inside, byte_at_here.
    change (is_byte (Some (u8 x68)) 104) with true. cbv iota.
    now rewrite app_nil_r.
  - destruct fuel; [cbn [List.length] in Hfuel; lia|].
    inversion Hfit as [|p ps Hw Hrest]; subst. cbn [fst snd] in Hw.
    cbn [script_of flat_map fst snd]. fold (script_of pushes).
    rewrite <- app_assoc, generic_loop_push by exact Hw.
    rewrite IH by (exact Hrest || (cbn [List.length] in Hfuel; lia)).
    cbn [map snd]. now rewrite <- app_assoc.
Qed.

(** One round of the ord/xcp scanner on a direct push or a PUSHDATA1. *)
Lemma ordxcp_loop_push (fuel : nat) (pre rest : Buffer) (w : push_width)
  (chunk : Buffer) (acc : list Buffer) :
  fits w chunk -> narrow w ->
  ordxcp_loop (S fuel) (pre ++ push w chunk ++ rest) (blength pre) acc
  = ordxcp_loop fuel ((pre ++ push w chunk) ++ rest)
      (blength (pre ++ push w chunk)) (acc ++ [chunk]).
Proof.
  intros Hfit Hn. pose proof (blength_nonneg chunk) as Hc.
  rewrite <- (app_assoc pre). rewrite (blength_app pre).
  destruct Hn as [-> | ->]; cbn [fits] in Hfit; cbn [push app ordxcp_loop];
    rewrite offset_inside, byte_at_here.
  - rewrite u8_of_length by lia.
    rewrite !is_byte_neq, byte_between_in by lia.
    rewrite blength_cons.
    change (to_u8 (blength chunk) :: chunk ++ rest)
      with ([to_u8 (blength chunk)] ++ chunk ++ rest).
    replace (blength pre + 1 + blength chunk)
      with (blength pre + blength [to_u8 (blength chunk)] + blength chunk)
      by reflexivity.
    change (blength pre + 1)
      with (blength pre + blength [to_u8 (blength chunk)]) at 1.
    rewrite subarray_chunk. f_equal. blen.
  - change (u8 x4c) with 76.
    rewrite !is_byte_neq, byte_between_out, is_byte_here by lia.
    change (x4c :: to_u8 (blength chunk) :: chunk ++ rest)
      with ([x4c] ++ to_u8 (blength chunk) :: chunk ++ rest).
    rewrite app_assoc. change 1 with (blength [x4c]) at 1.
    rewrite <- blength_app, byte_at_here, u8_of_length by exact Hfit.
    rewrite <- app_assoc.
    change ([x4c] ++ to_u8 (blength chunk) :: chunk ++ rest)
      with ([x4c; to_u8 (blength chunk)] ++ chunk ++ rest).
    change (blength pre + 2)
      with (blength pre + blength [x4c; to_u8 (blength chunk)]).
    rewrite subarray_chunk. f_equal. blen.
Qed.

Lemma ordxcp_loop_pushes (pushes : list (push_width * Buffer)) :
  forall pre post acc fuel,
    pushes_fit pushes -> pushes_narrow pushes ->
    (List.length pushes < fuel)%nat ->
    ordxcp_loop fuel (pre ++ script_of pushes ++ x68 :: post) (blength pre) acc
    = acc ++ map snd pushes.
Proof.
  induction pushes as [|[w c] pushes IH]; intros pre post acc fuel Hfit Hnar Hfuel.
  - destruct fuel; [lia|]. cbn [script_of flat_map app ordxcp_loop map].
    rewrite offset_inside, byte_at_here.
    change (is_byte (Some (u8 x68)) 104) with true. cbv iota.
    now rewrite app_nil_r.
  - destruct fuel; [cbn [List.length] in Hfuel; lia|].
    inversion Hfit as [|p ps Hw Hrest]; subst. cbn [fst snd] in Hw.
    inversion Hnar as [|p ps Hn Hnrest]; subst. cbn [fst] in Hn.
    cbn [script_of flat_map fst snd]. fold (script_of pushes).
    rewrite <- app_assoc, ordxcp_loop_push by assumption.
    rewrite IH by (assumption || (cbn [List.length] in Hfuel; lia)).
    cbn [map snd]. now rewrite <- app_assoc.
Qed.

Lemma push_nonempty (w : push_width) (chunk : Buffer) :
  fits w chunk ->
  exists opcode tail, push w chunk = opcode :: tail /\ 1 <= u8 opcode <= 78.
Proof.
  intros Hfit. destruct w; cbn [push]; eexists _, _; (split; [reflexivity|]);
    try (vm_compute; split; discriminate).
  cbn [fits] in Hfit. rewrite u8_of_length by lia. lia.
Qed.

Lemma length_script_of (pushes : list (push_width * Buffer)) :
  pushes_fit pushes -> (List.length pushes <= List.length (script_of pushes))%nat.
Proof.
  induction 1 as [|[w c] pushes Hw _ IH]; [cbn; lia|].
  cbn [script_of flat_map fst snd List.length]. fold (script_of pushes).
  destruct (push_nonempty w c Hw) as (b & tail & -> & _).
  cbn [app List.length]. rewrite length_app. lia.
Qed.

Lemma extractGenericEnvelope_pushes (pushes : list (push_width * Buffer)) :
  pushes_fit pushes ->
  extractGenericEnvelope (generic_envelope pushes) 2 = Some (chunks_of pushes).
Proof.
  intros Hfit. unfold extractGenericEnvelope, generic_envelope.
  change 2 with (blength [x00; x63]).
  rewrite generic_loop_pushes; [reflexivity|exact Hfit|].
  pose proof (length_script_of pushes Hfit).
  rewrite !length_app. cbn [List.length]. lia.
Qed.

Lemma toString_utf8_ascii (b : byte) (rest : Buffer) :
  u8 b <= 0x7F ->
  toString_utf8 (b :: rest) = String (ascii_of_byte b) (toString_utf8 rest).
Proof.
  intros H. unfold toString_utf8. cbn [utf8_run]. unfold utf8_lead.
  cbv zeta. destruct (u8 b <=? 127) eqn:E; [reflexivity|].
  apply Z.leb_gt in E. lia.
Qed.

Lemma opcode_is_not_ord (opcode : byte) (rest : Buffer) :
  1 <= u8 opcode <= 78 ->
  String.eqb (toString_utf8 (opcode :: rest)) "ord" = false.
Proof.
  intros H. rewrite toString_utf8_ascii by lia. cbn [String.eqb].
  destruct (Ascii.eqb_spec (ascii_of_byte opcode) "o") as [He|_];
    [|reflexivity].
  exfalso. destruct opcode; try discriminate He.
  change (u8 x6f) with 111 in H. lia.
Qed.

Section Envelopes.

Context {Other : Type}.
Variable E : Externals Other.

Lemma extractFromEnvelope_generic (pushes : list (push_width * Buffer)) :
  pushes_fit pushes ->
  extractFromEnvelope E (generic_envelope pushes)
  = match pushes with
    | [] => None
    | _ :: _ => Some (chunks_of pushes)
    end.
Proof.
  intros Hfit. destruct pushes as [|[w c] pushes]; [reflexivity|].
  unfold extractFromEnvelope. cbv zeta.
  rewrite (extractGenericEnvelope_pushes _ Hfit).
  inversion Hfit as [|p ps Hw Hrest]; subst. cbn [fst snd] in Hw.
  destruct (push_nonempty w c Hw) as (opcode & tail & Hp & Hop).
  assert (Hs : generic_envelope ((w, c) :: pushes)
               = x00 :: x63 :: opcode :: tail ++ script_of pushes ++ [x68]).
  { unfold generic_envelope. cbn [script_of flat_map fst snd].
    fold (script_of pushes). rewrite Hp, <- app_assoc. reflexivity. }
  rewrite Hs.
  set (rest := tail ++ script_of pushes ++ [x68]).
  assert (Hr : 1 <= blength rest).
  { unfold rest. rewrite !blength_app. change (blength [x68]) with 1.
    pose proof (blength_nonneg tail). pose proof (blength_nonneg (script_of pushes)).
    lia. }
  rewrite !blength_cons.
  destruct (1 + (1 + (1 + blength rest)) <? 4) eqn:E4;
    [apply Z.ltb_lt in E4; lia|].
  change (byte_at (x00 :: x63 :: opcode :: rest) 0) with (Some 0).
  change (byte_at (x00 :: x63 :: opcode :: rest) 1) with (Some 99).
  cbn [is_byte negb orb Z.eqb Pos.eqb].
  destruct (2 + 3 <=? 1 + (1 + (1 + blength rest))); [|reflexivity].
  change (subarray (x00 :: x63 :: opcode :: rest) 2 (2 + 3))
    with (opcode :: firstn 2 rest).
  now rewrite opcode_is_not_ord.
Qed.

Lemma extractFromEnvelope_ord (tail : Buffer) :
  let script :=
    x00 :: x63 :: x6f :: x72 :: x64 :: x07 :: x78 :: x63 :: x70 :: tail in
  extractFromEnvelope E script = extractOrdXcpEnvelope E script 9.
Proof.
  intros script. pose proof (blength_nonneg tail) as Ht.
  assert (Hlen : blength script = 9 + blength tail) by (unfold script; blen).
  unfold extractFromEnvelope. cbv zeta. rewrite Hlen.
  change (byte_at script 0) with (Some 0).
  change (byte_at script 1) with (Some 99).
  change (is_byte (Some 0) 0) with true.
  change (is_byte (Some 99) 99) with true.
  destruct (9 + blength tail <? 4) eqn:H4; [apply Z.ltb_lt in H4; lia|].
  cbn [negb orb]. cbv iota.
  destruct (2 + 3 <=? 9 + blength tail) eqn:H5; [|apply Z.leb_gt in H5; lia].
  change (subarray script 2 (2 + 3)) with [x6f; x72; x64].
  change (toString_utf8 [x6f; x72; x64]) with "ord"%string.
  change (String.eqb "ord" "ord") with true. cbv iota.
  change (byte_at script (2 + 3)) with (Some 7).
  change (is_byte (Some 7) 7) with true. cbv iota.
  destruct (2 + 3 + 1 + 3 <=? 9 + blength tail) eqn:H9;
    [|apply Z.leb_gt in H9; lia].
  change (subarray script (2 + 3 + 1) (2 + 3 + 1 + 3)) with [x78; x63; x70].
  change (toString_utf8 [x78; x63; x70]) with "xcp"%string.
  change (String.eqb "xcp" "xcp") with true. cbv iota.
  reflexivity.
Qed.

Lemma extractOrdXcpEnvelope_pushes (mimeType : Buffer)
  (pushes : list (push_width * Buffer)) :
  blength mimeType < 256 ->
  pushes_fit pushes -> pushes_narrow pushes ->
  extractFromEnvelope E (ordxcp_envelope mimeType pushes)
  = try_or (reframe E (chunks_of pushes) mimeType) None.
Proof.
  intros Hm Hfit Hnar.
  set (lenb := to_u8 (blength mimeType)).
  set (head := [x00; x63; x6f; x72; x64; x07; x78; x63; x70; x01]).
  assert (Hs : ordxcp_envelope mimeType pushes
               = head ++ [lenb] ++ mimeType ++ x05 :: script_of pushes ++ [x68])
    by reflexivity.
  rewrite Hs. unfold head at 1. cbn [app].
  rewrite (extractFromEnvelope_ord
             (x01 :: lenb :: mimeType ++ x05 :: script_of pushes ++ [x68])).
  unfold extractOrdXcpEnvelope. cbv zeta.
  change (x00 :: x63 :: x6f :: x72 :: x64 :: x07 :: x78 :: x63 :: x70 :: x01
          :: lenb :: mimeType ++ x05 :: script_of pushes ++ [x68])
    with (head ++ [lenb] ++ mimeType ++ x05 :: script_of pushes ++ [x68]).
  set (script := head ++ [lenb] ++ mimeType ++ x05 :: script_of pushes ++ [x68]).
  change (byte_at script 9) with (Some 1).
  change (is_byte (Some 1) 1) with true. cbv iota.
  change (byte_at script (9 + 1)) with (Some (u8 lenb)). cbv beta iota.
  assert (Hl : u8 lenb = blength mimeType) by (apply u8_of_length; exact Hm).
  rewrite Hl.
  assert (Hmime : subarray script (9 + 1 + 1) (9 + 1 + 1 + blength mimeType)
                  = mimeType)
    by apply (subarray_chunk head [lenb] mimeType).
  rewrite Hmime.
  set (pre := head ++ [lenb] ++ mimeType).
  replace (9 + 1 + 1 + blength mimeType) with (blength pre)
    by (unfold pre, head; blen).
  assert (Hscript : script = pre ++ x05 :: script_of pushes ++ [x68]).
  { unfold script, pre. now rewrite <- !app_assoc. }
  rewrite Hscript, byte_at_here.
  change (is_byte (Some (u8 x05)) 5) with true. cbv iota.
  replace (pre ++ x05 :: script_of pushes ++ [x68])
    with ((pre ++ [x05]) ++ script_of pushes ++ [x68])
    by (now rewrite <- app_assoc).
  replace (blength pre + 1) with (blength (pre ++ [x05])) by blen.
  rewrite ordxcp_loop_pushes; [reflexivity|exact Hfit|exact Hnar|].
  pose proof (length_script_of pushes Hfit).
  rewrite !length_app. cbn [List.length]. lia.
Qed.

End Envelopes.

(* ------------------------------------------------------------------ *)
(** ** Re-framing an ord/xcp envelope *)
(* ------------------------------------------------------------------ *)

Section Reframing.

Context {Other : Type}.
Variable E : Externals Other.

Lemma u8_of_small (id : Z) : 0 <= id < 256 -> u8 (to_u8 id) = id.
Proof. intros H. rewrite u8_to_u8. now apply Z.mod_small. Qed.

Lemma readMessageTypeId_long_form (id : Z) (body : Buffer) :
  0 <= id < 2 ^ 32 ->
  readMessageTypeId (x00 :: uint32be id ++ body) = Ok (id, body).
Proof.
  intros H. unfold uint32be. cbn [app].
  rewrite readMessageTypeId_long. now rewrite uint32be_value.
Qed.


(** The message a generic envelope carries, and
    so what parse_reveal_tx returns, depends on the concatenated chunks
    only, whatever width pushes each chunk. *)
Lemma parse_reveal_generic (revealTxHex : string) (network : Network)
  (pushes : list (push_width * Buffer)) :
  pushes_fit pushes ->
  extractWitnessScript E (Buffer_from_hex revealTxHex)
  = Some (generic_envelope pushes) ->
  parse_reveal_tx E revealTxHex network
  = try_or (if blength (chunks_of pushes) =? 0 then Ok None
            else parse_message E (chunks_of pushes) network) None.
Proof.
  intros Hfit Hw. unfold parse_reveal_tx.
  rewrite Hw, (extractFromEnvelope_generic E _ Hfit).
  destruct pushes; reflexivity.
Qed.

Lemma parse_reveal_ordxcp (revealTxHex : string) (network : Network)
  (mimeType : Buffer) (pushes : list (push_width * Buffer)) :
  blength mimeType < 256 -> pushes_fit pushes -> pushes_narrow pushes ->
  extractWitnessScript E (Buffer_from_hex revealTxHex)
  = Some (ordxcp_envelope mimeType pushes) ->
  parse_reveal_tx E revealTxHex network
  = try_or
      match try_or (reframe E (chunks_of pushes) mimeType) None with
      | None => Ok None
      | Some message =>
          if blength message =? 0 then Ok None
          else parse_message E message network
      end None.
Proof.
  intros Hm Hfit Hnar Hw. unfold parse_reveal_tx.
  now rewrite Hw, (extractOrdXcpEnvelope_pushes E _ _ Hm Hfit Hnar).
Qed.


End Reframing.





(* ------------------------------------------------------------------ *)
(** ** The scanners end within their fuel *)
(* ------------------------------------------------------------------ *)

Lemma byte_at_range (buf : Buffer) (i x : Z) :
  byte_at buf i = Some x -> 0 <= x < 256.
Proof.
  unfold byte_at. destruct (i <? 0); [discriminate|].
  destruct (nth_error buf (Z.to_nat i)); [|discriminate].
  intros [= <-]. apply u8_range.
Qed.

Lemma be_value_nonneg (bs : list byte) : 0 <= be_value bs.
Proof.
  unfold be_value. assert (H : forall acc, 0 <= acc ->
    0 <= fold_left (fun acc b => acc * 256 + u8 b) bs acc).
  { induction bs as [|b bs IH]; intros acc Hacc; [exact Hacc|].
    cbn [fold_left]. apply IH. pose proof (u8_range b). lia. }
  apply H. lia.
Qed.

Lemma readUIntLE_nonneg (buf : Buffer) (off : Z) (n : nat) (v : Z) :
  readUIntLE buf off n = Some v -> 0 <= v.
Proof.
  unfold readUIntLE. destruct (_ || _); [discriminate|].
  intros [= <-]. apply be_value_nonneg.
Qed.

(** Rounds beyond [script.length - offset] are never run. *)
Lemma generic_loop_fuel (fuel : nat) :
  forall script offset acc extra,
    0 <= offset ->
    blength script - offset <= Z.of_nat fuel ->
    generic_loop (fuel + extra) script offset acc
    = generic_loop fuel script offset acc.
Proof.
  induction fuel as [|fuel IH]; intros script offset acc extra H0 Hf.
  - destruct extra; [reflexivity|]. cbn [Nat.add generic_loop].
    destruct (offset <? blength script) eqn:E; [|reflexivity].
    apply Z.ltb_lt in E. lia.
  - cbn [Nat.add generic_loop].
    destruct (offset <? blength script); [|reflexivity].
    destruct (is_byte (byte_at script offset) 104); [reflexivity|].
    destruct (byte_between 1 (byte_at script offset) 75) eqn:Eb.
    { destruct (byte_at script offset) as [b|] eqn:Ea; [|discriminate].
      apply byte_at_range in Ea. apply IH; lia. }
    destruct (is_byte (byte_at script offset) 76).
    { destruct (byte_at script (offset + 1)) as [len|] eqn:Ea; [|reflexivity].
      apply byte_at_range in Ea. apply IH; lia. }
    destruct (is_byte (byte_at script offset) 77).
    { destruct (readUIntLE script (offset + 1) 2) as [len|] eqn:Er;
        [|reflexivity].
      apply readUIntLE_nonneg in Er. cbn [checked bind]. apply IH; lia. }
    destruct (is_byte (byte_at script offset) 78).
    { destruct (readUIntLE script (offset + 1) 4) as [len|] eqn:Er;
        [|reflexivity].
      apply readUIntLE_nonneg in Er. cbn [checked bind]. apply IH; lia. }
    apply IH; lia.
Qed.

Lemma ordxcp_loop_fuel (fuel : nat) :
  forall script offset acc extra,
    0 <= offset ->
    blength script - offset <= Z.of_nat fuel ->
    ordxcp_loop (fuel + extra) script offset acc
    = ordxcp_loop fuel script offset acc.
Proof.
  induction fuel as [|fuel IH]; intros script offset acc extra H0 Hf.
  - destruct extra; [reflexivity|]. cbn [Nat.add ordxcp_loop].
    destruct (offset <? blength script) eqn:E; [|reflexivity].
    apply Z.ltb_lt in E. lia.
  - cbn [Nat.add ordxcp_loop].
    destruct (offset <? blength script); [|reflexivity].
    destruct (is_byte (byte_at script offset) 104); [reflexivity|].
    destruct (is_byte (byte_at script offset) 0); [reflexivity|].
    destruct (byte_between 1 (byte_at script offset) 75) eqn:Eb.
    { destruct (byte_at script offset) as [b|] eqn:Ea; [|discriminate].
      apply byte_at_range in Ea. apply IH; lia. }
    destruct (is_byte (byte_at script offset) 76).
    { destruct (byte_at script (offset + 1)) as [len|] eqn:Ea; [|reflexivity].
      apply byte_at_range in Ea. apply IH; lia. }
    apply IH; lia.
Qed.



(* ------------------------------------------------------------------ *)
(** ** No two ids share a name *)
(* ------------------------------------------------------------------ *)

Lemma decimal_injective (a b : Z) : decimal a = decimal b -> a = b.
Proof.
  intros H. pose proof (BigInt_of_decimal a) as Ha.
  rewrite H, BigInt_of_decimal in Ha. congruence.
Qed.

Lemma upper_not_plain (c : ascii) :
  is_upper c = true -> plain (byte_of_ascii c) = false.
Proof.
  destruct c as [[] [] [] [] [] [] [] []]; vm_compute; congruence.
Qed.

Lemma decimal_not_upper (z : Z) : all_upper (decimal z) = false.
Proof.
  pose proof (decimal_plain z) as Hp. pose proof (decimal_nonempty z) as Hn.
  destruct (decimal z) as [|c s]; [contradiction|].
  rewrite bytes_of_String in Hp. cbn [forallb] in Hp.
  apply andb_prop in Hp. destruct Hp as [Hc _].
  cbn [all_upper]. destruct (is_upper c) eqn:Eu; [|reflexivity].
  rewrite (upper_not_plain c Eu) in Hc. discriminate.
Qed.

(** The four shapes of a name. *)
Lemma assetIdToName_shapes (id : Z) :
  (id = 0 /\ assetIdToName_bigint id = "BTC"%string)
  \/ (id = 1 /\ assetIdToName_bigint id = "XCP"%string)
  \/ (26 ^ 3 <= id < 26 ^ 12 + 1
      /\ all_upper (assetIdToName_bigint id) = true
      /\ b26_value (assetIdToName_bigint id) = id)
  \/ ((id < 0 \/ 2 <= id < 26 ^ 3 \/ 26 ^ 12 + 1 <= id)
      /\ assetIdToName_bigint id = String "A" (decimal id)).
Proof.
  assert (H3 : 26 ^ 3 = 17576) by reflexivity.
  assert (H12 : 26 ^ 12 = 95428956661682176) by reflexivity.
  destruct (Z.eq_dec id 0) as [->|H0]; [left; split; reflexivity|].
  destruct (Z.eq_dec id 1) as [->|H1]; [right; left; split; reflexivity|].
  destruct (Z_lt_ge_dec id 0) as [Hneg|Hpos].
  - right; right; right. split; [now left|].
    unfold assetIdToName_bigint.
    change NUMERIC_THRESHOLD with (26 ^ 12 + 1).
    change ALPHABETIC_THRESHOLD with (26 ^ 3).
    destruct (id =? 0) eqn:E0; [apply Z.eqb_eq in E0; lia|].
    destruct (id =? 1) eqn:E1; [apply Z.eqb_eq in E1; lia|].
    destruct (id >=? 26 ^ 12 + 1) eqn:E2; [apply Z.geb_le in E2; lia|].
    destruct (id >=? 26 ^ 3) eqn:E3; [apply Z.geb_le in E3; lia|].
    reflexivity.
  - destruct (Z_lt_ge_dec id (26 ^ 3)) as [Hlow|Hhigh].
    + right; right; right. split; [right; left; lia|].
      apply assetIdToName_numeric. left. lia.
    + destruct (Z_lt_ge_dec id (26 ^ 12 + 1)) as [Hmid|Htop].
      * right; right; left. split; [lia|].
        apply assetIdToName_alphabetic. lia.
      * right; right; right. split; [right; right; lia|].
        apply assetIdToName_numeric. right. lia.
Qed.

(** X2: assetIdToName never gives two different
    ids the same name: BTC, XCP, the names over A-Z and the names "A" plus
    digits are pairwise apart, negative ids included. *)
Theorem assetIdToName_injective (id1 id2 : Z) :
  id1 <> id2 ->
  assetIdToName (IdBigInt id1) <> assetIdToName (IdBigInt id2).
Proof.
  intros Hne Heq. cbn [assetIdToName] in Heq. injection Heq as Heq.
  apply Hne. clear Hne.
  assert (Hbtc : b26_value "BTC" = 1875) by reflexivity.
  assert (Hxcp : b26_value "XCP" = 16318) by reflexivity.
  assert (H3 : 26 ^ 3 = 17576) by reflexivity.
  destruct (assetIdToName_shapes id1)
    as [[E1 N1]|[[E1 N1]|[(R1 & U1 & V1)|[R1 N1]]]];
  destruct (assetIdToName_shapes id2)
    as [[E2 N2]|[[E2 N2]|[(R2 & U2 & V2)|[R2 N2]]]];
    try congruence;
    try (rewrite N1 in Heq; rewrite N2 in Heq; discriminate Heq).
  - rewrite <- Heq, N1 in V2. lia.
  - rewrite <- Heq, N1 in V2. lia.
  - rewrite Heq, N2 in V1. lia.
  - rewrite Heq, N2 in V1. lia.
  - rewrite Heq, N2 in U1. cbn [all_upper] in U1.
    rewrite decimal_not_upper, andb_false_r in U1. discriminate.
  - rewrite <- Heq, N1 in U2. cbn [all_upper] in U2.
    rewrite decimal_not_upper, andb_false_r in U2. discriminate.
  - rewrite N1, N2 in Heq. injection Heq as Heq. now apply decimal_injective.
Qed.

Lemma assetIdToName_injective_witness :
  26 ^ 3 <> 26 ^ 3 + 1
  /\ assetIdToName (IdBigInt (26 ^ 3)) <> assetIdToName (IdBigInt (26 ^ 3 + 1)).
Proof.
  assert (H : 26 ^ 3 <> 26 ^ 3 + 1) by lia.
  split; [exact H|]. exact (assetIdToName_injective _ _ H).
Defined.

(** X3: a name of the alphabetic region has between
    3 and 12 letters. *)
Theorem alphabetic_name_length (id : Z) (name : string) :
  26 ^ 3 <= id < 26 ^ 12 + 1 ->
  assetIdToName (IdBigInt id) = Ok name ->
  (3 <= String.length name <= 12)%nat.
Proof.
  intros Hid Hname. cbn [assetIdToName] in Hname. injection Hname as <-.
  destruct (assetIdToName_alphabetic id Hid) as [Hu Hv].
  pose proof (b26_bounds _ Hu) as Hb. rewrite Hv in Hb.
  set (n := String.length (assetIdToName_bigint id)) in *.
  assert (H3 : 26 ^ 3 = 17576) by reflexivity.
  assert (H12 : 26 ^ 12 = 95428956661682176) by reflexivity.
  split.
  - destruct (le_lt_dec 3 n) as [H|H]; [exact H|exfalso].
    pose proof (repunit_mono n 2 ltac:(lia)) as Hm.
    change (repunit 2) with 27 in Hm. lia.
  - destruct (le_lt_dec n 12) as [H|H]; [exact H|exfalso].
    pose proof (repunit_mono 13 n ltac:(lia)) as Hm.
    assert (repunit 13 = 99246114928149463) by reflexivity. lia.
Qed.

Lemma alphabetic_name_length_witness :
  26 ^ 3 <= 26 ^ 12 < 26 ^ 12 + 1
  /\ (3 <= String.length "YYYYYYYYYYYZ" <= 12)%nat.
Proof.
  assert (H : 26 ^ 3 <= 26 ^ 12 < 26 ^ 12 + 1) by (vm_compute; split; [discriminate|reflexivity]).
  split; [exact H|].
  apply (alphabetic_name_length (26 ^ 12) "YYYYYYYYYYYZ" H). vm_compute. reflexivity.
Defined.

(* ------------------------------------------------------------------ *)
(** ** RC4 as a stream cipher *)
(* ------------------------------------------------------------------ *)

Lemma prga_xor (data : Buffer) :
  forall Sb i j,
    RC4.prga Sb i j data
    = xor_with data (RC4.prga Sb i j (repeat x00 (List.length data))).
Proof.
  induction data as [|d rest IH]; intros Sb i j; [reflexivity|].
  cbn [List.length repeat RC4.prga xor_with]. f_equal.
  - change (u8 x00) with 0. rewrite Z.lxor_0_l, u8_to_u8.
    now rewrite (Z.mod_small _ 256) by apply rd_range.
  - apply IH.
Qed.

Lemma prga_app (a : Buffer) :
  forall b Sb i j,
    exists Sb' i' j',
      RC4.prga Sb i j (a ++ b) = RC4.prga Sb i j a ++ RC4.prga Sb' i' j' b.
Proof.
  induction a as [|d a IH]; intros b Sb i j.
  - exists Sb, i, j. reflexivity.
  - cbn [app RC4.prga].
    destruct (IH b (RC4.swap Sb (Z.land (i + 1) 255)
                      (Z.land (j + RC4.rd Sb (Z.land (i + 1) 255)) 255))
                 (Z.land (i + 1) 255)
                 (Z.land (j + RC4.rd Sb (Z.land (i + 1) 255)) 255))
      as (Sb' & i' & j' & H).
    exists Sb', i', j'. now rewrite H.
Qed.

(** X4: rc4Decrypt is a stream cipher: its output is the
    data XORed byte by byte with a keystream fixed by the key, so the first
    bytes of the output depend on the first bytes of the data only. *)
Theorem rc4Decrypt_stream (key data more : Buffer) :
  RC4.rc4Decrypt key data = xor_with data (keystream key (List.length data))
  /\ firstn (List.length data) (RC4.rc4Decrypt key (data ++ more))
     = RC4.rc4Decrypt key data.
Proof.
  unfold keystream, RC4.rc4Decrypt. split.
  - apply prga_xor.
  - destruct (prga_app data more (RC4.ksa key) 0 0) as (Sb' & i' & j' & H).
    rewrite H, <- (prga_length data (RC4.ksa key) 0 0), firstn_app, firstn_all.
    rewrite Nat.sub_diag. cbn [firstn]. apply app_nil_r.
Qed.

Lemma length_set_at (l : list byte) :
  forall n v, List.length (set_at l n v) = List.length l.
Proof.
  induction l as [|h t IH]; intros [|n] v; cbn [set_at List.length];
    try reflexivity. now rewrite IH.
Qed.

Lemma nth_set_at (l : list byte) :
  forall n v k,
    (n < List.length l)%nat ->
    nth k (set_at l n v) x00 = if Nat.eqb k n then v else nth k l x00.
Proof.
  induction l as [|h t IH]; intros n v k Hn; [cbn in Hn; lia|].
  destruct n as [|n], k as [|k]; cbn [set_at nth Nat.eqb]; try reflexivity.
  apply IH. cbn [List.length] in Hn. lia.
Qed.

Lemma length_swap (Sb : list byte) (i j : Z) :
  List.length (RC4.swap Sb i j) = List.length Sb.
Proof. unfold RC4.swap. now rewrite !length_set_at. Qed.

(** After the exchange, slot [k] holds what the transposed slot held. *)
Lemma nth_swap (Sb : list byte) (i j : Z) (k : nat) :
  (Z.to_nat i < List.length Sb)%nat -> (Z.to_nat j < List.length Sb)%nat ->
  nth k (RC4.swap Sb i j) x00
  = nth (if Nat.eqb k (Z.to_nat j) then Z.to_nat i
         else if Nat.eqb k (Z.to_nat i) then Z.to_nat j else k) Sb x00.
Proof.
  intros Hi Hj. unfold RC4.swap, RC4.rd.
  rewrite nth_set_at by (now rewrite length_set_at).
  rewrite nth_set_at by exact Hi. rewrite !to_u8_u8.
  destruct (Nat.eqb k (Z.to_nat j)); [reflexivity|].
  destruct (Nat.eqb k (Z.to_nat i)); reflexivity.
Qed.

Lemma NoDup_swap (Sb : list byte) (i j : Z) :
  (Z.to_nat i < List.length Sb)%nat -> (Z.to_nat j < List.length Sb)%nat ->
  NoDup Sb -> NoDup (RC4.swap Sb i j).
Proof.
  intros Hi Hj Hnd. apply (NoDup_nth _ x00). rewrite length_swap.
  intros a b Ha Hb. rewrite !nth_swap by assumption. intros Heq.
  apply (proj1 (NoDup_nth Sb x00) Hnd) in Heq.
  - destruct (Nat.eqb_spec a (Z.to_nat j)), (Nat.eqb_spec b (Z.to_nat j)),
      (Nat.eqb_spec a (Z.to_nat i)), (Nat.eqb_spec b (Z.to_nat i)); lia.
  - destruct (Nat.eqb a (Z.to_nat j)), (Nat.eqb a (Z.to_nat i)); assumption.
  - destruct (Nat.eqb b (Z.to_nat j)), (Nat.eqb b (Z.to_nat i)); assumption.
Qed.

Lemma land_255_range (x : Z) : 0 <= Z.land x 255 < 256.
Proof.
  change 255 with (Z.ones 8). rewrite Z.land_ones by lia.
  apply Z.mod_pos_bound. reflexivity.
Qed.

Lemma ksa_round_keeps (key : Buffer) (st : list byte * Z) (i : Z) :
  0 <= i < 256 ->
  NoDup (fst st) /\ List.length (fst st) = 256%nat ->
  NoDup (fst (RC4.ksa_round key st i))
  /\ List.length (fst (RC4.ksa_round key st i)) = 256%nat.
Proof.
  intros Hi [Hnd Hlen]. destruct st as [Sb j]. cbn [fst] in *.
  unfold RC4.ksa_round.
  set (j' := match RC4.key_byte key i with
             | Some k => Z.land (j + RC4.rd Sb i + k) 255
             | None => 0
             end).
  assert (Hj : 0 <= j' < 256).
  { unfold j'. destruct (RC4.key_byte key i); [apply land_255_range|lia]. }
  cbn [fst]. split; [|now rewrite length_swap].
  apply NoDup_swap; [lia|lia|exact Hnd].
Qed.

Lemma ksa_rounds_keep (key : Buffer) (rounds : list Z) :
  forall st,
    Forall (fun i => 0 <= i < 256) rounds ->
    NoDup (fst st) /\ List.length (fst st) = 256%nat ->
    NoDup (fst (fold_left (RC4.ksa_round key) rounds st))
    /\ List.length (fst (fold_left (RC4.ksa_round key) rounds st)) = 256%nat.
Proof.
  induction rounds as [|i rounds IH]; intros st Hr Hst; [exact Hst|].
  inversion Hr as [|? ? Hi Hrest]; subst. cbn [fold_left].
  apply IH; [exact Hrest|]. now apply ksa_round_keeps.
Qed.

Lemma init_state_all (b : byte) : In b RC4.init_state.
Proof.
  unfold RC4.init_state. rewrite <- (to_u8_u8 b).
  replace (u8 b) with (Z.of_nat (Z.to_nat (u8 b)))
    by (pose proof (u8_range b); lia).
  apply (in_map (fun i => to_u8 (Z.of_nat i))). apply in_seq.
  pose proof (u8_range b). lia.
Qed.

Lemma NoDup_init_state : NoDup RC4.init_state.
Proof.
  unfold RC4.init_state.
  apply NoDup_map_NoDup_ForallPairs; [|apply seq_NoDup].
  intros a b Ha Hb Heq. apply in_seq in Ha, Hb.
  assert (Hu : u8 (to_u8 (Z.of_nat a)) = u8 (to_u8 (Z.of_nat b))) by congruence.
  rewrite !u8_to_u8, !Z.mod_small in Hu by lia. lia.
Qed.

(** X5: whatever the key, the empty key included, the key
    schedule leaves in the state array each of the 256 byte values once: the
    exchanges never lose or repeat an entry, and no index leaves the array. *)
Theorem ksa_is_permutation (key : Buffer) :
  Permutation (RC4.ksa key) RC4.init_state
  /\ List.length (RC4.ksa key) = 256%nat.
Proof.
  unfold RC4.ksa.
  destruct (ksa_rounds_keep key (map Z.of_nat (seq 0 256)) (RC4.init_state, 0))
    as [Hnd Hlen].
  - apply Forall_forall. intros i Hi. apply in_map_iff in Hi.
    destruct Hi as (n & <- & Hn). apply in_seq in Hn. lia.
  - split; [apply NoDup_init_state|].
    cbn [fst]. unfold RC4.init_state. now rewrite length_map, length_seq.
  - split; [|exact Hlen].
    apply NoDup_Permutation_bis; [exact Hnd| |intros b _; apply init_state_all].
    rewrite Hlen. unfold RC4.init_state. rewrite length_map, length_seq. lia.
Qed.

(* ------------------------------------------------------------------ *)
(** ** What the carriers deliver *)
(* ------------------------------------------------------------------ *)

Lemma be_value_bound (bs : list byte) :
  0 <= be_value bs < 256 ^ Z.of_nat (List.length bs).
Proof.
  induction bs as [|b bs IH]; [cbn; lia|].
  unfold be_value. cbn [fold_left List.length]. rewrite fold_be.
  pose proof (u8_range b). rewrite Nat2Z.inj_succ, Z.pow_succ_r by lia. nia.
Qed.

Lemma readMessageTypeId_range (message rest : Buffer) (id : Z) :
  readMessageTypeId message = Ok (id, rest) -> 0 <= id < 2 ^ 32.
Proof.
  unfold readMessageTypeId.
  destruct (blength message =? 0); [discriminate|].
  assert (Hlong :
    (if blength message <? 5
     then Throw (ErrorOf "Message too short for long ID")
     else let* id0 := checked (readUIntBE message 1 4) in
          Ok (id0, subarray_from message 5)) = Ok (id, rest) ->
    0 <= id < 2 ^ 32).
  { destruct (blength message <? 5); [discriminate|].
    unfold readUIntBE. destruct (_ || _); [discriminate|].
    cbn [checked bind]. intros [= <- _].
    pose proof (be_value_bound (firstn 4 (skipn (Z.to_nat 1) message))) as Hb.
    assert (Hl : (List.length (firstn 4 (skipn (Z.to_nat 1) message)) <= 4)%nat)
      by apply firstn_le_length.
    assert (Hp : 256 ^ Z.of_nat (List.length (firstn 4 (skipn (Z.to_nat 1) message)))
                 <= 256 ^ 4) by (apply Z.pow_le_mono_r; lia).
    change (256 ^ 4) with (2 ^ 32) in Hp.
    split; [apply Hb|]. eapply Z.lt_le_trans; [apply Hb|exact Hp]. }
  destruct (byte_at message 0) as [firstByte|] eqn:Eb; [|exact Hlong].
  destruct (firstByte >? 0); [|exact Hlong].
  intros [= <- _]. apply byte_at_range in Eb.
  change (2 ^ 32) with 4294967296. lia.
Qed.

Lemma lookup_in (table : list (Z * string)) (key : Z) :
  match lookup table key with
  | Some name => In (key, name) table
  | None => ~ In key (map fst table)
  end.
Proof.
  induction table as [|[k v] table IH]; cbn [lookup map fst In]; [tauto|].
  destruct (Z.eqb_spec k key) as [->|Hne]; [now left|].
  destruct (lookup table key); [now right|]. tauto.
Qed.

Lemma message_name_of_cases (messageId : Z) :
  In (messageId, message_name_of messageId) MESSAGE_TYPES
  \/ (message_name_of messageId = "unknown"%string
      /\ ~ In messageId (map fst MESSAGE_TYPES)).
Proof.
  unfold message_name_of. pose proof (lookup_in MESSAGE_TYPES messageId) as H.
  destruct (lookup MESSAGE_TYPES messageId); [now left|now right].
Qed.

Lemma registry_names (messageId : Z) (name : string) :
  In (messageId, name) MESSAGE_TYPES ->
  name <> "unknown"%string /\ name <> "taproot_commit"%string.
Proof.
  unfold MESSAGE_TYPES. cbn [In].
  intros H. repeat (destruct H as [[= <- <-]|H]; [split; discriminate|]).
  contradiction.
Qed.

Section Carriers.

Context {Other : Type}.
Variable E : Externals Other.

Lemma parse_message_framed (message : Buffer) (network : Network) :
  parse_message E message network
  = match readMessageTypeId message with
    | Ok (id, payload) =>
        Ok (Some {| message_name := message_name_of id;
                    message_id := id;
                    params := decodePayload E id payload network |})
    | Throw e => Throw e
    end.
Proof.
  unfold parse_message. destruct (readMessageTypeId message) as [[id payload]|e];
    reflexivity.
Qed.

Lemma parse_message_result (message : Buffer) (network : Network)
  (p : ParsedTransaction Other) :
  parse_message E message network = Ok (Some p) -> framed_result E network p.
Proof.
  rewrite parse_message_framed.
  destruct (readMessageTypeId message) as [[id payload]|e] eqn:Hr;
    [|discriminate].
  intros [= <-]. cbn [message_id message_name params]. unfold framed_result.
  cbn [message_id message_name params].
  split; [exact (readMessageTypeId_range _ _ _ Hr)|].
  split; [reflexivity|]. now exists payload.
Qed.

Lemma dataStart_of_header (header data : Buffer) :
  skipped_header header ->
  subarray_from (x6a :: header ++ data) (dataStart_of (x6a :: header ++ data))
  = data.
Proof.
  intros H. unfold dataStart_of.
  assert (Hlen : (blength (x6a :: header ++ data) >? 1) = true).
  { rewrite Z.gtb_ltb. apply Z.ltb_lt. rewrite blength_cons, blength_app.
    pose proof (blength_nonneg data).
    destruct H; rewrite ?blength_cons; change (blength (@nil byte)) with 0; lia. }
  rewrite Hlen.
  destruct H as [opcode Hop| | |]; cbn [app];
    match goal with
    | |- context [byte_at (_ :: ?b :: ?l) 1] =>
        change (byte_at (x6a :: b :: l) 1) with (Some (u8 b))
    end; cbv beta iota.
  - destruct (u8 opcode <? 76) eqn:El; [reflexivity|].
    apply Z.ltb_ge in El. lia.
  - reflexivity.
  - reflexivity.
  - reflexivity.
Qed.

(** What [parse_op_return] makes of a message enciphered behind the magic. *)
Lemma parse_op_return_enciphered (header message : Buffer) (txid : string)
  (network : Network) :
  skipped_header header -> message <> [] ->
  parse_op_return E
    (x6a :: header
     ++ RC4.rc4Decrypt (Buffer_from_hex txid) (PREFIX_BYTES ++ message))
    txid network
  = try_or (parse_message E message network) None.
Proof.
  intros Hh Hm. unfold parse_op_return, parse_op_return_try.
  set (data := RC4.rc4Decrypt (Buffer_from_hex txid) (PREFIX_BYTES ++ message)).
  rewrite blength_cons.
  destruct (1 + blength (header ++ data) =? 0) eqn:E0.
  { apply Z.eqb_eq in E0. pose proof (blength_nonneg (header ++ data)). lia. }
  change (byte_at (x6a :: header ++ data) 0) with (Some 106).
  cbn [is_byte negb orb Z.eqb Pos.eqb]. cbv zeta.
  rewrite (dataStart_of_header header data Hh).
  assert (Hlen : List.length data = (8 + List.length message)%nat).
  { unfold data, RC4.rc4Decrypt. rewrite prga_length, length_app. reflexivity. }
  assert (Hne : equals data PREFIX_BYTES = false).
  { apply equals_false. intros Heq. rewrite Heq in Hlen.
    destruct message; [contradiction|]. cbn in Hlen. lia. }
  rewrite Hne.
  assert (Hdec : RC4.rc4Decrypt (Buffer_from_hex txid) data
                 = PREFIX_BYTES ++ message).
  { unfold data, RC4.rc4Decrypt. apply prga_involutive. }
  rewrite Hdec.
  change (subarray (PREFIX_BYTES ++ message) 0 8) with PREFIX_BYTES.
  change (subarray_from (PREFIX_BYTES ++ message) 8) with message.
  change (equals PREFIX_BYTES PREFIX_BYTES) with true. cbn [negb].
  destruct message as [|b message]; [contradiction|].
  rewrite blength_cons.
  destruct (1 + blength message =? 0) eqn:E1;
    [apply Z.eqb_eq in E1; pose proof (blength_nonneg message); lia|].
  reflexivity.
Qed.

(** X6: a message enciphered with RC4 under the
    txid behind the CNTRPRTY magic and placed after OP_RETURN and a push
    header comes back framed: its id, the registry's name for it and the
    dispatch's payload.  The length a header announces is never looked at.
    A message whose framing fails gives the no-match result. *)
Theorem parse_op_return_roundtrip (header message : Buffer) (txid : string)
  (network : Network) :
  skipped_header header -> message <> [] ->
  parse_op_return E
    (x6a :: header
     ++ RC4.rc4Decrypt (Buffer_from_hex txid) (PREFIX_BYTES ++ message))
    txid network
  = match readMessageTypeId message with
    | Ok (id, payload) =>
        Some {| message_name := message_name_of id;
                message_id := id;
                params := decodePayload E id payload network |}
    | Throw _ => None
    end.
Proof.
  intros Hh Hm. rewrite (parse_op_return_enciphered _ _ _ _ Hh Hm).
  rewrite parse_message_framed.
  destruct (readMessageTypeId message) as [[id payload]|e]; reflexivity.
Qed.

(** X7: the two carriers deliver the same result for the
    same message: enciphered behind OP_RETURN, or pushed in a generic
    witness envelope. *)
Theorem carriers_agree (header message : Buffer) (txid revealTxHex : string)
  (pushes : list (push_width * Buffer)) (network : Network) :
  skipped_header header -> message <> [] ->
  pushes_fit pushes -> chunks_of pushes = message ->
  extractWitnessScript E (Buffer_from_hex revealTxHex)
  = Some (generic_envelope pushes) ->
  parse_op_return E
    (x6a :: header
     ++ RC4.rc4Decrypt (Buffer_from_hex txid) (PREFIX_BYTES ++ message))
    txid network
  = parse_reveal_tx E revealTxHex network.
Proof.
  intros Hh Hm Hfit Hc Hw.
  rewrite (parse_op_return_enciphered _ _ _ _ Hh Hm).
  rewrite (parse_reveal_generic E _ _ _ Hfit Hw), Hc.
  destruct message as [|b message]; [contradiction|].
  rewrite blength_cons.
  destruct (1 + blength message =? 0) eqn:E1;
    [apply Z.eqb_eq in E1; pose proof (blength_nonneg message); lia|].
  reflexivity.
Qed.

(** X8: every result of the two parsers other
    than the taproot_commit marker carries an id in the unsigned 32-bit
    range, the registry's name for that id and a payload of the dispatch for
    that id; the marker is reported for the literal magic only, and never by
    parse_reveal_tx. *)
Theorem parsed_results_wellformed (network : Network)
  (p : ParsedTransaction Other) :
  (forall scriptBuffer firstInputTxid,
     parse_op_return E scriptBuffer firstInputTxid network = Some p ->
     (p = taproot_commit /\ op_return_candidate scriptBuffer = PREFIX_BYTES)
     \/ framed_result E network p)
  /\ (forall revealTxHex,
        parse_reveal_tx E revealTxHex network = Some p ->
        framed_result E network p)
  /\ (framed_result E network p -> p <> taproot_commit).
Proof.
  split; [|split].
  - intros scriptBuffer firstInputTxid. unfold parse_op_return, parse_op_return_try.
    fold (op_return_candidate scriptBuffer).
    destruct (_ || _); [discriminate|].
    destruct (equals (op_return_candidate scriptBuffer) PREFIX_BYTES) eqn:Ee.
    + intros [= <-]. left. split; [reflexivity|]. now apply equals_spec.
    + destruct (negb _); [discriminate|].
      destruct (_ =? 0); [discriminate|].
      destruct (parse_message E _ network) as [[q|]|e] eqn:Hp;
        cbn [try_or]; try discriminate.
      intros [= ->]. right. exact (parse_message_result _ _ _ Hp).
  - intros revealTxHex. unfold parse_reveal_tx.
    destruct (extractWitnessScript E _) as [script|]; [|discriminate].
    destruct (extractFromEnvelope E script) as [message|]; [|discriminate].
    destruct (_ =? 0); [discriminate|].
    destruct (parse_message E message network) as [[q|]|e] eqn:Hp;
      cbn [try_or]; try discriminate.
    intros [= ->]. exact (parse_message_result _ _ _ Hp).
  - intros (_ & Hname & _) ->. cbn [taproot_commit message_name message_id] in Hname.
    discriminate Hname.
Qed.

Lemma forallb_incl {A} (f : A -> bool) (l l' : list A) :
  incl l' l -> forallb f l = true -> forallb f l' = true.
Proof.
  intros Hi H. apply forallb_forall. intros x Hx.
  rewrite forallb_forall in H. apply H, Hi, Hx.
Qed.

Lemma find_decoder_in (table : list (Z * decoder Other)) (messageId : Z) :
  find_decoder table messageId <> None <-> In messageId (map fst table).
Proof.
  induction table as [|[k d] table IH]; cbn [find_decoder map fst In].
  - split; [intros H; now apply H|intros []].
  - destruct (Z.eqb_spec k messageId) as [->|Hne].
    + split; [now left|discriminate].
    + rewrite IH. split; [now right|intros [H|H]; [contradiction|exact H]].
Qed.

(** X9: the registry of names and the dispatch agree
    on every id but 3: an id has a name exactly when it has a decoder or is
    3; and a message reported under the name unknown always carries the Unknown
    payload with the hex of its bytes and no error. *)
Theorem registry_and_dispatch (messageId : Z) (payload : Buffer)
  (network : Network) :
  (lookup MESSAGE_TYPES messageId <> None
   <-> find_decoder (decoder_table E) messageId <> None \/ messageId = 3)
  /\ (message_name_of messageId = "unknown"%string ->
      decodePayload E messageId payload network
      = UnknownPayload (toString_hex payload) None).
Proof.
  split.
  - rewrite find_decoder_in, decoder_table_ids.
    pose proof (lookup_in MESSAGE_TYPES messageId) as Hl.
    destruct (lookup MESSAGE_TYPES messageId) as [name|].
    + apply (in_map fst) in Hl. cbn [fst] in Hl.
      split; [intros _|discriminate].
      unfold MESSAGE_TYPES in Hl. cbn [map fst In] in *. lia.
    + split; [intros H; now contradiction H|].
      intros H. exfalso. apply Hl. unfold MESSAGE_TYPES. cbn [map fst In] in *. lia.
  - intros Hname.
    destruct (message_name_of_cases messageId) as [Hin|[_ Hnot]].
    + rewrite Hname in Hin. apply registry_names in Hin. now destruct Hin.
    + unfold decodePayload. rewrite decodePayload_try_default; [reflexivity|].
      apply forallb_forall. intros k Hk. rewrite decoder_table_ids in Hk.
      apply negb_true_iff, Z.eqb_neq. intros ->. apply Hnot.
      unfold MESSAGE_TYPES. cbn [map fst In] in *. lia.
Qed.

End Carriers.

Lemma parse_op_return_roundtrip_witness :
  skipped_header [x4c; xff]
  /\ parse_op_return Reference.env
       (x6a :: [x4c; xff]
        ++ RC4.rc4Decrypt (Buffer_from_hex "00ff") (PREFIX_BYTES ++ [x0d; x00]))
       "00ff" Reference.bitcoin
     = Some {| message_name := "dispense";
               message_id := 13;
               params := DispensePayload "0x00" |}.
Proof.
  assert (H : skipped_header [x4c; xff]) by constructor.
  split; [exact H|].
  refine (parse_op_return_roundtrip Reference.env [x4c; xff] [x0d; x00] "00ff"
            Reference.bitcoin H _).
  discriminate.
Defined.

Lemma carriers_agree_witness :
  let message := [x0d; x00] in
  let tx := toString_hex
              (Reference.reveal_tx (generic_envelope [(PushData1, message)])) in
  parse_op_return Reference.env
    (x6a :: [x02]
     ++ RC4.rc4Decrypt (Buffer_from_hex "00ff") (PREFIX_BYTES ++ message))
    "00ff" Reference.bitcoin
  = parse_reveal_tx Reference.env tx Reference.bitcoin.
Proof.
  intros message tx.
  refine (carriers_agree Reference.env [x02] message "00ff" tx
            [(PushData1, message)] Reference.bitcoin _ _ _ eq_refl _).
  - constructor. vm_compute. reflexivity.
  - discriminate.
  - constructor; [vm_compute; reflexivity|constructor].
  - vm_compute. reflexivity.
Defined.

Lemma parsed_results_wellformed_witness :
  framed_result Reference.env Reference.bitcoin
    {| message_name := "dispense";
       message_id := 13;
       params := DispensePayload "0x00" |}.
Proof.
  refine (proj1 (proj2 (parsed_results_wellformed Reference.env Reference.bitcoin _))
            (toString_hex
               (Reference.reveal_tx (generic_envelope [(Direct, [x0d; x00])]))) _).
  vm_compute. reflexivity.
Defined.

Lemma registry_and_dispatch_witness :
  message_name_of 999 = "unknown"%string
  /\ decodePayload Reference.env 999 [xaa; xbb] Reference.bitcoin
     = UnknownPayload "aabb" None.
Proof.
  assert (H : message_name_of 999 = "unknown"%string) by reflexivity.
  split; [exact H|].
  exact (proj2 (registry_and_dispatch Reference.env 999 [xaa; xbb]
                  Reference.bitcoin) H).
Defined.

(* ------------------------------------------------------------------ *)
(** ** Text payloads *)
(* ------------------------------------------------------------------ *)

Lemma utf8_lead_ascii (b : byte) :
  u8 b <= 0x7F -> utf8_lead b = ([b], None).
Proof.
  intros H. unfold utf8_lead. cbv zeta.
  destruct (u8 b <=? 127) eqn:E; [reflexivity|]. apply Z.leb_gt in E. lia.
Qed.

Lemma utf8_run_ascii (buf : Buffer) : ascii_only buf -> utf8_run None buf = buf.
Proof.
  induction 1 as [|b buf Hb _ IH]; [reflexivity|].
  cbn [utf8_run]. rewrite (utf8_lead_ascii b Hb). cbn [app]. now rewrite IH.
Qed.

Lemma utf8_lead_cases (b : byte) :
  (u8 b <= 0x7F /\ utf8_lead b = ([b], None))
  \/ (0xC2 <= u8 b <= 0xF4
      /\ exists n lo hi,
           utf8_lead b = ([], Some ([b], n, lo, hi)) /\ 0x80 <= lo /\ hi <= 0xBF)
  \/ (0x7F < u8 b /\ utf8_lead b = (replacement_char, None)).
Proof.
  destruct b;
    first
      [ left; split; [vm_compute; discriminate|reflexivity]
      | right; left; split;
        [ vm_compute; split; discriminate
        | do 3 eexists; split; [reflexivity|vm_compute; split; discriminate] ]
      | right; right; split; reflexivity ].
Qed.

Lemma outside_not_replacement (a : byte) :
  outside_sequences a -> ~ In a replacement_char.
Proof.
  intros Ha Hin. unfold replacement_char in Hin. cbn [In] in Hin.
  unfold outside_sequences, never_in_utf8 in Ha.
  destruct Hin as [<-|[<-|[<-|[]]]];
    [change (u8 xef) with 239 in Ha|change (u8 xbf) with 191 in Ha
    |change (u8 xbd) with 189 in Ha]; lia.
Qed.

Lemma outside_not_sequence_byte (a b : byte) :
  outside_sequences a -> 0x80 <= u8 b <= 0xF4 -> u8 b <> 0xC0 -> u8 b <> 0xC1 ->
  a <> b.
Proof.
  unfold outside_sequences, never_in_utf8. intros Ha Hb H0 H1 ->. lia.
Qed.

Lemma utf8_run_outside (a : byte) (input : Buffer) :
  outside_sequences a ->
  forall st,
    pending_without a st ->
    In a (utf8_run st input) <-> u8 a <= 0x7F /\ In a input.
Proof.
  intros Ha. pose proof (outside_not_replacement a Ha) as Hrep.
  induction input as [|b rest IH]; intros st Hst.
  - destruct st; cbn [utf8_run In]; tauto.
  - assert (Hlead : forall out st',
              utf8_lead b = (out, st') ->
              pending_without a st'
              /\ (In a out <-> u8 a <= 0x7F /\ a = b)).
    { intros out st' Hl.
      destruct (utf8_lead_cases b)
        as [[Hb Hl']|[[Hb (n & lo & hi & Hl' & Hlo & Hhi)]|[Hb Hl']]];
        rewrite Hl' in Hl; injection Hl as <- <-; cbn [pending_without In].
      - split; [exact I|]. split.
        + intros [<-|[]]. now split.
        + intros [_ ->]. now left.
      - split.
        + split; [|lia]. intros [Heq|[]].
          apply (outside_not_sequence_byte a b Ha); [lia|lia|lia|congruence].
        + split; [intros []|]. intros [Hu ->]. lia.
      - split; [exact I|]. split; [intros H; now apply Hrep in H|].
        intros [Hu ->]. lia. }
    cbn [utf8_run In]. destruct st as [[[[acc n] lo] hi]|].
    + cbn [pending_without] in Hst. destruct Hst as (Hacc & Hlo & Hhi).
      destruct (in_range lo (u8 b) hi) eqn:Er.
      * unfold in_range in Er. apply andb_prop in Er. destruct Er as [E1 E2].
        apply Z.leb_le in E1, E2.
        assert (Hab : b <> a).
        { intros Hba. symmetry in Hba. revert Hba.
          apply (outside_not_sequence_byte a b Ha); lia. }
        assert (Hacc' : ~ In a (acc ++ [b])).
        { rewrite in_app_iff. cbn [In]. intros [H|[H|[]]]; tauto. }
        destruct n as [|[|n']].
        -- rewrite in_app_iff, (IH None I). tauto.
        -- rewrite in_app_iff, (IH None I). tauto.
        -- rewrite IH by (cbn [pending_without]; split; [exact Hacc'|lia]).
           tauto.
      * destruct (utf8_lead b) as [out st'] eqn:El.
        destruct (Hlead out st' eq_refl) as [Hst' Hout].
        rewrite !in_app_iff, (IH st' Hst'), Hout.
        assert (Hsym : a = b <-> b = a) by (split; congruence). tauto.
    + destruct (utf8_lead b) as [out st'] eqn:El.
      destruct (Hlead out st' eq_refl) as [Hst' Hout].
      rewrite in_app_iff, (IH st' Hst'), Hout.
      assert (Hsym : a = b <-> b = a) by (split; congruence). tauto.
Qed.

Lemma list_byte_of_string_of_list (l : list byte) :
  list_byte_of_string (string_of_list_byte l) = l.
Proof. apply list_byte_of_string_of_list_byte. Qed.

Section TextOrHex.

Context {Other : Type}.
Variable E : Externals Other.

Lemma decodeTextOrHex_string (buffer : Buffer) (mimeType : string) :
  decodeTextOrHex E buffer (JString mimeType)
  = Ok (let lower := trim (toLowerCase E mimeType) in
        if (String.eqb lower EmptyString || startsWith lower "text")
           && equals (utf8_run None buffer) buffer
        then toString_utf8 buffer
        else toString_hex buffer).
Proof.
  unfold decodeTextOrHex.
  assert (Ho : or_empty E (JString mimeType) = JString mimeType).
  { unfold or_empty. cbn [truthy].
    destruct (String.eqb_spec mimeType EmptyString) as [->|]; reflexivity. }
  rewrite Ho. cbn [bind]. cbv zeta.
  unfold Buffer_from_utf8, toString_utf8. rewrite list_byte_of_string_of_list.
  destruct (_ || _); [|reflexivity].
  destruct (equals _ _); reflexivity.
Qed.

(** X10: with a string MIME type decodeTextOrHex
    always returns, and what it returns determines the buffer: either the
    text whose UTF-8 encoding is the buffer, or the hex of the buffer.
    7-bit bytes under a text type come back as the text itself; any other
    type gives the hex. *)
Theorem decodeTextOrHex_lossless (buffer : Buffer) (mimeType : string) :
  exists text,
    decodeTextOrHex E buffer (JString mimeType) = Ok text
    /\ (Buffer_from_utf8 text = buffer \/ text = toString_hex buffer)
    /\ (text_type (trim (toLowerCase E mimeType)) -> ascii_only buffer ->
        text = string_of_list_byte buffer)
    /\ (~ text_type (trim (toLowerCase E mimeType)) ->
        text = toString_hex buffer).
Proof.
  rewrite decodeTextOrHex_string. eexists. split; [reflexivity|]. cbv zeta.
  set (lower := trim (toLowerCase E mimeType)).
  assert (Ht : String.eqb lower EmptyString || startsWith lower "text" = true
               <-> text_type lower).
  { unfold text_type. rewrite orb_true_iff, String.eqb_eq. reflexivity. }
  destruct (String.eqb lower EmptyString || startsWith lower "text") eqn:Et;
    cbn [andb].
  - destruct (equals (utf8_run None buffer) buffer) eqn:Ee.
    + apply equals_spec in Ee. split; [|split].
      * left. unfold Buffer_from_utf8, toString_utf8.
        now rewrite list_byte_of_string_of_list.
      * intros _ Ha. unfold toString_utf8. now rewrite utf8_run_ascii.
      * intros Hn. exfalso. apply Hn, Ht. reflexivity.
    + split; [now right|]. split.
      * intros _ Ha. rewrite (utf8_run_ascii _ Ha) in Ee.
        rewrite (proj2 (equals_spec _ _) eq_refl) in Ee. discriminate.
      * reflexivity.
  - split; [now right|]. split; [|reflexivity].
    intros Hx. apply Ht in Hx. discriminate.
Qed.

(** X11: a buffer holding one of the bytes no
    UTF-8 text contains (0xC0, 0xC1, 0xF5 to 0xFF) is returned as hex,
    whatever the MIME type says. *)
Theorem decodeTextOrHex_invalid_utf8 (buffer : Buffer) (mimeType : string)
  (b : byte) :
  In b buffer -> never_in_utf8 b ->
  decodeTextOrHex E buffer (JString mimeType) = Ok (toString_hex buffer).
Proof.
  intros Hin Hb. rewrite decodeTextOrHex_string. cbv zeta.
  assert (He : equals (utf8_run None buffer) buffer = false).
  { apply equals_false. intros Heq.
    assert (Hout : In b (utf8_run None buffer)) by (now rewrite Heq).
    apply (utf8_run_outside b buffer (or_intror Hb) None I) in Hout.
    unfold never_in_utf8 in Hb. lia. }
  rewrite He, andb_false_r. reflexivity.
Qed.

End TextOrHex.

Lemma split_on_nonempty (sep : ascii) (s : string) :
  (1 <= List.length (split_on sep s))%nat.
Proof.
  induction s as [|c s IH]; cbn [split_on List.length]; [lia|].
  destruct (Ascii.eqb c sep); [cbn [List.length]; lia|].
  destruct (split_on sep s); cbn [List.length] in *; lia.
Qed.

Lemma pipe_byte (b : byte) :
  Ascii.eqb (ascii_of_byte b) "|" = true <-> b = x7c.
Proof.
  destruct b; vm_compute; split; congruence.
Qed.

Lemma split_on_pipes (l : list byte) :
  (2 <= List.length (split_on "|" (string_of_list_byte l)))%nat <-> In x7c l.
Proof.
  induction l as [|b l IH].
  - cbn. split; [lia|intros []].
  - change (string_of_list_byte (b :: l))
      with (String (ascii_of_byte b) (string_of_list_byte l)).
    cbn [split_on In].
    pose proof (split_on_nonempty "|" (string_of_list_byte l)) as Hn.
    destruct (Ascii.eqb (ascii_of_byte b) "|") eqn:Eb.
    + apply pipe_byte in Eb. cbn [List.length]. split; [now left|lia].
    + assert (Hne : b <> x7c).
      { intros H. apply pipe_byte in H. congruence. }
      destruct (split_on "|" (string_of_list_byte l)) as [|h t] eqn:Es;
        cbn [List.length] in *; [lia|].
      rewrite IH. tauto.
Qed.

(** X12: decodeAttach returns exactly when the
    payload holds a separator byte 0x7C, however the other bytes decode;
    without one it fails with its own message. *)
Theorem decodeAttach_needs_separator {Other : Type} (payload : Buffer) :
  (In x7c payload ->
   exists asset quantity destination_vout,
     @decodeAttach Other payload
     = Ok (AttachPayload asset quantity destination_vout))
  /\ (~ In x7c payload ->
      @decodeAttach Other payload = Throw (ErrorOf "Invalid attach payload")).
Proof.
  assert (Hp : (2 <= List.length (split_on "|" (toString_utf8 payload)))%nat
               <-> In x7c payload).
  { unfold toString_utf8. rewrite split_on_pipes.
    rewrite (utf8_run_outside x7c payload) by (exact I || (left; vm_compute; discriminate)).
    split; [tauto|]. split; [vm_compute; discriminate|assumption]. }
  unfold decodeAttach. cbv zeta. split; intros H.
  - apply Hp in H.
    destruct (Nat.ltb_spec (List.length (split_on "|" (toString_utf8 payload))) 2);
      [lia|]. now eexists _, _, _.
  - destruct (Nat.ltb_spec (List.length (split_on "|" (toString_utf8 payload))) 2);
      [reflexivity|]. exfalso. apply H, Hp. lia.
Qed.

Lemma bytes_of_append (s t : string) :
  list_byte_of_string (s ++ t) = list_byte_of_string s ++ list_byte_of_string t.
Proof.
  induction s as [|c s IH]; [reflexivity|].
  cbn [append]. rewrite !bytes_of_String, IH. reflexivity.
Qed.

Lemma toString_utf8_text (s : string) :
  ascii_only (Buffer_from_utf8 s) -> toString_utf8 (Buffer_from_utf8 s) = s.
Proof.
  intros H. unfold toString_utf8. rewrite utf8_run_ascii by exact H.
  apply string_of_list_byte_of_string.
Qed.

Lemma split_on_field (s : string) :
  ~ In x7c (Buffer_from_utf8 s) -> split_on "|" s = [s].
Proof.
  unfold Buffer_from_utf8. induction s as [|c s IH]; intros H; [reflexivity|].
  rewrite bytes_of_String in H. cbn [In] in H. cbn [split_on].
  destruct (Ascii.eqb_spec c "|") as [->|_].
  - exfalso. apply H. left. reflexivity.
  - rewrite IH by tauto. reflexivity.
Qed.

Lemma split_on_joined (s t : string) :
  ~ In x7c (Buffer_from_utf8 s) ->
  split_on "|" (s ++ "|" ++ t) = s :: split_on "|" t.
Proof.
  unfold Buffer_from_utf8. induction s as [|c s IH]; intros H; [reflexivity|].
  rewrite bytes_of_String in H. cbn [In] in H. cbn [append split_on].
  destruct (Ascii.eqb_spec c "|") as [->|_].
  - exfalso. apply H. left. reflexivity.
  - cbn [append] in IH. rewrite IH by tauto. reflexivity.
Qed.

Lemma split_on_concat (fields : list string) (first : string) :
  Forall attach_field (first :: fields) ->
  split_on "|" (String.concat "|" (first :: fields)) = first :: fields
  /\ ascii_only (Buffer_from_utf8 (String.concat "|" (first :: fields))).
Proof.
  revert first. induction fields as [|second fields IH]; intros first Hf;
    inversion Hf as [|? ? [Ha Hp] Hrest]; subst.
  - cbn [String.concat]. split; [now apply split_on_field|exact Ha].
  - destruct (IH second Hrest) as [Hs Hasc].
    change (String.concat "|" (first :: second :: fields))
      with (first ++ "|" ++ String.concat "|" (second :: fields))%string.
    split.
    + rewrite split_on_joined by exact Hp. now rewrite Hs.
    + unfold Buffer_from_utf8 in *. rewrite !bytes_of_append.
      unfold ascii_only in *. rewrite !Forall_app. split; [exact Ha|].
      split; [|exact Hasc]. constructor; [vm_compute; discriminate|constructor].
Qed.

(** X13: fields of 7-bit text without the separator,
    joined by "|", decode to themselves: the first is the asset, the second
    the quantity, the third (the empty string when there is none) the
    destination output; further fields are dropped. *)
Theorem decodeAttach_roundtrip {Other : Type} (asset quantity : string)
  (more : list string) :
  Forall attach_field (asset :: quantity :: more) ->
  @decodeAttach Other
    (Buffer_from_utf8 (String.concat "|" (asset :: quantity :: more)))
  = Ok (AttachPayload asset quantity (nth 0 more EmptyString)).
Proof.
  intros Hf. destruct (split_on_concat _ _ Hf) as [Hs Hasc].
  unfold decodeAttach. cbv zeta. rewrite (toString_utf8_text _ Hasc), Hs.
  reflexivity.
Qed.

Lemma decodeAttach_roundtrip_witness :
  Forall attach_field ["XCP"; "1000"; "0"]%string
  /\ @decodeAttach Empty_set (Buffer_from_utf8 "XCP|1000|0")
     = Ok (AttachPayload "XCP" "1000" "0").
Proof.
  assert (H : Forall attach_field ["XCP"; "1000"; "0"]%string).
  { repeat constructor; try (vm_compute; discriminate);
      vm_compute; intuition discriminate. }
  split; [exact H|]. exact (decodeAttach_roundtrip "XCP" "1000" ["0"%string] H).
Defined.

Lemma decodeTextOrHex_lossless_witness :
  exists text,
    decodeTextOrHex Reference.env (Buffer_from_utf8 "Hello") (JString EmptyString)
    = Ok text
    /\ text = "Hello"%string.
Proof.
  destruct (decodeTextOrHex_lossless Reference.env (Buffer_from_utf8 "Hello") EmptyString)
    as (text & Hd & _ & Ht & _).
  exists text. split; [exact Hd|]. apply Ht.
  - left. reflexivity.
  - repeat constructor; vm_compute; discriminate.
Defined.

Lemma decodeTextOrHex_invalid_utf8_witness :
  In xff [x41; xff] /\ never_in_utf8 xff
  /\ decodeTextOrHex Reference.env [x41; xff] (JString "text/plain")
     = Ok "41ff"%string.
Proof.
  assert (Hin : In xff [x41; xff]) by (right; left; reflexivity).
  assert (Hn : never_in_utf8 xff) by (right; right; vm_compute; discriminate).
  split; [exact Hin|]. split; [exact Hn|].
  exact (decodeTextOrHex_invalid_utf8 Reference.env [x41; xff] "text/plain" xff
           Hin Hn).
Defined.

Lemma decodeAttach_needs_separator_witness :
  ~ In x7c (Buffer_from_utf8 "INVALID")
  /\ @decodeAttach Empty_set (Buffer_from_utf8 "INVALID")
     = Throw (ErrorOf "Invalid attach payload").
Proof.
  assert (H : ~ In x7c (Buffer_from_utf8 "INVALID"))
    by (vm_compute; intuition discriminate).
  split; [exact H|].
  exact (proj2 (decodeAttach_needs_separator (Buffer_from_utf8 "INVALID")) H).
Defined.

(* ------------------------------------------------------------------ *)
(** ** Fixed-layout payloads *)
(* ------------------------------------------------------------------ *)

Lemma ltb_false_of_le (a b : Z) : b <= a -> (a <? b) = false.
Proof. intros H. now apply Z.ltb_ge. Qed.

Lemma geb_true_of_le (a b : Z) : b <= a -> (a >=? b) = true.
Proof. intros H. rewrite Z.geb_leb. now apply Z.leb_le. Qed.

Lemma geb_false_of_lt (a b : Z) : a < b -> (a >=? b) = false.
Proof. intros H. rewrite Z.geb_leb. now apply Z.leb_gt. Qed.

Lemma u64_string_in_range (payload : Buffer) (off : Z) :
  0 <= off -> off + 8 <= blength payload ->
  u64_string payload off = Ok (decimal (field_at payload (Z.to_nat off) 8)).
Proof.
  intros H0 H. unfold u64_string, field_at.
  now rewrite readUIntBE_in_range by (change (Z.of_nat 8) with 8; lia).
Qed.

Lemma i64_string_in_range (payload : Buffer) (off : Z) :
  0 <= off -> off + 8 <= blength payload ->
  i64_string payload off
  = Ok (decimal (signed64 (field_at payload (Z.to_nat off) 8))).
Proof.
  intros H0 H. unfold i64_string, readBigInt64BE, field_at, signed64.
  now rewrite readUIntBE_in_range by (change (Z.of_nat 8) with 8; lia).
Qed.

Lemma decodeOrder_value {Other : Type} (payload : Buffer) :
  34 <= blength payload ->
  @decodeOrder Other payload
  = Ok (OrderPayload
          (assetIdToName_bigint (field_at payload 0 8))
          (decimal (signed64 (field_at payload 8 8)))
          (assetIdToName_bigint (field_at payload 16 8))
          (decimal (signed64 (field_at payload 24 8)))
          (field_at payload 32 2)
          (if blength payload <? 42 then "0"%string
           else decimal (signed64 (field_at payload 34 8)))).
Proof.
  intros Hlen. unfold decodeOrder.
  rewrite ltb_false_of_le by lia.
  rewrite (u64_string_in_range payload 0), (u64_string_in_range payload 16),
    (i64_string_in_range payload 8), (i64_string_in_range payload 24) by lia.
  cbn [bind]. rewrite !assetIdToName_of_decimal. cbn [bind].
  rewrite (readUIntBE_in_range payload 32 2) by (cbn; lia).
  cbn [checked bind]. change (Z.to_nat 32) with 32%nat. fold (field_at payload 32 2).
  destruct (Z_lt_ge_dec (blength payload) 42) as [H|H].
  - rewrite geb_false_of_lt by exact H. cbn [bind].
    now rewrite (proj2 (Z.ltb_lt _ _) H).
  - rewrite geb_true_of_le by lia.
    rewrite (i64_string_in_range payload 34) by lia. cbn [bind].
    now rewrite ltb_false_of_le by lia.
Qed.

Lemma decodeDispenser_value {Other : Type} (E : Externals Other)
  (payload : Buffer) (network : Network) :
  33 <= blength payload ->
  decodeDispenser E payload network
  = Ok (DispenserPayload
          (assetIdToName_bigint (field_at payload 0 8))
          (decimal (signed64 (field_at payload 8 8)))
          (decimal (signed64 (field_at payload 16 8)))
          (decimal (signed64 (field_at payload 24 8)))
          (field_at payload 32 1)
          (packed_address E payload 33 network)
          (packed_address E payload 54 network)).
Proof.
  intros Hlen. unfold decodeDispenser.
  rewrite ltb_false_of_le by lia.
  rewrite (u64_string_in_range payload 0), (i64_string_in_range payload 8),
    (i64_string_in_range payload 16), (i64_string_in_range payload 24) by lia.
  cbn [bind]. rewrite !assetIdToName_of_decimal. cbn [bind].
  rewrite (readUIntBE_in_range payload 32 1) by (cbn; lia).
  cbn [checked bind]. change (Z.to_nat 32) with 32%nat. fold (field_at payload 32 1).
  unfold packed_address, subarray.
  change (Z.of_nat 33 + 21) with 54. change (Z.of_nat 54 + 21) with 75.
  change (Z.to_nat (54 - 33)) with 21%nat. change (Z.to_nat (75 - 54)) with 21%nat.
  change (Z.to_nat 33) with 33%nat. change (Z.to_nat 54) with 54%nat.
  rewrite !Z.geb_leb.
  destruct (Z.leb_spec 54 (blength payload)), (Z.ltb_spec (blength payload) 54);
    try lia;
    destruct (Z.leb_spec 75 (blength payload)), (Z.ltb_spec (blength payload) 75);
    try lia; reflexivity.
Qed.

Lemma decodeDividend_value {Other : Type} (payload : Buffer) :
  16 <= blength payload ->
  @decodeDividend Other payload
  = Ok (DividendPayload
          (decimal (signed64 (field_at payload 0 8)))
          (assetIdToName_bigint (field_at payload 8 8))
          (if blength payload <? 24 then "XCP"%string
           else assetIdToName_bigint (field_at payload 16 8))).
Proof.
  intros Hlen. unfold decodeDividend.
  rewrite ltb_false_of_le by lia.
  rewrite (u64_string_in_range payload 8), (i64_string_in_range payload 0) by lia.
  cbn [bind]. rewrite !assetIdToName_of_decimal. cbn [bind].
  destruct (Z_lt_ge_dec (blength payload) 24) as [H|H].
  - rewrite geb_false_of_lt by exact H. cbn [bind].
    now rewrite (proj2 (Z.ltb_lt _ _) H).
  - rewrite geb_true_of_le by lia.
    rewrite (u64_string_in_range payload 16) by lia. cbn [bind].
    rewrite assetIdToName_of_decimal. cbn [bind].
    now rewrite ltb_false_of_le by lia.
Qed.

Lemma field_first (n : nat) (v : Z) (rest : Buffer) :
  field_at (be_bytes n v ++ rest) 0 n = v mod 256 ^ Z.of_nat n.
Proof.
  unfold field_at. cbn [skipn].
  rewrite firstn_app_left by (rewrite length_be_bytes; lia).
  rewrite <- (length_be_bytes n v) at 1. rewrite firstn_all.
  apply be_value_be_bytes.
Qed.

Lemma field_skip (n : nat) (v : Z) (payload : Buffer) (off m : nat) :
  field_at (be_bytes n v ++ payload) (n + off) m = field_at payload off m.
Proof.
  unfold field_at. rewrite skipn_app, length_be_bytes.
  rewrite skipn_all2 by (rewrite length_be_bytes; lia).
  cbn [app]. now replace (n + off - n)%nat with off by lia.
Qed.

Lemma signed64_mod (v : Z) :
  - 2 ^ 63 <= v < 2 ^ 63 -> signed64 (v mod 256 ^ Z.of_nat 8) = v.
Proof.
  intros H. change (256 ^ Z.of_nat 8) with (2 ^ 64). unfold signed64.
  assert (H63 : 2 ^ 64 = 2 * 2 ^ 63) by reflexivity.
  destruct (Z_lt_ge_dec v 0) as [Hneg|Hpos].
  - assert (Hm : v mod 2 ^ 64 = v + 2 ^ 64).
    { symmetry. apply (Z.mod_unique _ _ (-1)); lia. }
    rewrite Hm. destruct (Z.ltb_spec (v + 2 ^ 64) (2 ^ 63)); lia.
  - rewrite Z.mod_small by lia. destruct (Z.ltb_spec v (2 ^ 63)); lia.
Qed.

Lemma unsigned64_mod (v : Z) :
  0 <= v < 2 ^ 64 -> v mod 256 ^ Z.of_nat 8 = v.
Proof. intros H. change (256 ^ Z.of_nat 8) with (2 ^ 64). now apply Z.mod_small. Qed.

Lemma blength_be_bytes (n : nat) (v : Z) : blength (be_bytes n v) = Z.of_nat n.
Proof. unfold blength. now rewrite length_be_bytes. Qed.

(** X14: the six fields of an order packed big-endian
    (ids unsigned and quantities two's complement on 8 bytes, the expiration
    on 2) decode to the names of the two ids and the printed numbers,
    negative quantities included; bytes behind the sixth field are ignored,
    and when fewer than 8 bytes follow the expiration the fee is "0". *)
Theorem decodeOrder_roundtrip {Other : Type}
  (give_id give_quantity get_id get_quantity expiration fee_required : Z)
  (extra : Buffer) :
  0 <= give_id < 2 ^ 64 -> - 2 ^ 63 <= give_quantity < 2 ^ 63 ->
  0 <= get_id < 2 ^ 64 -> - 2 ^ 63 <= get_quantity < 2 ^ 63 ->
  0 <= expiration < 2 ^ 16 -> - 2 ^ 63 <= fee_required < 2 ^ 63 ->
  let order fee :=
    OrderPayload (Other := Other)
      (assetIdToName_bigint give_id) (decimal give_quantity)
      (assetIdToName_bigint get_id) (decimal get_quantity) expiration fee in
  let packed tail :=
    be_bytes 8 give_id ++ be_bytes 8 give_quantity ++ be_bytes 8 get_id
    ++ be_bytes 8 get_quantity ++ be_bytes 2 expiration ++ tail in
  decodeOrder (packed (be_bytes 8 fee_required ++ extra))
  = Ok (order (decimal fee_required))
  /\ (blength extra < 8 -> decodeOrder (packed extra) = Ok (order "0"%string)).
Proof.
  intros Hg Hgq Ht Htq He Hf order packed.
  assert (Hfields : forall tail,
    field_at (packed tail) 0 8 = give_id
    /\ signed64 (field_at (packed tail) 8 8) = give_quantity
    /\ field_at (packed tail) 16 8 = get_id
    /\ signed64 (field_at (packed tail) 24 8) = get_quantity
    /\ field_at (packed tail) 32 2 = expiration
    /\ field_at (packed tail) 34 8 = field_at tail 0 8
    /\ blength (packed tail) = 34 + blength tail).
  { intros tail. unfold packed. repeat split.
    - rewrite field_first. now apply unsigned64_mod.
    - rewrite (field_skip 8 _ _ 0), field_first. now apply signed64_mod.
    - change 16%nat with (8 + (8 + 0))%nat.
      rewrite !field_skip, field_first. now apply unsigned64_mod.
    - change 24%nat with (8 + (8 + (8 + 0)))%nat.
      rewrite !field_skip, field_first. now apply signed64_mod.
    - change 32%nat with (8 + (8 + (8 + (8 + 0))))%nat.
      rewrite !field_skip, field_first.
      change (256 ^ Z.of_nat 2) with (2 ^ 16). now apply Z.mod_small.
    - rewrite !blength_app, !blength_be_bytes. lia. }
  split.
  - destruct (Hfields (be_bytes 8 fee_required ++ extra))
      as (F0 & F8 & F16 & F24 & F32 & F34 & Hlen).
    rewrite blength_app, blength_be_bytes in Hlen.
    pose proof (blength_nonneg extra).
    rewrite decodeOrder_value by lia.
    rewrite F0, F8, F16, F24, F32, F34, field_first, signed64_mod by exact Hf.
    now rewrite ltb_false_of_le by lia.
  - intros Hshort.
    destruct (Hfields extra) as (F0 & F8 & F16 & F24 & F32 & _ & Hlen).
    pose proof (blength_nonneg extra).
    rewrite decodeOrder_value by lia.
    rewrite F0, F8, F16, F24, F32.
    now rewrite (proj2 (Z.ltb_lt _ _)) by lia.
Qed.

Lemma decodeOrder_roundtrip_witness :
  @decodeOrder Empty_set
    (be_bytes 8 1 ++ be_bytes 8 (-5) ++ be_bytes 8 0 ++ be_bytes 8 1000
     ++ be_bytes 2 100 ++ be_bytes 8 7 ++ [xaa])
  = Ok (OrderPayload "XCP" "-5" "BTC" "1000" 100 "7").
Proof.
  refine (proj1 (decodeOrder_roundtrip 1 (-5) 0 1000 100 7 [xaa] _ _ _ _ _ _));
    vm_compute; split; congruence.
Defined.

(** X15: a dividend packed big-endian with three
    8-byte fields decodes to the printed quantity and the names of the two
    ids; with two fields only, followed by fewer than 8 bytes, the dividend
    asset is XCP. *)
Theorem decodeDividend_roundtrip {Other : Type}
  (quantity_per_unit asset_id dividend_asset_id : Z) (extra : Buffer) :
  - 2 ^ 63 <= quantity_per_unit < 2 ^ 63 -> 0 <= asset_id < 2 ^ 64 ->
  0 <= dividend_asset_id < 2 ^ 64 ->
  @decodeDividend Other
    (be_bytes 8 quantity_per_unit ++ be_bytes 8 asset_id
     ++ be_bytes 8 dividend_asset_id ++ extra)
  = Ok (DividendPayload (decimal quantity_per_unit)
          (assetIdToName_bigint asset_id)
          (assetIdToName_bigint dividend_asset_id))
  /\ (blength extra < 8 ->
      @decodeDividend Other
        (be_bytes 8 quantity_per_unit ++ be_bytes 8 asset_id ++ extra)
      = Ok (DividendPayload (decimal quantity_per_unit)
              (assetIdToName_bigint asset_id) "XCP")).
Proof.
  intros Hq Ha Hd. pose proof (blength_nonneg extra). split.
  - rewrite decodeDividend_value
      by (rewrite !blength_app, !blength_be_bytes; lia).
    rewrite field_first, (field_skip 8 _ _ 0), field_first.
    change 16%nat with (8 + (8 + 0))%nat. rewrite !field_skip, field_first.
    rewrite signed64_mod, !unsigned64_mod by assumption.
    rewrite !blength_app, !blength_be_bytes.
    now rewrite ltb_false_of_le by lia.
  - intros Hshort.
    rewrite decodeDividend_value
      by (rewrite !blength_app, !blength_be_bytes; lia).
    rewrite field_first, (field_skip 8 _ _ 0), field_first.
    rewrite signed64_mod, !unsigned64_mod by assumption.
    rewrite !blength_app, !blength_be_bytes.
    now rewrite (proj2 (Z.ltb_lt _ _)) by lia.
Qed.

Lemma decodeDividend_roundtrip_witness :
  @decodeDividend Empty_set (be_bytes 8 (-3) ++ be_bytes 8 1 ++ [x00; x01])
  = Ok (DividendPayload "-3" "XCP" "XCP").
Proof.
  refine (proj2 (decodeDividend_roundtrip (-3) 1 0 [x00; x01] _ _ _) _);
    vm_compute; try split; congruence.
Defined.

Section FixedLayouts.

Context {Other : Type}.
Variable E : Externals Other.

Lemma packed_address_prefix (payload extra : Buffer) (off : nat)
  (network : Network) :
  Z.of_nat off + 21 <= blength payload ->
  packed_address E (payload ++ extra) off network
  = packed_address E payload off network.
Proof.
  intros H. unfold packed_address. pose proof (blength_nonneg extra).
  rewrite blength_app, !ltb_false_of_le by lia.
  rewrite skipn_app, firstn_app_left; [reflexivity|].
  rewrite length_skipn. unfold blength in H. lia.
Qed.

Lemma field_prefix (payload extra : Buffer) (off n : nat) :
  Z.of_nat off + Z.of_nat n <= blength payload ->
  field_at (payload ++ extra) off n = field_at payload off n.
Proof.
  intros H. unfold field_at.
  rewrite skipn_app, firstn_app_left; [reflexivity|].
  rewrite length_skipn. unfold blength in H. lia.
Qed.

(** X16: decodeDispenser accepts every payload of at
    least 33 bytes: the asset name, three signed quantities and the status
    byte come from the first 33 bytes; the action address is present from 54
    bytes on and the oracle address from 75 bytes on, each decoded from its
    21 bytes; bytes from offset 75 on are ignored. *)
Theorem decodeDispenser_layout (payload : Buffer) (network : Network) :
  33 <= blength payload ->
  decodeDispenser E payload network
  = Ok (DispenserPayload
          (assetIdToName_bigint (field_at payload 0 8))
          (decimal (signed64 (field_at payload 8 8)))
          (decimal (signed64 (field_at payload 16 8)))
          (decimal (signed64 (field_at payload 24 8)))
          (field_at payload 32 1)
          (packed_address E payload 33 network)
          (packed_address E payload 54 network))
  /\ (blength payload < 54 ->
      packed_address E payload 33 network = None
      /\ packed_address E payload 54 network = None)
  /\ (54 <= blength payload < 75 ->
      packed_address E payload 33 network <> None
      /\ packed_address E payload 54 network = None)
  /\ (75 <= blength payload ->
      forall extra,
        decodeDispenser E (payload ++ extra) network
        = decodeDispenser E payload network).
Proof.
  intros Hlen. split; [now apply decodeDispenser_value|].
  unfold packed_address at 1 2 3 4.
  change (Z.of_nat 33 + 21) with 54. change (Z.of_nat 54 + 21) with 75.
  split; [|split].
  - intros H. now rewrite !(proj2 (Z.ltb_lt _ _)) by lia.
  - intros H. rewrite ltb_false_of_le by lia.
    rewrite (proj2 (Z.ltb_lt _ _)) by lia. split; [discriminate|reflexivity].
  - intros H extra. pose proof (blength_nonneg extra).
    rewrite !decodeDispenser_value by (rewrite ?blength_app; lia).
    rewrite !field_prefix, !packed_address_prefix
      by (cbn [Z.of_nat Pos.of_succ_nat Pos.succ]; lia).
    reflexivity.
Qed.

(** X17: decodeBtcPay returns the hex of the first two
    32-byte hashes and decodeCancel the hex of the first one, whatever
    follows; decoding that hex gives the hashes back. *)
Theorem hashes_roundtrip (tx0 tx1 extra : Buffer) :
  blength tx0 = 32 -> blength tx1 = 32 ->
  @decodeBtcPay Other (tx0 ++ tx1 ++ extra)
  = Ok (BtcPayPayload (toString_hex tx0) (toString_hex tx1))
  /\ @decodeCancel Other (tx0 ++ extra) = Ok (CancelPayload (toString_hex tx0))
  /\ Buffer_from_hex (toString_hex tx0) = tx0
  /\ Buffer_from_hex (toString_hex tx1) = tx1.
Proof.
  intros H0 H1. pose proof (blength_nonneg extra).
  assert (L0 : List.length tx0 = 32%nat) by (unfold blength in H0; lia).
  assert (L1 : List.length tx1 = 32%nat) by (unfold blength in H1; lia).
  split; [|split; [|split; apply hex_roundtrip]].
  - unfold decodeBtcPay.
    rewrite ltb_false_of_le by (rewrite !blength_app; lia).
    unfold subarray. change (Z.to_nat (32 - 0)) with 32%nat.
    change (Z.to_nat (64 - 32)) with 32%nat. change (Z.to_nat 0) with 0%nat.
    change (Z.to_nat 32) with 32%nat. rewrite skipn_O.
    rewrite firstn_app_left by lia. rewrite <- L0 at 1. rewrite firstn_all.
    rewrite skipn_app, skipn_all2, L0 by lia.
    change (32 - 32)%nat with 0%nat. rewrite skipn_O. cbn [app].
    rewrite firstn_app_left by lia. rewrite <- L1 at 1. now rewrite firstn_all.
  - unfold decodeCancel.
    rewrite ltb_false_of_le by (rewrite !blength_app; lia).
    unfold subarray. change (Z.to_nat (32 - 0)) with 32%nat.
    change (Z.to_nat 0) with 0%nat. rewrite skipn_O.
    rewrite firstn_app_left by lia. rewrite <- L0 at 1. now rewrite firstn_all.
Qed.

(** X18: each fixed-layout decoder has one least
    length: below it the dispatch reports the decoder's own error with the
    hex of the payload, and from it on the payload always decodes, since the
    length tests cover every read. *)
Theorem fixed_layout_minimum (messageId least : Z) (message : string)
  (payload : Buffer) (network : Network) :
  In (messageId, least, message) fixed_layouts ->
  (blength payload < least ->
   decodePayload E messageId payload network
   = UnknownPayload (toString_hex payload) (Some message))
  /\ (least <= blength payload ->
      forall raw error,
        decodePayload E messageId payload network <> UnknownPayload raw error).
Proof.
  unfold fixed_layouts. cbn [In].
  intros [H|[H|[H|[H|[H|[H|[]]]]]]]; injection H as <- <- <-; split; intros Hlen;
    try (unfold decodePayload; cbn [decodePayload_try];
         unfold decodeOrder, decodeBtcPay, decodeDispenser, decodeDividend,
           decodeCancel, decodeDestroy;
         now rewrite (proj2 (Z.ltb_lt _ _)) by exact Hlen);
    intros raw error.
  - unfold decodePayload. cbn [decodePayload_try].
    rewrite (decodeOrder_value payload Hlen). discriminate.
  - unfold decodePayload. cbn [decodePayload_try]. unfold decodeBtcPay.
    rewrite ltb_false_of_le by exact Hlen. discriminate.
  - unfold decodePayload. cbn [decodePayload_try].
    rewrite (decodeDispenser_value E payload network Hlen). discriminate.
  - unfold decodePayload. cbn [decodePayload_try].
    rewrite (decodeDividend_value payload Hlen). discriminate.
  - unfold decodePayload. cbn [decodePayload_try]. unfold decodeCancel.
    rewrite ltb_false_of_le by exact Hlen. discriminate.
  - unfold decodePayload. cbn [decodePayload_try].
    rewrite (decodeDestroy_value payload Hlen). discriminate.
Qed.

(** X19: the dispatch accepts a dispense payload
    exactly when it is the single byte 0x00; any other payload, the empty one
    included, is reported with the decoder's error and its hex. *)
Theorem decodeDispense_exact (payload : Buffer) (network : Network) :
  (payload = [x00] ->
   decodePayload E 13 payload network = DispensePayload "0x00")
  /\ (payload <> [x00] ->
      decodePayload E 13 payload network
      = UnknownPayload (toString_hex payload)
          (Some "Invalid dispense payload: expected 0x00"%string)).
Proof.
  split.
  - intros ->. reflexivity.
  - intros Hne.
    unfold decodePayload. cbn [decodePayload_try]. unfold decodeDispense.
    destruct payload as [|b [|c rest]].
    + reflexivity.
    + change (blength [b] =? 1) with true.
      change (byte_at [b] 0) with (Some (u8 b)). cbn [negb orb is_byte].
      destruct (Z.eqb_spec (u8 b) 0) as [H0|_]; [|reflexivity].
      exfalso. apply Hne. f_equal. rewrite <- (to_u8_u8 b), H0. reflexivity.
    + assert (Hl : (blength (b :: c :: rest) =? 1) = false).
      { apply Z.eqb_neq. rewrite !blength_cons.
        pose proof (blength_nonneg rest). lia. }
      now rewrite Hl.
Qed.

End FixedLayouts.

Lemma decodeDispenser_layout_witness :
  33 <= blength (repeat x00 60)
  /\ 54 <= blength (repeat x00 60) < 75
  /\ packed_address Reference.env (repeat x00 60) 33 Reference.bitcoin <> None
  /\ packed_address Reference.env (repeat x00 60) 54 Reference.bitcoin = None.
Proof.
  assert (H : 33 <= blength (repeat x00 60)) by (vm_compute; discriminate).
  assert (H' : 54 <= blength (repeat x00 60) < 75)
    by (vm_compute; split; [discriminate|reflexivity]).
  split; [exact H|]. split; [exact H'|].
  exact (proj1 (proj2 (proj2 (decodeDispenser_layout Reference.env (repeat x00 60)
                                 Reference.bitcoin H))) H').
Defined.

Lemma hashes_roundtrip_witness :
  @decodeBtcPay Empty_set (repeat xaa 32 ++ repeat xbb 32 ++ [xcc])
  = Ok (BtcPayPayload (toString_hex (repeat xaa 32)) (toString_hex (repeat xbb 32))).
Proof.
  exact (proj1 (hashes_roundtrip (Other := Empty_set) (repeat xaa 32)
                  (repeat xbb 32) [xcc] eq_refl eq_refl)).
Defined.

Lemma fixed_layout_minimum_witness :
  In (70, 32, "Invalid cancel payload"%string) fixed_layouts
  /\ blength [xaa; xbb] < 32
  /\ decodePayload Reference.env 70 [xaa; xbb] Reference.bitcoin
     = UnknownPayload "aabb" (Some "Invalid cancel payload"%string).
Proof.
  assert (H : In (70, 32, "Invalid cancel payload"%string) fixed_layouts)
    by (vm_compute; tauto).
  assert (Hl : blength [xaa; xbb] < 32) by reflexivity.
  split; [exact H|]. split; [exact Hl|].
  exact (proj1 (fixed_layout_minimum Reference.env 70 32 _ [xaa; xbb]
                  Reference.bitcoin H) Hl).
Defined.

Lemma decodeDispense_exact_witness :
  [x01] <> [x00]
  /\ decodePayload Reference.env 13 [x01] Reference.bitcoin
     = UnknownPayload "01" (Some "Invalid dispense payload: expected 0x00"%string).
Proof.
  assert (H : [x01] <> [x00]) by discriminate.
  split; [exact H|].
  exact (proj2 (decodeDispense_exact Reference.env [x01] Reference.bitcoin) H).
Defined.

(* ------------------------------------------------------------------ *)
(** ** Witness scripts and envelopes *)
(* ------------------------------------------------------------------ *)

Lemma opens_envelope_test (script : Buffer) :
  (blength script >? 2) && is_byte (byte_at script 0) 0x00
  && is_byte (byte_at script 1) 0x63 = true
  <-> opens_envelope script.
Proof.
  unfold opens_envelope. split.
  - intros H. apply andb_prop in H. destruct H as [H H1].
    apply andb_prop in H. destruct H as [Hl H0].
    rewrite Z.gtb_ltb in Hl. apply Z.ltb_lt in Hl.
    destruct script as [|a [|b [|c rest]]];
      try (unfold blength in Hl; cbn [List.length] in Hl; lia).
    change (byte_at (a :: b :: c :: rest) 0) with (Some (u8 a)) in H0.
    change (byte_at (a :: b :: c :: rest) 1) with (Some (u8 b)) in H1.
    apply is_byte_spec in H0, H1. injection H0 as H0. injection H1 as H1.
    exists c, rest. f_equal; [|f_equal].
    + rewrite <- (to_u8_u8 a), H0. reflexivity.
    + rewrite <- (to_u8_u8 b), H1. reflexivity.
  - intros (b & rest & ->).
    change (byte_at (x00 :: x63 :: b :: rest) 0) with (Some 0).
    change (byte_at (x00 :: x63 :: b :: rest) 1) with (Some 99).
    cbn [is_byte Z.eqb Pos.eqb]. rewrite !andb_true_r, Z.gtb_ltb.
    apply Z.ltb_lt. rewrite !blength_cons. pose proof (blength_nonneg rest). lia.
Qed.

Lemma find_envelope_script_first (inputs : list TxInput) :
  match find_envelope_script inputs with
  | Some script =>
      exists before input after,
        inputs = before ++ input :: after
        /\ Forall (fun i => ~ carries_envelope i) before
        /\ script_slot input = Some script /\ opens_envelope script
  | None => Forall (fun i => ~ carries_envelope i) inputs
  end.
Proof.
  induction inputs as [|input inputs IH]; cbn [find_envelope_script];
    [constructor|].
  assert (Hskip : ~ carries_envelope input ->
    match find_envelope_script inputs with
    | Some script =>
        exists before input0 after,
          input :: inputs = before ++ input0 :: after
          /\ Forall (fun i => ~ carries_envelope i) before
          /\ script_slot input0 = Some script /\ opens_envelope script
    | None => Forall (fun i => ~ carries_envelope i) (input :: inputs)
    end).
  { intros Hn. destruct (find_envelope_script inputs) as [script|].
    - destruct IH as (before & input0 & after & -> & Hb & Hs & Ho).
      exists (input :: before), input0, after.
      split; [reflexivity|]. split; [now constructor|]. now split.
    - now constructor. }
  destruct (Nat.ltb_spec (List.length (witness input)) 2) as [Hlt|Hge].
  - apply Hskip. intros (script & Hs & _). unfold script_slot in Hs.
    rewrite (proj2 (Nat.ltb_lt _ _) Hlt) in Hs. discriminate.
  - set (script := nth (List.length (witness input) - 2) (witness input) []).
    assert (Hslot : script_slot input = Some script).
    { unfold script_slot. cbv zeta.
      destruct (Nat.ltb_spec (List.length (witness input)) 2); [lia|reflexivity]. }
    destruct ((blength script >? 2) && is_byte (byte_at script 0) 0
              && is_byte (byte_at script 1) 99) eqn:Et.
    + apply opens_envelope_test in Et.
      exists [], input, inputs. split; [reflexivity|].
      split; [constructor|]. now split.
    + apply Hskip. intros (script' & Hs & Ho). rewrite Hslot in Hs.
      injection Hs as <-. apply opens_envelope_test in Ho. congruence.
Qed.

Section Witnesses.

Context {Other : Type}.
Variable E : Externals Other.

(** X20: from a transaction that parses,
    extractWitnessScript returns the second-to-last witness element of the
    first input where that element opens with OP_FALSE OP_IF and has a third
    byte; inputs with fewer than two witness elements are passed over, and
    when no input qualifies, or the transaction does not parse, the result is
    the no-match value. *)
Theorem extractWitnessScript_first (txBuffer : Buffer) :
  match Transaction_fromBuffer E txBuffer with
  | Ok tx =>
      match extractWitnessScript E txBuffer with
      | Some script =>
          exists before input after,
            ins tx = before ++ input :: after
            /\ Forall (fun i => ~ carries_envelope i) before
            /\ script_slot input = Some script /\ opens_envelope script
      | None => Forall (fun i => ~ carries_envelope i) (ins tx)
      end
  | Throw _ => extractWitnessScript E txBuffer = None
  end.
Proof.
  unfold extractWitnessScript.
  destruct (Transaction_fromBuffer E txBuffer) as [tx|e]; [|reflexivity].
  cbn [bind]. destruct (hasWitnesses tx) eqn:Hw; cbn [negb try_or].
  - apply find_envelope_script_first.
  - apply Forall_forall. intros input Hin (script & Hs & _).
    unfold hasWitnesses in Hw.
    assert (Hz : negb (Nat.eqb (List.length (witness input)) 0) = false).
    { destruct (negb (Nat.eqb (List.length (witness input)) 0)) eqn:Hn;
        [|reflexivity].
      rewrite <- Hw. symmetry. apply existsb_exists. now exists input. }
    apply negb_false_iff, Nat.eqb_eq in Hz.
    unfold script_slot in Hs. rewrite Hz in Hs. discriminate.
Qed.

End Witnesses.

Lemma generic_loop_step (fuel : nat) (pre rest : Buffer) (opcode : byte)
  (acc : list Buffer) :
  stepped_over opcode ->
  generic_loop (S fuel) (pre ++ [opcode] ++ rest) (blength pre) acc
  = generic_loop fuel ((pre ++ [opcode]) ++ rest) (blength (pre ++ [opcode])) acc.
Proof.
  intros Hop. pose proof (u8_range opcode) as Hr.
  rewrite <- (app_assoc pre). rewrite (blength_app pre).
  cbn [app generic_loop]. rewrite offset_inside, byte_at_here.
  unfold stepped_over in Hop.
  rewrite !is_byte_neq, byte_between_out by lia.
  reflexivity.
Qed.

Lemma generic_loop_items (items : list script_item) :
  forall pre tail acc fuel,
    Forall item_ok items ->
    generic_loop (List.length items + fuel) (pre ++ items_script items ++ tail)
      (blength pre) acc
    = generic_loop fuel ((pre ++ items_script items) ++ tail)
        (blength (pre ++ items_script items)) (acc ++ items_chunks items).
Proof.
  induction items as [|[w c|op] items IH]; intros pre tail acc fuel Hok.
  - cbn [items_script items_chunks flat_map List.length Nat.add app].
    now rewrite !app_nil_r.
  - inversion Hok as [|i0 rest0 Hi Hrest]; subst. cbn [item_ok] in Hi.
    cbn [items_script items_chunks flat_map item_bytes List.length Nat.add].
    fold (items_script items). fold (items_chunks items).
    rewrite <- (app_assoc (push w c)), generic_loop_push by exact Hi.
    rewrite IH by exact Hrest. now rewrite <- !app_assoc.
  - inversion Hok as [|i0 rest0 Hi Hrest]; subst. cbn [item_ok] in Hi.
    cbn [items_script items_chunks flat_map item_bytes List.length Nat.add].
    fold (items_script items). fold (items_chunks items).
    rewrite <- (app_assoc [op]), generic_loop_step by exact Hi.
    rewrite IH by exact Hrest. now rewrite <- !app_assoc.
Qed.

Lemma length_items_script (items : list script_item) :
  Forall item_ok items ->
  (List.length items <= List.length (items_script items))%nat.
Proof.
  induction 1 as [|[w c|op] items Hi _ IH]; [cbn; lia| |];
    cbn [items_script flat_map item_bytes List.length]; fold (items_script items);
    rewrite length_app.
  - cbn [item_ok] in Hi. destruct (push_nonempty w c Hi) as (b & t & -> & _).
    cbn [List.length]. lia.
  - cbn [List.length]. lia.
Qed.

(** The scan of [pre ++ items ++ tail] from behind [pre], reduced to the
    scan of [tail]. *)
Lemma extractGenericEnvelope_items (pre : Buffer) (items : list script_item)
  (tail : Buffer) :
  Forall item_ok items ->
  extractGenericEnvelope (pre ++ items_script items ++ tail) (blength pre)
  = match generic_loop (List.length tail) ((pre ++ items_script items) ++ tail)
            (blength (pre ++ items_script items)) (items_chunks items) with
    | Ok chunks => Some (List.concat chunks)
    | Throw _ => None
    end.
Proof.
  intros Hok. unfold extractGenericEnvelope.
  pose proof (length_items_script items Hok) as Hl.
  set (script := pre ++ items_script items ++ tail).
  assert (Hlen : List.length script
                 = (List.length items
                    + (List.length tail
                       + (List.length pre + List.length (items_script items)
                          - List.length items)))%nat).
  { unfold script. rewrite !length_app. lia. }
  rewrite Hlen. unfold script. rewrite generic_loop_items by exact Hok.
  cbn [app]. rewrite generic_loop_fuel; [reflexivity| |].
  - apply blength_nonneg.
  - rewrite (blength_app (pre ++ items_script items)). unfold blength. lia.
Qed.

(** X21: extractGenericEnvelope returns the pushed
    chunks in order, whatever width pushes each of them; the opcodes between
    the pushes that are no push (OP_0, and those above PUSHDATA4) do not
    count; the scan ends at OP_ENDIF, with everything behind it ignored, or at
    the end of a script that has no OP_ENDIF. *)
Theorem generic_envelope_items (pre : Buffer) (items : list script_item)
  (trailer : Buffer) :
  Forall item_ok items ->
  extractGenericEnvelope (pre ++ items_script items ++ x68 :: trailer)
    (blength pre)
  = Some (List.concat (items_chunks items))
  /\ extractGenericEnvelope (pre ++ items_script items) (blength pre)
     = Some (List.concat (items_chunks items)).
Proof.
  intros Hok. split.
  - rewrite extractGenericEnvelope_items by exact Hok.
    cbn [List.length generic_loop].
    rewrite offset_inside, byte_at_here. reflexivity.
  - rewrite <- (app_nil_r (items_script items)) at 1.
    rewrite extractGenericEnvelope_items by exact Hok. reflexivity.
Qed.

Lemma generic_envelope_items_witness :
  let items := [Stepped x51; Pushed Direct [xaa; xbb]; Stepped x00;
                Pushed PushData2 [xcc]] in
  Forall item_ok items
  /\ extractGenericEnvelope [x00; x63; x51; x02; xaa; xbb; x00; x4d; x01; x00;
                             xcc; x68; xff] 2
     = Some [xaa; xbb; xcc].
Proof.
  assert (H : Forall item_ok [Stepped x51; Pushed Direct [xaa; xbb]; Stepped x00;
                              Pushed PushData2 [xcc]]).
  { repeat constructor; vm_compute; intuition discriminate. }
  split; [exact H|].
  exact (proj1 (generic_envelope_items [x00; x63] _ [xff] H)).
Defined.

Lemma subarray_clamped (pre hdr partial : Buffer) (n : Z) :
  blength partial <= n ->
  subarray (pre ++ hdr ++ partial) (blength pre + blength hdr)
    (blength pre + blength hdr + n) = partial.
Proof.
  intros Hn. unfold subarray.
  assert (Hs : skipn (Z.to_nat (blength pre + blength hdr))
                 (pre ++ hdr ++ partial) = partial).
  { rewrite app_assoc.
    replace (blength pre + blength hdr) with (blength (pre ++ hdr) + 0)
      by (rewrite blength_app; lia).
    rewrite skipn_past by lia. reflexivity. }
  rewrite Hs. apply firstn_all2. unfold blength in *. lia.
Qed.

Lemma generic_loop_past (fuel : nat) (script : Buffer) (offset : Z)
  (acc : list Buffer) :
  blength script <= offset -> generic_loop fuel script offset acc = Ok acc.
Proof.
  intros H. destruct fuel; [reflexivity|]. cbn [generic_loop].
  now rewrite (proj2 (Z.ltb_ge _ _) H).
Qed.

Lemma byte_at_end (buf : Buffer) (i : Z) :
  blength buf <= i -> byte_at buf i = None.
Proof.
  intros H. unfold byte_at. pose proof (blength_nonneg buf).
  rewrite (proj2 (Z.ltb_ge _ _)) by lia.
  assert (Hn : nth_error buf (Z.to_nat i) = None).
  { apply nth_error_None. unfold blength in H. lia. }
  now rewrite Hn.
Qed.

Lemma readUIntLE_short (buf : Buffer) (off : Z) (n : nat) :
  blength buf < off + Z.of_nat n -> readUIntLE buf off n = None.
Proof.
  intros H. unfold readUIntLE.
  rewrite (proj2 (Z.ltb_lt _ _) H), orb_true_r. reflexivity.
Qed.

(** X22: a script that ends inside a push is
    treated by kind: when the length bytes of a PUSHDATA2 or PUSHDATA4 are cut,
    extractGenericEnvelope gives the no-match value; when the data of a direct
    push are cut, the bytes that are there count as the chunk; a PUSHDATA1
    opcode in the last position adds nothing. *)
Theorem generic_envelope_truncated (pre : Buffer) (items : list script_item) :
  Forall item_ok items ->
  (forall short,
     blength short < 2 ->
     extractGenericEnvelope (pre ++ items_script items ++ x4d :: short)
       (blength pre) = None)
  /\ (forall short,
        blength short < 4 ->
        extractGenericEnvelope (pre ++ items_script items ++ x4e :: short)
          (blength pre) = None)
  /\ (forall n partial,
        1 <= n <= 75 -> blength partial < n ->
        extractGenericEnvelope (pre ++ items_script items ++ to_u8 n :: partial)
          (blength pre)
        = Some (List.concat (items_chunks items) ++ partial))
  /\ extractGenericEnvelope (pre ++ items_script items ++ [x4c]) (blength pre)
     = Some (List.concat (items_chunks items)).
Proof.
  intros Hok. set (head := pre ++ items_script items).
  split; [|split; [|split]].
  - intros short Hs. rewrite extractGenericEnvelope_items by exact Hok.
    fold head. cbn [List.length generic_loop].
    rewrite offset_inside, byte_at_here. change (u8 x4d) with 77.
    cbn [is_byte byte_between Z.eqb Z.leb Z.compare Pos.compare Pos.compare_cont
           Pos.eqb andb].
    rewrite readUIntLE_short; [reflexivity|].
    rewrite blength_app, blength_cons. change (Z.of_nat 2) with 2. lia.
  - intros short Hs. rewrite extractGenericEnvelope_items by exact Hok.
    fold head. cbn [List.length generic_loop].
    rewrite offset_inside, byte_at_here. change (u8 x4e) with 78.
    cbn [is_byte byte_between Z.eqb Z.leb Z.compare Pos.compare Pos.compare_cont
           Pos.eqb andb].
    rewrite readUIntLE_short; [reflexivity|].
    rewrite blength_app, blength_cons. change (Z.of_nat 4) with 4. lia.
  - intros n partial Hn Hp. rewrite extractGenericEnvelope_items by exact Hok.
    fold head. cbn [List.length generic_loop].
    rewrite offset_inside, byte_at_here, u8_of_small by lia.
    rewrite is_byte_neq, byte_between_in by lia.
    change (head ++ to_u8 n :: partial) with (head ++ [to_u8 n] ++ partial).
    change (blength head + 1) with (blength head + blength [to_u8 n]).
    rewrite subarray_clamped by lia.
    rewrite generic_loop_past.
    + rewrite concat_app. cbn [List.concat]. now rewrite app_nil_r.
    + rewrite !blength_app. change (blength [to_u8 n]) with 1. lia.
  - rewrite extractGenericEnvelope_items by exact Hok.
    fold head. cbn [List.length generic_loop].
    rewrite offset_inside, byte_at_here. change (u8 x4c) with 76.
    cbn [is_byte byte_between Z.eqb Z.leb Z.compare Pos.compare Pos.compare_cont
           Pos.eqb andb].
    rewrite byte_at_end by (rewrite blength_app; change (blength [x4c]) with 1; lia).
    rewrite concat_app. cbn [List.concat]. now rewrite !app_nil_r.
Qed.

Lemma generic_envelope_truncated_witness :
  Forall item_ok [Pushed Direct [xaa]]
  /\ extractGenericEnvelope [x00; x63; x01; xaa; x4d; x05] 2 = None
  /\ extractGenericEnvelope [x00; x63; x01; xaa; x05; xbb; xcc] 2
     = Some [xaa; xbb; xcc].
Proof.
  assert (H : Forall item_ok [Pushed Direct [xaa]]).
  { repeat constructor; vm_compute; discriminate. }
  split; [exact H|]. split.
  - apply (proj1 (generic_envelope_truncated [x00; x63] _ H) [x05]).
    vm_compute. reflexivity.
  - apply (proj1 (proj2 (proj2 (generic_envelope_truncated [x00; x63] _ H)))
             5 [xbb; xcc]); vm_compute; [split; discriminate|reflexivity].
Defined.

Lemma ordxcp_loop_prefix (pushes : list (push_width * Buffer)) :
  forall pre tail acc fuel,
    pushes_fit pushes -> pushes_narrow pushes ->
    ordxcp_loop (List.length pushes + fuel) (pre ++ script_of pushes ++ tail)
      (blength pre) acc
    = ordxcp_loop fuel ((pre ++ script_of pushes) ++ tail)
        (blength (pre ++ script_of pushes)) (acc ++ map snd pushes).
Proof.
  induction pushes as [|[w c] pushes IH]; intros pre tail acc fuel Hfit Hnar.
  - cbn [script_of flat_map List.length Nat.add app map].
    now rewrite !app_nil_r.
  - inversion Hfit as [|p ps Hw Hrest]; subst. cbn [fst snd] in Hw.
    inversion Hnar as [|p ps Hn Hnrest]; subst. cbn [fst] in Hn.
    cbn [script_of flat_map fst snd List.length Nat.add]. fold (script_of pushes).
    rewrite <- (app_assoc (push w c)), ordxcp_loop_push by assumption.
    rewrite IH by assumption. cbn [map snd]. now rewrite <- !app_assoc.
Qed.

Lemma ordxcp_loop_metadata (pre : Buffer) (pushes : list (push_width * Buffer))
  (tail : Buffer) :
  pushes_fit pushes -> pushes_narrow pushes -> ends_metadata tail ->
  ordxcp_loop (List.length (pre ++ script_of pushes ++ tail))
    (pre ++ script_of pushes ++ tail) (blength pre) []
  = map snd pushes.
Proof.
  intros Hfit Hnar Hend.
  pose proof (length_script_of pushes Hfit) as Hl.
  assert (Hlen : List.length (pre ++ script_of pushes ++ tail)
                 = (List.length pushes
                    + (List.length tail
                       + (List.length pre + List.length (script_of pushes)
                          - List.length pushes)))%nat).
  { rewrite !length_app. lia. }
  rewrite Hlen, ordxcp_loop_prefix by assumption. cbn [app].
  rewrite ordxcp_loop_fuel;
    [|apply blength_nonneg
     |rewrite (blength_app (pre ++ script_of pushes)); unfold blength; lia].
  destruct Hend as [->|[[rest ->]|[content ->]]].
  - cbn [List.length ordxcp_loop]. reflexivity.
  - cbn [List.length ordxcp_loop]. rewrite offset_inside, byte_at_here.
    reflexivity.
  - cbn [List.length ordxcp_loop]. rewrite offset_inside, byte_at_here.
    reflexivity.
Qed.

Section OrdXcp.

Context {Other : Type}.
Variable E : Externals Other.

Lemma extractFromEnvelope_ordxcp_script (mimeType : Buffer)
  (pushes : list (push_width * Buffer)) (tail : Buffer) :
  blength mimeType < 256 ->
  pushes_fit pushes -> pushes_narrow pushes -> ends_metadata tail ->
  extractFromEnvelope E (ordxcp_script mimeType pushes tail)
  = try_or (reframe E (chunks_of pushes) mimeType) None.
Proof.
  intros Hm Hfit Hnar Hend.
  set (lenb := to_u8 (blength mimeType)).
  set (head := [x00; x63; x6f; x72; x64; x07; x78; x63; x70; x01]).
  assert (Hs : ordxcp_script mimeType pushes tail
               = head ++ [lenb] ++ mimeType ++ x05 :: script_of pushes ++ tail)
    by reflexivity.
  rewrite Hs. unfold head at 1. cbn [app].
  rewrite (extractFromEnvelope_ord E
             (x01 :: lenb :: mimeType ++ x05 :: script_of pushes ++ tail)).
  unfold extractOrdXcpEnvelope. cbv zeta.
  change (x00 :: x63 :: x6f :: x72 :: x64 :: x07 :: x78 :: x63 :: x70 :: x01
          :: lenb :: mimeType ++ x05 :: script_of pushes ++ tail)
    with (head ++ [lenb] ++ mimeType ++ x05 :: script_of pushes ++ tail).
  set (script := head ++ [lenb] ++ mimeType ++ x05 :: script_of pushes ++ tail).
  change (byte_at script 9) with (Some 1).
  change (is_byte (Some 1) 1) with true. cbv iota.
  change (byte_at script (9 + 1)) with (Some (u8 lenb)). cbv beta iota.
  assert (Hl : u8 lenb = blength mimeType) by (apply u8_of_length; exact Hm).
  rewrite Hl.
  assert (Hmime : subarray script (9 + 1 + 1) (9 + 1 + 1 + blength mimeType)
                  = mimeType)
    by apply (subarray_chunk head [lenb] mimeType).
  rewrite Hmime.
  set (pre := head ++ [lenb] ++ mimeType).
  replace (9 + 1 + 1 + blength mimeType) with (blength pre)
    by (unfold pre, head; blen).
  assert (Hscript : script = pre ++ x05 :: script_of pushes ++ tail).
  { unfold script, pre. now rewrite <- !app_assoc. }
  rewrite Hscript, byte_at_here.
  change (is_byte (Some (u8 x05)) 5) with true. cbv iota.
  replace (pre ++ x05 :: script_of pushes ++ tail)
    with ((pre ++ [x05]) ++ script_of pushes ++ tail)
    by (now rewrite <- app_assoc).
  replace (blength pre + 1) with (blength (pre ++ [x05])) by blen.
  now rewrite ordxcp_loop_metadata.
Qed.



End OrdXcp.



(* ------------------------------------------------------------------ *)
(** ** CBOR payloads *)
(* ------------------------------------------------------------------ *)

Section CborDecoders.

Context {Other : Type}.
Variable E : Externals Other.

Lemma expect_array_rejects (v : jsval Other) (n : nat) (msg : string) :
  ~ array_of_at_least n v -> expect_array v n msg = Throw (ErrorOf msg).
Proof.
  intros H. destruct v; try reflexivity. cbn [expect_array].
  destruct (Nat.ltb_spec (List.length l) n); [reflexivity|].
  exfalso. apply H. now exists l.
Qed.


Lemma optional_toString_integer (v : jsval Other) (z : Z) :
  integer_value v z -> optional_toString E v = Ok (Some (decimal z)).
Proof. intros [->| ->]; reflexivity. Qed.

(** X26: from an array that starts with an
    integer asset id, an integer quantity and the bytes of a packed address,
    decodeEnhancedSend returns the name of the id, the printed quantity and
    the decoded address; the memo is the hex of a fourth element of bytes, and
    empty when the array has three elements.  A null asset id is no asset: the
    dispatch reports the engine's error. *)
Theorem decodeEnhancedSend_wellformed (payload : Buffer) (network : Network)
  (asset quantity : jsval Other) (asset_id amount : Z)
  (is_buffer : bool) (address : Buffer) (more : list (jsval Other)) :
  integer_value quantity amount ->
  cborDecode E payload
  = Ok (JArray (asset :: quantity :: JBytes is_buffer address :: more)) ->
  let sent memo :=
    EnhancedSendPayload (assetIdToName_bigint asset_id) (Some (decimal amount))
      (shortAddressBytesToAddress E (toString_hex address) network) memo in
  (integer_value asset asset_id -> more = [] ->
   decodeEnhancedSend E payload network = Ok (sent EmptyString))
  /\ (integer_value asset asset_id ->
      forall is_buffer' memo rest,
        more = JBytes is_buffer' memo :: rest ->
        decodeEnhancedSend E payload network = Ok (sent (toString_hex memo)))
  /\ (asset = JNull ->
      decodePayload E 2 payload network
      = UnknownPayload (toString_hex payload)
          (Some (engine_message E ReadOfUndefined))).
Proof.
  intros Hq Hdec sent. split; [|split].
  - intros Ha ->. unfold decodeEnhancedSend. rewrite Hdec.
    cbn [bind expect_array List.length Nat.ltb Nat.leb element nth].
    rewrite (optional_toString_integer _ _ Ha),
      (optional_toString_integer _ _ Hq).
    cbn [bind to_hex to_buffer asset_arg].
    rewrite assetIdToName_of_decimal. reflexivity.
  - intros Ha is_buffer' memo rest ->. unfold decodeEnhancedSend. rewrite Hdec.
    cbn [bind expect_array List.length Nat.ltb Nat.leb element nth].
    rewrite (optional_toString_integer _ _ Ha),
      (optional_toString_integer _ _ Hq).
    cbn [bind to_hex to_buffer asset_arg].
    rewrite assetIdToName_of_decimal. reflexivity.
  - intros ->. unfold decodePayload. cbn [decodePayload_try].
    unfold decodeEnhancedSend. rewrite Hdec.
    cbn [bind expect_array List.length Nat.ltb Nat.leb element nth].
    cbn [optional_toString bind to_hex to_buffer asset_arg assetIdToName].
    reflexivity.
Qed.

End CborDecoders.


Lemma decodeEnhancedSend_wellformed_witness :
  let payload :=
    Buffer_from_hex
      "831b00000000000000011903e85501aaaaaaaaaaaaaaaaaaaaaaaaaaaaaaaaaaaaaaaa" in
  cborDecode Reference.env payload
  = Ok (JArray [JBigInt 1; JNum 1000; JBytes true (x01 :: repeat xaa 20)])
  /\ decodeEnhancedSend Reference.env payload Reference.bitcoin
     = Ok (EnhancedSendPayload "XCP" (Some "1000"%string)
             (shortAddressBytesToAddress Reference.env
                (toString_hex (x01 :: repeat xaa 20)) Reference.bitcoin)
             EmptyString).
Proof.
  intros payload.
  assert (Hd : cborDecode Reference.env payload
               = Ok (JArray [JBigInt 1; JNum 1000;
                             JBytes true (x01 :: repeat xaa 20)]))
    by (vm_compute; reflexivity).
  split; [exact Hd|].
  exact (proj1 (decodeEnhancedSend_wellformed Reference.env payload
                  Reference.bitcoin (JBigInt 1) (JNum 1000) 1 1000 true
                  (x01 :: repeat xaa 20) [] (or_introl eq_refl) Hd)
           (or_intror eq_refl) eq_refl).
Defined.

Section Issuance.

Context {Other : Type}.
Variable E : Externals Other.

Lemma or_empty_string (s : string) : or_empty E (JString s) = JString s.
Proof.
  unfold or_empty. cbn [truthy].
  destruct (String.eqb_spec s EmptyString) as [->|]; reflexivity.
Qed.

(** X27: decodeIssuance reads the MIME type and
    the description from the sixth and seventh element: with five elements
    the type is empty and there is no description; a description of bytes
    under a string type is rendered by decodeTextOrHex; a null description
    stays absent.  A description under a type that is a non-zero number fails
    in the engine, and the dispatch reports it. *)
Theorem decodeIssuance_description (payload : Buffer) (network : Network)
  (asset quantity divisible lock reset : jsval Other) (asset_id amount : Z) :
  integer_value asset asset_id -> integer_value quantity amount ->
  let issued mime description :=
    IssuancePayload (assetIdToName_bigint asset_id) (Some (decimal amount))
      divisible lock reset mime description in
  let fields more := JArray (asset :: quantity :: divisible :: lock :: reset :: more) in
  (cborDecode E payload = Ok (fields []) ->
   decodeIssuance E payload = Ok (issued (JString EmptyString) None))
  /\ (forall mime is_buffer description,
        cborDecode E payload
        = Ok (fields [JString mime; JBytes is_buffer description]) ->
        exists text,
          decodeTextOrHex E description (JString mime) = Ok text
          /\ decodeIssuance E payload = Ok (issued (JString mime) (Some text)))
  /\ (forall mime,
        cborDecode E payload = Ok (fields [JString mime; JNull]) ->
        decodeIssuance E payload = Ok (issued (JString mime) None))
  /\ (forall n is_buffer description,
        n <> 0 ->
        cborDecode E payload
        = Ok (fields [JNum n; JBytes is_buffer description]) ->
        decodePayload E 20 payload network
        = UnknownPayload (toString_hex payload)
            (Some (engine_message E NotAFunction))).
Proof.
  intros Ha Hq issued fields. split; [|split; [|split]].
  - intros Hdec. unfold decodeIssuance. rewrite Hdec.
    cbn [fields bind expect_array List.length Nat.ltb Nat.leb element nth].
    rewrite (optional_toString_integer E _ _ Ha),
      (optional_toString_integer E _ _ Hq).
    cbn [bind or_empty truthy optional_text asset_arg].
    rewrite assetIdToName_of_decimal. reflexivity.
  - intros mime is_buffer description Hdec.
    eexists. split; [apply decodeTextOrHex_string|].
    unfold decodeIssuance. rewrite Hdec.
    cbn [fields bind expect_array List.length Nat.ltb Nat.leb element nth].
    rewrite (optional_toString_integer E _ _ Ha),
      (optional_toString_integer E _ _ Hq), or_empty_string.
    cbn [bind truthy optional_text to_buffer asset_arg].
    rewrite decodeTextOrHex_string. cbn [bind].
    rewrite assetIdToName_of_decimal. reflexivity.
  - intros mime Hdec. unfold decodeIssuance. rewrite Hdec.
    cbn [fields bind expect_array List.length Nat.ltb Nat.leb element nth].
    rewrite (optional_toString_integer E _ _ Ha),
      (optional_toString_integer E _ _ Hq), or_empty_string.
    cbn [bind truthy optional_text asset_arg].
    rewrite assetIdToName_of_decimal. reflexivity.
  - intros n is_buffer description Hn Hdec.
    unfold decodePayload. cbn [decodePayload_try].
    unfold decodeIssuance. rewrite Hdec.
    cbn [fields bind expect_array List.length Nat.ltb Nat.leb element nth].
    rewrite (optional_toString_integer E _ _ Ha).
    assert (Ho : or_empty E (JNum n) = JNum n).
    { unfold or_empty. cbn [truthy].
      destruct (Z.eqb_spec n 0); [contradiction|reflexivity]. }
    rewrite Ho.
    cbn [bind truthy optional_text to_buffer].
    unfold decodeTextOrHex. rewrite Ho. reflexivity.
Qed.

End Issuance.

Lemma decodeIssuance_description_witness :
  let payload := Buffer_from_hex "871903e8182af5f4f46a746578742f706c61696e426869" in
  cborDecode Reference.env payload
  = Ok (JArray [JNum 1000; JNum 42; JBool true; JBool false; JBool false;
                JString "text/plain"; JBytes true [x68; x69]])
  /\ exists text,
       decodeTextOrHex Reference.env [x68; x69] (JString "text/plain") = Ok text
       /\ decodeIssuance Reference.env payload
          = Ok (IssuancePayload "A1000" (Some "42"%string) (JBool true)
                  (JBool false) (JBool false) (JString "text/plain") (Some text)).
Proof.
  intros payload.
  assert (Hd : cborDecode Reference.env payload
               = Ok (JArray [JNum 1000; JNum 42; JBool true; JBool false;
                             JBool false; JString "text/plain";
                             JBytes true [x68; x69]]))
    by (vm_compute; reflexivity).
  split; [exact Hd|].
  exact (proj1 (proj2 (decodeIssuance_description Reference.env payload
                         Reference.bitcoin (JNum 1000) (JNum 42) (JBool true)
                         (JBool false) (JBool false) 1000 42
                         (or_introl eq_refl) (or_introl eq_refl)))
           "text/plain"%string true [x68; x69] Hd).
Defined.

(* ------------------------------------------------------------------ *)
(** ** The forms of an address *)
(* ------------------------------------------------------------------ *)

Section AddressForms.

Context {Other : Type}.
Variable E : Externals Other.

Lemma address_or_given (address fallback : string) :
  address <> EmptyString -> address_or (Some address) fallback = address.
Proof.
  intros H. cbn [address_or].
  destruct (String.eqb_spec address EmptyString); [contradiction|reflexivity].
Qed.

(** X28: a witness program can be packed behind tag 0x03
    and its version byte, or behind the marker 0x80 plus the version: for the
    pairs (0,20), (0,32) and (1,32) both forms reach the same encoder, and
    return the address it gives. *)
Theorem segwit_forms_agree (network : Network) (version : byte)
  (program : Buffer)
  (encoder : Buffer -> Network -> result (option string)) (address : string) :
  segwit_encoder E (u8 version) (blength program) = Some encoder ->
  encoder program network = Ok (Some address) -> address <> EmptyString ->
  shortAddressBytesToAddress E (toString_hex (x03 :: version :: program)) network
  = address
  /\ shortAddressBytesToAddress E
       (toString_hex (to_u8 (0x80 + u8 version) :: program)) network
     = address.
Proof.
  intros Henc Hres Hne. unfold segwit_encoder in Henc.
  pose proof (blength_nonneg program) as Hp.
  assert (Hv : u8 version = 0 \/ u8 version = 1).
  { destruct (Z.eqb_spec (u8 version) 0); [now left|].
    destruct (Z.eqb_spec (u8 version) 1); [now right|].
    cbn [andb] in Henc. discriminate. }
  assert (Hlen : 20 <= blength program).
  { destruct (Z.eqb_spec (blength program) 20); [lia|].
    destruct (Z.eqb_spec (blength program) 32); [lia|].
    rewrite !andb_false_r in Henc. discriminate. }
  assert (Hm : u8 (to_u8 (128 + u8 version)) = 128 + u8 version).
  { apply u8_of_small. lia. }
  split.
  - rewrite shortAddress_tagged by (rewrite !blength_cons; lia). cbv zeta.
    change (is_byte (Some (u8 x03)) 1) with false.
    change (is_byte (Some (u8 x03)) 2) with false.
    change (is_byte (Some (u8 x03)) 3) with true. cbv iota.
    rewrite (proj2 (Z.geb_le (blength (version :: program)) 2))
      by (rewrite blength_cons; lia).
    change (byte_at (version :: program) 0) with (Some (u8 version)).
    change (subarray_from (version :: program) 1) with program.
    cbn [is_byte].
    destruct ((u8 version =? 0) && (blength program =? 20)).
    { injection Henc as <-. rewrite Hres. cbn [bind try_or].
      now apply address_or_given. }
    destruct ((u8 version =? 0) && (blength program =? 32)).
    { injection Henc as <-. rewrite Hres. cbn [bind try_or].
      now apply address_or_given. }
    destruct ((u8 version =? 1) && (blength program =? 32)); [|discriminate].
    injection Henc as <-. rewrite Hres. cbn [bind try_or].
    now apply address_or_given.
  - rewrite shortAddress_tagged by (rewrite !blength_cons; lia). cbv zeta.
    rewrite Hm.
    rewrite !is_byte_neq, byte_between_in by lia.
    replace (128 + u8 version - 128) with (u8 version) by lia.
    cbn [is_byte].
    destruct ((u8 version =? 0) && (blength program =? 20)).
    { injection Henc as <-. rewrite Hres. cbn [bind try_or].
      now apply address_or_given. }
    destruct ((u8 version =? 0) && (blength program =? 32)).
    { injection Henc as <-. rewrite Hres. cbn [bind try_or].
      now apply address_or_given. }
    destruct ((u8 version =? 1) && (blength program =? 32)); [|discriminate].
    injection Henc as <-. rewrite Hres. cbn [bind try_or].
    now apply address_or_given.
Qed.

(** X29: a hash packed behind tag 0x01, or behind the
    network's own pubkey-hash byte, is encoded by the same encoder and gives
    the same address; likewise tag 0x02 and the network's script-hash byte.
    The network's bytes are taken as they are when they are none of the tags
    and no segwit marker. *)
Theorem legacy_forms_agree (network : Network) (version : byte) (hash : Buffer)
  (address : string) :
  hash <> [] -> address <> EmptyString ->
  u8 version <> 1 -> u8 version <> 2 -> u8 version <> 3 ->
  ~ (0x80 <= u8 version <= 0x8f) ->
  (u8 version = pubKeyHash network ->
   p2pkh E hash network = Ok (Some address) ->
   shortAddressBytesToAddress E (toString_hex (x01 :: hash)) network = address
   /\ shortAddressBytesToAddress E (toString_hex (version :: hash)) network
      = address)
  /\ (u8 version = scriptHash network ->
      u8 version <> pubKeyHash network ->
      p2sh E hash network = Ok (Some address) ->
      shortAddressBytesToAddress E (toString_hex (x02 :: hash)) network = address
      /\ shortAddressBytesToAddress E (toString_hex (version :: hash)) network
         = address).
Proof.
  intros Hh Hne H1 H2 H3 Hm.
  assert (Hlen : forall t, blength (t :: hash) >= 2).
  { intros t. destruct hash; [contradiction|]. rewrite !blength_cons.
    pose proof (blength_nonneg hash). lia. }
  assert (Hb : byte_between 128 (Some (u8 version)) 143 = false).
  { apply byte_between_out. lia. }
  split.
  - intros Hk Hres. split.
    + rewrite shortAddress_tagged by apply Hlen. cbv zeta.
      change (is_byte (Some (u8 x01)) 1) with true. cbv iota.
      rewrite Hres. cbn [bind try_or]. now apply address_or_given.
    + rewrite shortAddress_tagged by apply Hlen. cbv zeta.
      rewrite (is_byte_neq _ _ H1), (is_byte_neq _ _ H2), (is_byte_neq _ _ H3), Hb.
      rewrite (is_byte_here _ _ Hk), Hres. cbn [bind try_or].
      now apply address_or_given.
  - intros Hs Hk Hres. split.
    + rewrite shortAddress_tagged by apply Hlen. cbv zeta.
      change (is_byte (Some (u8 x02)) 1) with false.
      change (is_byte (Some (u8 x02)) 2) with true. cbv iota.
      rewrite Hres. cbn [bind try_or]. now apply address_or_given.
    + rewrite shortAddress_tagged by apply Hlen. cbv zeta.
      rewrite (is_byte_neq _ _ H1), (is_byte_neq _ _ H2), (is_byte_neq _ _ H3), Hb.
      rewrite (is_byte_neq _ _ Hk), (is_byte_here _ _ Hs), Hres.
      cbn [bind try_or]. now apply address_or_given.
Qed.

End AddressForms.

Lemma segwit_forms_agree_witness :
  let program := repeat x00 20 in
  exists address,
    p2wpkh Reference.env program Reference.bitcoin = Ok (Some address)
    /\ shortAddressBytesToAddress Reference.env
         (toString_hex (x03 :: x00 :: program)) Reference.bitcoin = address
    /\ shortAddressBytesToAddress Reference.env
         (toString_hex (x80 :: program)) Reference.bitcoin = address.
Proof.
  intros program.
  exists "bc1qqqqqqqqqqqqqqqqqqqqqqqqqqqqqqqqq9e75rs"%string.
  assert (Hr : p2wpkh Reference.env program Reference.bitcoin
               = Ok (Some "bc1qqqqqqqqqqqqqqqqqqqqqqqqqqqqqqqqq9e75rs"%string))
    by (vm_compute; reflexivity).
  split; [exact Hr|].
  refine (segwit_forms_agree Reference.env Reference.bitcoin x00 program
            (p2wpkh Reference.env) _ eq_refl Hr _).
  discriminate.
Defined.

Lemma legacy_forms_agree_witness :
  let hash := repeat x00 20 in
  shortAddressBytesToAddress Reference.env (toString_hex (x01 :: hash))
    Reference.bitcoin = "1111111111111111111114oLvT2"%string
  /\ shortAddressBytesToAddress Reference.env (toString_hex (x00 :: hash))
       Reference.bitcoin = "1111111111111111111114oLvT2"%string.
Proof.
  intros hash.
  refine (proj1 (legacy_forms_agree Reference.env Reference.bitcoin x00 hash
                   "1111111111111111111114oLvT2" _ _ _ _ _ _) eq_refl _);
    try (vm_compute; discriminate).
  - vm_compute. intros [H _]. now apply H.
  - vm_compute. reflexivity.
Defined.

(* ------------------------------------------------------------------ *)
(** ** Cases of the repository's test suite, run on the model *)
(* ------------------------------------------------------------------ *)

Module SuiteCases.
Import Reference.

Example case_not_op_return :
  parse_op_return env [x76; xa9; x14] test_txid bitcoin = None
  /\ parse_op_return env [] test_txid bitcoin = None.
Proof. split; vm_compute; reflexivity. Qed.

Example case_invalid_txid :
  parse_op_return env (x6a :: x0a :: repeat xff 10) "zz" bitcoin = None.
Proof. vm_compute. reflexivity. Qed.

Example case_enhanced_send :
  exists p,
    parse_op_return env
      (createOpReturn 2
         (Buffer_from_hex
            "831b00000000000000011903e85501aaaaaaaaaaaaaaaaaaaaaaaaaaaaaaaaaaaaaaaa")
         test_txid) test_txid bitcoin = Some p
    /\ message_name p = "enhanced_send"%string /\ message_id p = 2.
Proof. eexists. split; [vm_compute; reflexivity|]. split; reflexivity. Qed.

Example case_long_form_unknown :
  exists p,
    parse_op_return env
      (let e := RC4.rc4Decrypt (Buffer_from_hex test_txid)
                  (PREFIX_BYTES ++ x00 :: be_bytes 4 999 ++ [x01]) in
       x6a :: to_u8 (blength e) :: e) test_txid bitcoin = Some p
    /\ message_name p = "unknown"%string /\ message_id p = 999.
Proof. eexists. split; [vm_compute; reflexivity|]. split; reflexivity. Qed.

Example case_address_kinds :
  (exists rest, shortAddressBytesToAddress env (toString_hex (x01 :: test_hash))
                  bitcoin = String "1" rest)
  /\ (exists rest, shortAddressBytesToAddress env
                     (toString_hex (x02 :: test_hash)) bitcoin
                   = String "3" rest)
  /\ (exists rest, shortAddressBytesToAddress env
                     (toString_hex (x03 :: x00 :: test_hash)) bitcoin
                   = ("bc1q" ++ rest)%string)
  /\ shortAddressBytesToAddress env "ff" bitcoin = "0xff"%string.
Proof.
  repeat split; try (eexists; vm_compute; reflexivity).
Qed.

Example case_pushdata2_envelope :
  exists p,
    parse_reveal_tx env
      (toString_hex (reveal_tx (generic_envelope [(PushData2, repeat xee 300)])))
      bitcoin = Some p
    /\ message_id p = 238.
Proof. eexists. split; [vm_compute; reflexivity|reflexivity]. Qed.

Example case_empty_envelope :
  parse_reveal_tx env (toString_hex (reveal_tx [x00; x63; x68])) bitcoin = None
  /\ parse_reveal_tx env "invalid" bitcoin = None.
Proof. split; vm_compute; reflexivity. Qed.

Example case_skipped_opcode :
  exists p,
    parse_reveal_tx env
      (toString_hex (reveal_tx [x00; x63; x51; x02; xaa; xbb; x68])) bitcoin
    = Some p
    /\ message_id p = 170.
Proof. eexists. split; [vm_compute; reflexivity|reflexivity]. Qed.

Example case_dispense_marker :
  decodePayload env 13 [x01] bitcoin
  = UnknownPayload "01"
      (Some "Invalid dispense payload: expected 0x00"%string).
Proof. vm_compute. reflexivity. Qed.

Example case_text_or_hex :
  decodeTextOrHex env (Buffer_from_utf8 "Hello World") (JString EmptyString)
  = Ok "Hello World"%string
  /\ decodeTextOrHex env [xff; xfe; xfd] (JString EmptyString) = Ok "fffefd"%string.
Proof. split; vm_compute; reflexivity. Qed.

End SuiteCases.
